(** * ArtMint-Studio: [scripts/prepare-upload-assets.py]

    A shallow embedding of the upload-asset preparation script and the
    properties its specification states about it.

    The script is Python.  Integers are [Z]; [str] is [string] (characters
    are code points below 256); [bytes] is [list byte]; a [dict] whose
    order is observable (the JSON manifest) is an association list in
    insertion order; the file system is a finite map from absolute paths
    to contents.  A binary64 [float] is its exact rational value in [Q],
    every arithmetic operation being followed by IEEE-754 rounding to
    nearest, ties to even.  Exceptions are values of type [exn] threaded
    through an error monad; file-system effects and the two output streams
    are threaded through a state.

    Pillow and the WebP codec are libraries of the script, not part of it:
    the operations whose results depend on codec internals (header
    parsing, pixel decoding, resampling, alpha compositing, WebP encoding)
    are the fields of the class [Pillow]; everything the script itself
    computes is defined here.

    Paths are POSIX paths, and a path names its file: the file system
    has no links, and the keys of the file map are absolute normalised
    paths with one leading [/] (the kernel reads a leading [//] as
    [/], which the map does not; the properties that depend on which
    file a path names say so).  Command-line parsing is outside the
    embedding: a run starts from the parsed arguments.  Sides beyond what
    Pillow stores in a C [int] raise [OverflowError]; what Pillow raises
    for want of memory is left to the class [Pillow], apart from the
    limit on the length of a line.  Standard error holds what the
    script and the interpreter write: the warnings Pillow may print
    there are not modelled. *)

From Stdlib Require Import ZArith QArith Qround Qabs Qpower Lia Lqa.
From Stdlib Require Import String Ascii List Bool.
From Stdlib.Strings Require Import Byte.
From stdpp Require Import gmap strings.
From Equations Require Import Equations.
Import ListNotations.

Open Scope string_scope.
Open Scope Z_scope.

(** ** Exceptions and the error monad *)

Inductive exn_class :=
  | ValueError
  | OverflowError
  | MemoryError
  | ZeroDivisionError
  | FileNotFoundError
  | FileExistsError
  | IsADirectoryError
  | NotADirectoryError
  | UnidentifiedImageError
  | OSError
  | ImportError.

(** An exception: its class and [str(exc)]. *)
Record exn := Exn { exn_cls : exn_class; exn_str : string }.

Inductive result (A : Type) :=
  | Ok (a : A)
  | Raise (e : exn).
Arguments Ok {A} a.
Arguments Raise {A} e.

Definition rbind {A B} (r : result A) (k : A -> result B) : result B :=
  match r with
  | Ok a => k a
  | Raise e => Raise e
  end.

Declare Scope result_scope.
Delimit Scope result_scope with result.
Notation "'let?' x ':=' c 'in' k" := (rbind c (fun x => k))
  (at level 10, x pattern, c at level 100, k at level 200) : result_scope.
Open Scope result_scope.

(** ** [str] methods *)

Definition code (c : ascii) : Z := Z.of_N (N_of_ascii c).

(** [str.upper] on the ASCII letters. *)
Definition upper_char (c : ascii) : ascii :=
  if (97 <=? code c) && (code c <=? 122)
  then ascii_of_N (Z.to_N (code c - 32))
  else c.

Fixpoint upper (s : string) : string :=
  match s with
  | EmptyString => EmptyString
  | String c r => String (upper_char c) (upper r)
  end.

(** [str.isspace] for one character, on the code points below 256:
    U+0009..U+000D, U+001C..U+0020, U+0085 and U+00A0. *)
Definition isspace (c : ascii) : bool :=
  let n := code c in
  ((9 <=? n) && (n <=? 13)) || ((28 <=? n) && (n <=? 32))
  || (n =? 133) || (n =? 160).

Fixpoint lstrip (s : string) : string :=
  match s with
  | EmptyString => EmptyString
  | String c r => if isspace c then lstrip r else s
  end.

Fixpoint string_rev (s : string) : string :=
  match s with
  | EmptyString => EmptyString
  | String c r => string_rev r ++ String c EmptyString
  end.

Definition rstrip (s : string) : string := string_rev (lstrip (string_rev s)).

(** [str.strip()] *)
Definition strip (s : string) : string := rstrip (lstrip s).

(** [s.startswith(p)] *)
Fixpoint startswith (p s : string) : bool :=
  match p, s with
  | EmptyString, _ => true
  | String a p', String b s' => Ascii.eqb a b && startswith p' s'
  | String _ _, EmptyString => false
  end.

Definition endswith (p s : string) : bool :=
  startswith (string_rev p) (string_rev s).

(** [s.split(sep)] for a one-character separator: never empty. *)
Fixpoint split (sep : ascii) (s : string) : list string :=
  match s with
  | EmptyString => [EmptyString]
  | String c r =>
      if Ascii.eqb c sep then EmptyString :: split sep r
      else match split sep r with
           | w :: ws => String c w :: ws
           | [] => [String c EmptyString]
           end
  end.

(** [sep.join(l)] *)
Fixpoint join_with (sep : string) (l : list string) : string :=
  match l with
  | [] => EmptyString
  | [w] => w
  | w :: ws => w ++ sep ++ join_with sep ws
  end.

(** [s.rfind(c)]: index of the last occurrence of [c], or -1. *)
Fixpoint rfind_from (i : Z) (found : Z) (c : ascii) (s : string) : Z :=
  match s with
  | EmptyString => found
  | String a r => rfind_from (i + 1) (if Ascii.eqb a c then i else found) c r
  end.

Definition rfind (c : ascii) (s : string) : Z := rfind_from 0 (-1) c s.

(** [s[i:j]] for [0 <= i], [0 <= j]. *)
Definition slice (s : string) (i j : Z) : string :=
  substring (Z.to_nat i) (Z.to_nat (j - i)) s.

(** [s[i:]] *)
Definition slice_from (s : string) (i : Z) : string :=
  substring (Z.to_nat i) (String.length s - Z.to_nat i) s.

Fixpoint string_exists (f : ascii -> bool) (s : string) : bool :=
  match s with
  | EmptyString => false
  | String c r => f c || string_exists f r
  end.

(** [s.replace(old, new)] for a non-empty [old]: [skip] counts the
    characters of a match still to be dropped. *)
Fixpoint replace_go (old new : string) (skip : nat) (s : string) : string :=
  match s with
  | EmptyString => EmptyString
  | String c r =>
      match skip with
      | S k => replace_go old new k r
      | O =>
          if startswith old s
          then new ++ replace_go old new (String.length old - 1) r
          else String c (replace_go old new 0 r)
      end
  end.

Definition replace (old new s : string) : string := replace_go old new 0 s.

(** ** [os.path] (POSIX) *)

Definition is_empty (s : string) : bool :=
  match s with EmptyString => true | _ => false end.

(** [posixpath.join(a, b)] *)
Definition path_join (a b : string) : string :=
  if startswith "/" b then b
  else if is_empty a || endswith "/" a then a ++ b
  else a ++ "/" ++ b.

(** One step of the component loop of [posixpath.normpath]; [comps] is
    [new_comps] in reverse. *)
Definition normpath_step (initial_slashes : Z) (comps : list string)
    (comp : string) : list string :=
  if is_empty comp || String.eqb comp "." then comps
  else if negb (String.eqb comp "..")
          || ((initial_slashes =? 0) && match comps with [] => true | _ => false end)
          || match comps with c :: _ => String.eqb c ".." | [] => false end
       then comp :: comps
       else match comps with
            | _ :: rest => rest
            | [] => comps
            end.

Fixpoint repeat_string (n : nat) (s : string) : string :=
  match n with
  | O => EmptyString
  | S k => s ++ repeat_string k s
  end.

(** [posixpath.normpath] *)
Definition normpath (path : string) : string :=
  if is_empty path then "."
  else
    let initial_slashes :=
      if startswith "/" path
      then if startswith "//" path && negb (startswith "///" path) then 2 else 1
      else 0 in
    let comps :=
      rev (fold_left (normpath_step initial_slashes) (split "/" path) []) in
    let p := repeat_string (Z.to_nat initial_slashes) "/" ++ join_with "/" comps in
    if is_empty p then "." else p.

(** [os.path.abspath], with the current directory [cwd] of the process. *)
Definition abspath (cwd path : string) : string :=
  normpath (if startswith "/" path then path else path_join cwd path).

(** [posixpath.basename] *)
Definition basename (p : string) : string :=
  slice_from p (rfind "/" p + 1).

(** [s.rstrip(c)] for one character [c] *)
Fixpoint lstrip_char (c : ascii) (s : string) : string :=
  match s with
  | EmptyString => EmptyString
  | String a r => if Ascii.eqb a c then lstrip_char c r else s
  end.

Definition rstrip_char (c : ascii) (s : string) : string :=
  string_rev (lstrip_char c (string_rev s)).

(** [posixpath.dirname] *)
Definition dirname (p : string) : string :=
  let head := slice p 0 (rfind "/" p + 1) in
  if negb (is_empty head)
     && string_exists (fun c => negb (Ascii.eqb c "/")) head
  then rstrip_char "/" head
  else head.

(** [posixpath.splitext]: the extension starts at the last dot of the
    last component, unless only dots precede it there. *)
Definition splitext (p : string) : string * string :=
  let sepIndex := rfind "/" p in
  let dotIndex := rfind "." p in
  if (sepIndex <? dotIndex)
     && string_exists (fun c => negb (Ascii.eqb c "."))
          (slice p (sepIndex + 1) dotIndex)
  then (slice p 0 dotIndex, slice_from p dotIndex)
  else (p, EmptyString).

(** ** binary64 arithmetic

    A finite [float] is the rational it denotes.  [round_b64] is IEEE-754
    rounding to nearest, ties to even, for precision 53 and least
    exponent -1074 (subnormals included); results from [2^1024] on
    overflow. *)

(** For [x <> 0], the [e] with [2^(e-1) <= |x| < 2^e]. *)
Definition Qmag (x : Q) : Z :=
  let k := Z.log2 (Z.abs (Qnum x)) - Z.log2 (Zpos (Qden x)) in
  if Qle_bool (2 ^ k) (Qabs x) then k + 1 else k.

(** The integer nearest to [x], ties to the even one: this is also
    [round(x)] of a float [x]. *)
Definition round_half_even (x : Q) : Z :=
  let f := Qfloor x in
  match (x - inject_Z f ?= 1 # 2)%Q with
  | Lt => f
  | Gt => f + 1
  | Eq => if Z.even f then f else f + 1
  end.

Definition round_b64 (x : Q) : Q :=
  let e := Z.max (Qmag x - 53) (-1074) in
  Qred (inject_Z (round_half_even (x * 2 ^ (- e))) * 2 ^ e).

Definition overflows (x : Q) : bool := Qle_bool (2 ^ 1024) (Qabs x).

(** A float that may be infinite (a product can overflow silently). *)
Inductive float :=
  | Finite (v : Q)
  | Infinity (negative : bool).

(** [a / b] on [int]s: correctly rounded, [ZeroDivisionError] and
    [OverflowError] as CPython raises them.  The result is finite. *)
Definition int_truediv (a b : Z) : result Q :=
  if b =? 0 then Raise (Exn ZeroDivisionError "division by zero")
  else
    let r := round_b64 (inject_Z a / inject_Z b) in
    if overflows r
    then Raise (Exn OverflowError "integer division result too large for a float")
    else Ok r.

(** [float(n)], the conversion [n * x] applies to its [int] operand. *)
Definition float_of_int (n : Z) : result Q :=
  let r := round_b64 (inject_Z n) in
  if overflows r
  then Raise (Exn OverflowError "int too large to convert to float")
  else Ok r.

(** [x * y] on finite floats. *)
Definition float_mul (x y : Q) : float :=
  let r := round_b64 (x * y) in
  if overflows r then Infinity (Qle_bool r 0) else Finite r.

(** [n * x] for an [int] [n] and a finite float [x]. *)
Definition int_mul_float (n : Z) (x : Q) : result float :=
  let? f := float_of_int n in Ok (float_mul f x).

(** [min(a, b)] on finite floats: [b] when [b < a], else [a]. *)
Definition float_min (a b : Q) : Q :=
  match (b ?= a)%Q with
  | Lt => b
  | _ => a
  end.

(** [round(x)] with one argument: an [int]. *)
Definition py_round (x : float) : result Z :=
  match x with
  | Finite v => Ok (round_half_even v)
  | Infinity _ =>
      Raise (Exn OverflowError "cannot convert float infinity to integer")
  end.

(** ** [hashlib.sha256] (FIPS 180-4) *)

Module SHA256.

Definition w32 (x : Z) : Z := Z.land x 4294967295.
Definition add32 (x y : Z) : Z := w32 (x + y).
Definition rotr (n x : Z) : Z :=
  Z.lor (Z.shiftr x n) (w32 (Z.shiftl x (32 - n))).
Definition not32 (x : Z) : Z := Z.lxor x 4294967295.

Definition Ch (x y z : Z) : Z := Z.lxor (Z.land x y) (Z.land (not32 x) z).
Definition Maj (x y z : Z) : Z :=
  Z.lxor (Z.lxor (Z.land x y) (Z.land x z)) (Z.land y z).
Definition Sigma0 (x : Z) : Z := Z.lxor (Z.lxor (rotr 2 x) (rotr 13 x)) (rotr 22 x).
Definition Sigma1 (x : Z) : Z := Z.lxor (Z.lxor (rotr 6 x) (rotr 11 x)) (rotr 25 x).
Definition sigma0 (x : Z) : Z := Z.lxor (Z.lxor (rotr 7 x) (rotr 18 x)) (Z.shiftr x 3).
Definition sigma1 (x : Z) : Z := Z.lxor (Z.lxor (rotr 17 x) (rotr 19 x)) (Z.shiftr x 10).

(** The constants are fractional parts of roots of the first primes. *)
Definition is_prime (n : Z) : bool :=
  forallb (fun d => negb (n mod Z.of_nat d =? 0)) (seq 2 (Z.to_nat n - 2)).

Definition primes : list Z :=
  filter is_prime (map Z.of_nat (seq 2 310)).

(** The integer cube root of [x], bit by bit from bit [n - 1] down. *)
Fixpoint cube_root (n : nat) (x r : Z) : Z :=
  match n with
  | O => r
  | S n' =>
      let c := r + 2 ^ Z.of_nat n' in
      cube_root n' x (if c * c * c <=? x then c else r)
  end.

(** The first 32 bits of the fractional part of the cube root of each
    of the first 64 primes. *)
Definition K : list Z :=
  map (fun p => w32 (cube_root 36 (p * 2 ^ 96) 0)) primes.

(** The eight working variables, and the hash value, as a record. *)
Record state := State { sa : Z; sb : Z; sc : Z; sd : Z; se : Z; sf : Z; sg : Z; sh : Z }.

(** The first 32 bits of the fractional part of the square root of a
    prime. *)
Definition root_bits (p : Z) : Z := w32 (Z.sqrt (p * 2 ^ 64)).

Definition H0 : state :=
  State (root_bits 2) (root_bits 3) (root_bits 5) (root_bits 7)
        (root_bits 11) (root_bits 13) (root_bits 17) (root_bits 19).

Definition byte_val (b : byte) : Z := Z.of_N (Byte.to_N b).

Definition byte_of (x : Z) : byte :=
  match Byte.of_N (Z.to_N (Z.land x 255)) with
  | Some b => b
  | None => Byte.x00
  end.

(** Big-endian words of a block. *)
Fixpoint words (bs : list byte) : list Z :=
  match bs with
  | b0 :: b1 :: b2 :: b3 :: r =>
      (Z.shiftl (byte_val b0) 24 + Z.shiftl (byte_val b1) 16
       + Z.shiftl (byte_val b2) 8 + byte_val b3) :: words r
  | _ => []
  end.

(** Message schedule: [n] more words after the schedule [w] so far,
    kept most recent first. *)
Fixpoint schedule (n : nat) (w : list Z) : list Z :=
  match n with
  | O => w
  | S n' =>
      let x := add32 (add32 (sigma1 (nth 1 w 0)) (nth 6 w 0))
                     (add32 (sigma0 (nth 14 w 0)) (nth 15 w 0)) in
      schedule n' (x :: w)
  end.

Definition round (s : state) (kw : Z * Z) : state :=
  let '(k, w) := kw in
  let t1 := add32 (add32 (add32 (sh s) (Sigma1 (se s))) (Ch (se s) (sf s) (sg s)))
                  (add32 k w) in
  let t2 := add32 (Sigma0 (sa s)) (Maj (sa s) (sb s) (sc s)) in
  State (add32 t1 t2) (sa s) (sb s) (sc s) (add32 (sd s) t1) (se s) (sf s) (sg s).

Definition compress (h : state) (block : list byte) : state :=
  let w := rev (schedule 48 (rev (words block))) in
  let s := fold_left round (combine K w) h in
  State (add32 (sa h) (sa s)) (add32 (sb h) (sb s)) (add32 (sc h) (sc s))
        (add32 (sd h) (sd s)) (add32 (se h) (se s)) (add32 (sf h) (sf s))
        (add32 (sg h) (sg s)) (add32 (sh h) (sh s)).

Definition be_bytes (n : nat) (x : Z) : list byte :=
  map (fun i => byte_of (Z.shiftr x (8 * Z.of_nat i))) (rev (seq 0 n)).

(** Padding: 0x80, zeros up to 56 mod 64, the bit length on 8 bytes. *)
Definition pad (msg : list byte) : list byte :=
  let len := Z.of_nat (length msg) in
  let zeros := Z.to_nat ((55 - len) mod 64) in
  msg ++ [Byte.x80] ++ repeat Byte.x00 zeros ++ be_bytes 8 (8 * len).

(** The padded message, block by block; [n] bounds the number of blocks. *)
Fixpoint blocks (n : nat) (h : state) (bs : list byte) : state :=
  match n, bs with
  | S n', _ :: _ => blocks n' (compress h (firstn 64 bs)) (skipn 64 bs)
  | _, _ => h
  end.

Definition digest (msg : list byte) : list byte :=
  let p := pad msg in
  let h := blocks (length p) H0 p in
  flat_map (be_bytes 4)
    [sa h; sb h; sc h; sd h; se h; sf h; sg h; sh h].

End SHA256.

Definition hex_digit (n : Z) : ascii :=
  if n <? 10 then ascii_of_N (Z.to_N (48 + n)) else ascii_of_N (Z.to_N (87 + n)).

(** [bytes.hex()]: two lowercase digits per byte. *)
Fixpoint hex (bs : list byte) : string :=
  match bs with
  | [] => EmptyString
  | b :: r =>
      let v := SHA256.byte_val b in
      String (hex_digit (v / 16)) (String (hex_digit (v mod 16)) (hex r))
  end.

(** A [hashlib.sha256()] object: what has been fed to it so far. *)
Record sha256_object := Sha256Object { fed : list byte }.

Definition sha256_new : sha256_object := Sha256Object [].
Definition sha256_of (data : list byte) : sha256_object := Sha256Object data.
Definition update (h : sha256_object) (chunk : list byte) : sha256_object :=
  Sha256Object (fed h ++ chunk).
Definition hexdigest (h : sha256_object) : string := hex (SHA256.digest (fed h)).

(** ** JSON values and [dict]s

    A [dict] is the list of its items in insertion order. *)

#[warnings="-register-all"] Inductive json :=
  | JStr (s : string)
  | JInt (n : Z)
  | JFloat (v : Q)
  | JObj (items : list (string * json)).

(** [d.get(key)] *)
Fixpoint dict_get {A} (key : string) (d : list (string * A)) : option A :=
  match d with
  | [] => None
  | (k, v) :: r => if String.eqb k key then Some v else dict_get key r
  end.

(** [d[key] = v]: an existing key keeps its place, a new one goes last. *)
Fixpoint dict_set {A} (key : string) (v : A) (d : list (string * A)) :
    list (string * A) :=
  match d with
  | [] => [(key, v)]
  | (k, x) :: r =>
      if String.eqb k key then (k, v) :: r else (k, x) :: dict_set key v r
  end.

(** [j[k1][k2]...] *)
Fixpoint json_path (ks : list string) (j : json) : option json :=
  match ks with
  | [] => Some j
  | k :: ks' =>
      match j with
      | JObj items =>
          match dict_get k items with
          | Some v => json_path ks' v
          | None => None
          end
      | _ => None
      end
  end.

(** ** The process state: files, directories, the two output streams *)

Inductive line :=
  | Text (s : string)          (** [print(s)] *)
  | Dumps (j : json)           (** [print(json.dumps(j))] *)
  | Traceback (e : exn).       (** the interpreter's report of an uncaught [e] *)

Record World := mkWorld {
  files : gmap string (list byte);
  dirs : gset string;
  stdout : list line;
  stderr : list line
}.

Definition set_files (f : gmap string (list byte)) (w : World) : World :=
  mkWorld f (dirs w) (stdout w) (stderr w).
Definition set_dirs (d : gset string) (w : World) : World :=
  mkWorld (files w) d (stdout w) (stderr w).
Definition put_stdout (l : line) (w : World) : World :=
  mkWorld (files w) (dirs w) (stdout w ++ [l]) (stderr w).
Definition put_stderr (l : line) (w : World) : World :=
  mkWorld (files w) (dirs w) (stdout w) (stderr w ++ [l]).

(** What the process reads from its environment. *)
Record Env := mkEnv {
  cwd : string;                (** [os.getcwd()] *)
  utcnow_isoformat : string;   (** [datetime.now(timezone.utc).isoformat()] *)
  import_PIL : result unit     (** the outcome of [from PIL import Image] *)
}.

(** A computation: it may raise, and the effects it had before stay. *)
Definition py (A : Type) : Type := World -> result A * World.

Definition ret {A} (a : A) : py A := fun w => (Ok a, w).
Definition lift {A} (r : result A) : py A := fun w => (r, w).
Definition bind {A B} (c : py A) (k : A -> py B) : py B :=
  fun w =>
    match c w with
    | (Ok a, w') => k a w'
    | (Raise e, w') => (Raise e, w')
    end.

Notation "'let!' x ':=' c 'in' k" := (bind c (fun x => k))
  (at level 10, x pattern, c at level 100, k at level 200) : result_scope.

Definition print_out (l : line) : py unit := fun w => (Ok tt, put_stdout l w).

(** [str] of an [OSError] raised for a path (quoting as [repr] does for a
    path without quotes, backslashes or control characters). *)
Definition os_error (cls : exn_class) (errno : string) (msg path : string) : exn :=
  Exn cls ("[Errno " ++ errno ++ "] " ++ msg ++ ": '" ++ path ++ "'")%string.

(** [path], [dirname(path)], ... up to the root; [n] bounds the depth. *)
Fixpoint ancestors (n : nat) (path : string) : list string :=
  match n with
  | O => []
  | S k =>
      let parent := dirname path in
      if is_empty parent || String.eqb parent path then []
      else parent :: ancestors k parent
  end.

(** Is a regular file at [path]? *)
Definition is_file (w : World) (path : string) : bool :=
  bool_decide (is_Some (files w !! path)).

(** [open(path, "rb").read()].  Without a file at [path], [open] fails
    with [ENOTDIR] when a component of the path is a regular file, with
    [EISDIR] when the path is a directory, with [ENOENT] otherwise. *)
Definition read_bytes (path : string) : py (list byte) :=
  fun w =>
    match files w !! path with
    | Some data => (Ok data, w)
    | None =>
        if existsb (is_file w) (ancestors (String.length path) path)
        then (Raise (os_error NotADirectoryError "20" "Not a directory" path), w)
        else if bool_decide (path ∈ dirs w)
        then (Raise (os_error IsADirectoryError "21" "Is a directory" path), w)
        else (Raise (os_error FileNotFoundError "2" "No such file or directory" path), w)
    end.

(** The directories [os.makedirs] has to make above [child], nearest
    first: it climbs while the parent does not exist, and the first
    [mkdir], the one below the parent that exists, fails with [ENOTDIR]
    when that parent is a regular file. *)
Fixpoint missing_parents (w : World) (child : string) (parents : list string) :
    result (list string) :=
  match parents with
  | [] => Ok []
  | p :: rest =>
      if bool_decide (p ∈ dirs w) then Ok []
      else if is_file w p
      then Raise (os_error NotADirectoryError "20" "Not a directory" child)
      else let? more := missing_parents w p rest in Ok (p :: more)
  end.

(** [os.makedirs(path, exist_ok=True)] *)
Definition makedirs (path : string) : py unit :=
  fun w =>
    if bool_decide (path ∈ dirs w) then (Ok tt, w)
    else if is_file w path
    then (Raise (os_error FileExistsError "17" "File exists" path), w)
    else
      match missing_parents w path (ancestors (String.length path) path) with
      | Raise e => (Raise e, w)
      | Ok made => (Ok tt, set_dirs (dirs w ∪ {[path]} ∪ list_to_set made) w)
      end.

(** ** Pillow *)

Definition pixel : Type := Z * Z * Z * Z.

(** An image object.  A file opened by [Image.open] is decoded lazily:
    [im_load] is the outcome its first pixel access will have. *)
Record Image := mkImage {
  im_format : option string;
  im_mode : string;
  im_size : Z * Z;
  im_load : result (Z -> Z -> pixel)
}.

(** Pillow hands the sides of an image to its C core as [int]s. *)
Definition INT_MAX : Z := 2147483647.
Definition LONG_MAX : Z := 9223372036854775807.

(** An [int] argument of the C core: [OverflowError] outside the range. *)
Definition c_int (n : Z) : result Z :=
  if (LONG_MAX <? n) || (n <? - LONG_MAX - 1)
  then Raise (Exn OverflowError "Python int too large to convert to C long")
  else if INT_MAX <? n
  then Raise (Exn OverflowError "signed integer is greater than maximum")
  else if n <? - INT_MAX - 1
  then Raise (Exn OverflowError "signed integer is less than minimum")
  else Ok n.

(** The longest line the C core allocates: wider images are refused
    with [MemoryError]. *)
Definition LINE_MAX : Z := INT_MAX / 4 - 1.

(** The codec-dependent operations. *)
Class Pillow := {
  (** [Image.open(filename)] on the bytes of the file: the header. *)
  identify : string -> list byte -> result Image;
  (** A file whose header gives a side below 1 is not identified:
      [Image.open] returns no image with such a side. *)
  identify_sides :
    forall filename data im,
      identify filename data = Ok im ->
      1 <= fst (im_size im) /\ 1 <= snd (im_size im);
  (** what [im.resize(size, LANCZOS)] raises, if anything, on an image
      of the first size for the second: [MemoryError] from the buffer
      guards of the resampler or from an allocation that fails *)
  resize_raises : Z * Z -> Z * Z -> option exn;
  (** what the allocation of a new image of this size raises, if
      anything *)
  new_raises : Z * Z -> option exn;
  (** one pixel of [im.convert(mode)] *)
  convert_pixel : string -> string -> pixel -> pixel;
  (** the pixels of [im.resize(size, Image.Resampling.LANCZOS)] *)
  lanczos : Z * Z -> (Z -> Z -> pixel) -> Z * Z -> Z -> Z -> pixel;
  (** a destination pixel after pasting a source pixel under its own alpha *)
  composite : pixel -> pixel -> pixel;
  (** the bytes of the WebP file for given size, pixels and quality *)
  webp_encode : Z * Z -> (Z -> Z -> pixel) -> Z -> result (list byte)
}.

Section PillowImage.
Context `{Pillow}.

(** [im.convert(mode)] *)
Definition convert (im : Image) (mode : string) : result Image :=
  let? px := im_load im in
  Ok (mkImage None mode (im_size im)
        (Ok (fun x y => convert_pixel (im_mode im) mode (px x y)))).

(** [im.resize(size, Image.Resampling.LANCZOS)] *)
Definition resize (im : Image) (size : Z * Z) : result Image :=
  let? px := im_load im in
  let? xsize := c_int (fst size) in
  let? ysize := c_int (snd size) in
  if (xsize <? 1) || (ysize <? 1)
  then Raise (Exn ValueError "height and width must be > 0")
  else if LINE_MAX <? xsize
  then Raise (Exn MemoryError EmptyString)
  else
    match resize_raises (im_size im) size with
    | Some e => Raise e
    | None =>
        Ok (mkImage None (im_mode im) size (Ok (lanczos (im_size im) px size)))
    end.

(** [Image.new(mode, size, color)] *)
Definition Image_new (mode : string) (size : Z * Z) (color : pixel) :
    result Image :=
  if (fst size <? 0) || (snd size <? 0)
  then Raise (Exn ValueError "Width and height must be >= 0")
  else
    let? xsize := c_int (fst size) in
    let? ysize := c_int (snd size) in
    if LINE_MAX <? xsize
    then Raise (Exn MemoryError EmptyString)
    else
      match new_raises (xsize, ysize) with
      | Some e => Raise e
      | None => Ok (mkImage None mode (xsize, ysize) (Ok (fun _ _ => color)))
      end.

(** Is [(x, y)] inside the box of size [size] placed at [at_]? *)
Definition in_box (at_ size : Z * Z) (x y : Z) : bool :=
  (fst at_ <=? x) && (x <? fst at_ + fst size)
  && (snd at_ <=? y) && (y <? snd at_ + snd size).

(** [canvas.paste(im, box, im)]: the canvas afterwards. *)
Definition paste (canvas im : Image) (box : Z * Z) : result Image :=
  let? dst := im_load canvas in
  let? src := im_load im in
  Ok (mkImage (im_format canvas) (im_mode canvas) (im_size canvas)
        (Ok (fun x y =>
               if in_box box (im_size im) x y
               then composite (dst x y) (src (x - fst box) (y - snd box))
               else dst x y))).

(** [Image.open(path)] *)
Definition Image_open (path : string) : py Image :=
  let! data := read_bytes path in lift (identify path data).

(** The bytes [im.save(_, format="WEBP", quality=quality)] writes. *)
Definition encode (im : Image) (quality : Z) : result (list byte) :=
  let? px := im_load im in webp_encode (im_size im) px quality.

(** [im.save(path, format="WEBP", quality=quality)]: the file is opened
    for writing, then encoded into; when encoding fails a file this
    call created is removed, an older one stays truncated. *)
Definition save (im : Image) (path : string) (quality : Z) : py unit :=
  fun w =>
    if bool_decide (path ∈ dirs w)
    then (Raise (os_error IsADirectoryError "21" "Is a directory" path), w)
    else
      match encode im quality with
      | Ok data => (Ok tt, set_files (<[path := data]> (files w)) w)
      | Raise e =>
          (Raise e,
           match files w !! path with
           | Some _ => set_files (<[path := []]> (files w)) w
           | None => w
           end)
      end.

End PillowImage.

(** ** The script *)

Definition MAX_MINT_DIM : Z := 4096.
Definition MAX_THUMB_DIM : Z := 512.
Definition ALLOWED_MIME : list (string * string) :=
  [ ("JPEG", "image/jpeg");
    ("PNG", "image/png");
    ("WEBP", "image/webp");
    ("GIF", "image/gif") ].

(** [f.read(1024 * 1024)] *)
Definition CHUNK : nat := Nat.mul 1024 1024.

(** A value together with the equation that defines it. *)
Definition inspect {A} (a : A) : {b : A | a = b} := exist _ a eq_refl.

(** The read loop of [sha256_hex] on the unread part [f] of the file. *)
Equations? sha256_hex_loop (h : sha256_object) (f : list byte) :
    sha256_object by wf (length f) lt :=
  sha256_hex_loop h f with inspect (firstn CHUNK f) := {
    | exist _ nil E => h
    | exist _ (cons b c) E =>
        sha256_hex_loop (update h (cons b c)) (skipn CHUNK f)
  }.
Proof.
  rewrite length_skipn.
  destruct f as [| b' f']; [ rewrite firstn_nil in E; discriminate | ].
  cbn [length]. unfold CHUNK. lia.
Qed.

Definition sha256_hex (path : string) : py string :=
  let! data := read_bytes path in
  ret (hexdigest (sha256_hex_loop sha256_new data)).

(** [min(side / src_w, side / src_h)] *)
Definition contain_scale (side src_w src_h : Z) : result Q :=
  let? a := int_truediv side src_w in
  let? b := int_truediv side src_h in
  Ok (float_min a b).

(** [max(1, int(round(dim * scale)))] *)
Definition scaled_dim (dim : Z) (scale : Q) : result Z :=
  let? p := int_mul_float dim scale in
  let? r := py_round p in
  Ok (Z.max 1 r).

(** [(side - out) // 2] *)
Definition paste_offset (side out : Z) : Z := (side - out) / 2.

(** The locals [out_w], [out_h], [offset_x], [offset_y] of
    [render_square_contain]. *)
Record Layout := mkLayout {
  out_w : Z;
  out_h : Z;
  offset_x : Z;
  offset_y : Z
}.

Definition contain_layout (side src_w src_h : Z) : result Layout :=
  let? scale := contain_scale side src_w src_h in
  let? w := scaled_dim src_w scale in
  let? h := scaled_dim src_h scale in
  Ok (mkLayout w h (paste_offset side w) (paste_offset side h)).

Definition transparent : pixel := (0, 0, 0, 0).

(** A side that an image can have and that is not zero. *)
Definition dimension (n : Z) : Prop := 1 <= n <= INT_MAX.

(** The unit roundoff of binary64, [2^-53]. *)
Definition ulp_half : Q := 1 # 9007199254740992.

(** Half the least subnormal: the absolute error of rounding below the
    normal range. *)
Definition eta : Q := 2 ^ (-1075).

(** The command line as [argparse] reads it: the two required options,
    and the three optional ones when given. *)
Record Flags := mkFlags {
  flag_input : string;
  flag_out_dir : string;
  flag_mint_max_side : option Z;
  flag_thumb_max_side : option Z;
  flag_quality : option Z
}.

(** The namespace [args]. *)
Record Args := mkArgs {
  input : string;
  out_dir : string;
  mint_max_side : Z;
  thumb_max_side : Z;
  quality : Z
}.

(** [parser.parse_args()]: absent options take their defaults. *)
Definition parse_args (f : Flags) : Args :=
  mkArgs (flag_input f) (flag_out_dir f)
    (default MAX_MINT_DIM (flag_mint_max_side f))
    (default MAX_THUMB_DIM (flag_thumb_max_side f))
    (default 85 (flag_quality f)).

(** The format tag in upper case, empty when the image has none. *)
Definition format_tag (im : Image) : string :=
  upper (match im_format im with Some f => f | None => EmptyString end).

(** The checks [main] makes on the opened image: its MIME type and size
    when it passes. *)
Definition validate (im : Image) : result (string * Z * Z) :=
  let fmt := format_tag im in
  match dict_get fmt ALLOWED_MIME with
  | None =>
      Raise (Exn ValueError
               ("Unsupported input format: "
                ++ (if is_empty fmt then "unknown" else fmt))%string)
  | Some mime =>
      let '(original_w, original_h) := im_size im in
      if (original_w <? 1) || (original_h <? 1)
      then Raise (Exn ValueError "Invalid source dimensions")
      else Ok (mime, original_w, original_h)
  end.

(** The [meta] dictionary before the title is set. *)
Definition build_meta (env : Env) (input_path mime : string)
    (original_bytes mint_bytes thumb_bytes : list byte)
    (original_w original_h mint_side thumb_side : Z) : list (string * json) :=
  [ ("description", JStr "ArtMint upload smoke test");
    ("original", JObj
       [ ("filename", JStr (basename input_path));
         ("mime", JStr mime);
         ("bytes", JInt (Z.of_nat (length original_bytes)));
         ("width", JInt original_w);
         ("height", JInt original_h);
         ("sha256", JStr (hexdigest (sha256_of original_bytes))) ]);
    ("mint", JObj
       [ ("mime", JStr "image/webp");
         ("bytes", JInt (Z.of_nat (length mint_bytes)));
         ("width", JInt mint_side);
         ("height", JInt mint_side);
         ("maxSide", JInt mint_side);
         ("fit", JStr "contain");
         ("format", JStr "webp");
         ("quality", JFloat (round_b64 (85 # 100))) ]);
    ("thumbnail", JObj
       [ ("mime", JStr "image/webp");
         ("bytes", JInt (Z.of_nat (length thumb_bytes)));
         ("width", JInt thumb_side);
         ("height", JInt thumb_side);
         ("maxSide", JInt thumb_side) ]);
    ("createdAt", JStr (replace "+00:00" "Z" (utcnow_isoformat env)));
    ("appVersion", JStr "smoke-test") ].

(** [os.path.splitext(os.path.basename(input_path))[0]] *)
Definition raw_stem (input_path : string) : string :=
  fst (splitext (basename input_path)).

(** [meta] with its optional title. *)
Definition with_title (input_path : string) (meta : list (string * json)) :
    list (string * json) :=
  let stem := strip (raw_stem input_path) in
  if is_empty stem then meta else dict_set "title" (JStr stem) meta.

(** The dictionary [result] that is printed. *)
Definition build_result (out_dir input_path mint_path thumb_path : string)
    (meta : list (string * json)) : json :=
  JObj
    [ ("files", JObj
         [ ("tempDir", JStr out_dir);
           ("originalPath", JStr input_path);
           ("mintPath", JStr mint_path);
           ("thumbnailPath", JStr thumb_path);
           ("originalFilename", JStr (basename input_path));
           ("mintFilename", JStr "mint.webp");
           ("thumbnailFilename", JStr "thumb.webp") ]);
      ("meta", JObj meta) ].

Section Script.
Context `{Pillow}.

Definition render_square_contain (src : Image) (side : Z) : result Image :=
  let? src_rgba := convert src "RGBA" in
  let '(src_w, src_h) := im_size src_rgba in
  if (src_w =? 0) || (src_h =? 0)
  then Raise (Exn ValueError "Invalid source dimensions")
  else
    let? scale := contain_scale side src_w src_h in
    let? out_w := scaled_dim src_w scale in
    let? out_h := scaled_dim src_h scale in
    let? resized := resize src_rgba (out_w, out_h) in
    let? canvas := Image_new "RGBA" (side, side) transparent in
    let offset_x := paste_offset side out_w in
    let offset_y := paste_offset side out_h in
    let? canvas := paste canvas resized (offset_x, offset_y) in
    Ok canvas.

(** [main], from the parsed arguments on. *)
Definition main (env : Env) (args : Args) : py Z :=
  let input_path := abspath (cwd env) (input args) in
  let out_dir := abspath (cwd env) (out_dir args) in
  let! _ := makedirs out_dir in
  let! im := Image_open input_path in
  let! (mime, original_w, original_h) := lift (validate im) in
  let max_side_src := Z.max original_w original_h in
  let mint_side := Z.min (mint_max_side args) max_side_src in
  let thumb_side := Z.min (thumb_max_side args) max_side_src in
  let! mint_img := lift (render_square_contain im mint_side) in
  let! thumb_img := lift (render_square_contain im thumb_side) in
  let mint_path := path_join out_dir "mint.webp" in
  let thumb_path := path_join out_dir "thumb.webp" in
  let! _ := save mint_img mint_path (quality args) in
  let! _ := save thumb_img thumb_path (quality args) in
  let! original_bytes := read_bytes input_path in
  let! mint_bytes := read_bytes mint_path in
  let! thumb_bytes := read_bytes thumb_path in
  let meta :=
    build_meta env input_path mime original_bytes mint_bytes thumb_bytes
      original_w original_h mint_side thumb_side in
  let meta := with_title input_path meta in
  let result := build_result out_dir input_path mint_path thumb_path meta in
  let! _ := print_out (Dumps result) in
  ret 0.

(** The module from its first line to its last: the import guard, then
    the [__main__] block.  The result is the exit status. *)
Definition script (env : Env) (flags : Flags) (w : World) : Z * World :=
  match import_PIL env with
  | Raise exc =>
      (2, put_stderr (Text ("Failed to import Pillow (PIL): " ++ exn_str exc)%string) w)
  | Ok _ =>
      match main env (parse_args flags) w with
      | (Ok status, w') => (status, w')
      | (Raise exc, w') =>
          (1, put_stderr (Traceback exc) (put_stderr (Text (exn_str exc)) w'))
      end
  end.

End Script.

(** ** Names for the locals of [main] *)

Definition input_path (env : Env) (args : Args) : string :=
  abspath (cwd env) (input args).
Definition out_dir_path (env : Env) (args : Args) : string :=
  abspath (cwd env) (out_dir args).
Definition mint_path (env : Env) (args : Args) : string :=
  path_join (out_dir_path env args) "mint.webp".
Definition thumb_path (env : Env) (args : Args) : string :=
  path_join (out_dir_path env args) "thumb.webp".

(** [min(max_side, max(original_w, original_h))] *)
Definition capped_side (max_side original_w original_h : Z) : Z :=
  Z.min max_side (Z.max original_w original_h).

(** The dictionary printed by a run that read [original_bytes],
    [mint_bytes] and [thumb_bytes] back from the three files. *)
Definition manifest (env : Env) (args : Args) (mime : string)
    (original_w original_h : Z)
    (original_bytes mint_bytes thumb_bytes : list byte) : json :=
  build_result (out_dir_path env args) (input_path env args)
    (mint_path env args) (thumb_path env args)
    (with_title (input_path env args)
       (build_meta env (input_path env args) mime original_bytes mint_bytes
          thumb_bytes original_w original_h
          (capped_side (mint_max_side args) original_w original_h)
          (capped_side (thumb_max_side args) original_w original_h))).

(** A computation that writes to neither output stream. *)
Definition quiet {A} (c : py A) : Prop :=
  forall w r w', c w = (r, w') -> stdout w' = stdout w /\ stderr w' = stderr w.

(** A computation whose only output is one JSON line on standard output,
    printed when it returns. *)
Definition prints_last {A} (c : py A) : Prop :=
  forall w r w',
    c w = (r, w') ->
    stderr w' = stderr w
    /\ match r with
       | Ok _ => exists j, stdout w' = (stdout w ++ [Dumps j])%list
       | Raise _ => stdout w' = stdout w
       end.

Fixpoint string_forall (f : ascii -> bool) (s : string) : bool :=
  match s with
  | EmptyString => true
  | String c r => f c && string_forall f r
  end.

(** A digit of lowercase hexadecimal. *)
Definition is_lower_hex (c : ascii) : bool :=
  ((48 <=? code c) && (code c <=? 57)) || ((97 <=? code c) && (code c <=? 102)).

(** ** A small codec, to run the script on concrete files

    An image file is a format code, the width and the height on two bytes
    each, and one byte of grey level; a file with a side of 0 is not an
    image.  The resampler has the buffer guard of one with a support of
    three pixels, an image of more than [2^31] bytes cannot be
    allocated, and the encoder writes the size, the quality and the
    top-left pixel, refusing sides above 16383 as the WebP format
    does. *)

Module Toy.

Definition byte_val := SHA256.byte_val.
Definition byte_of := SHA256.byte_of.

Definition format_of (b : byte) : option string :=
  nth_error ["JPEG"; "PNG"; "WEBP"; "GIF"; "BMP"] (Z.to_nat (byte_val b)).

Definition toy_identify (filename : string) (data : list byte) : result Image :=
  let unidentified :=
    Exn UnidentifiedImageError
      ("cannot identify image file '" ++ filename ++ "'")%string in
  match data with
  | f :: w1 :: w0 :: h1 :: h0 :: rest =>
      let width := 256 * byte_val w1 + byte_val w0 in
      let height := 256 * byte_val h1 + byte_val h0 in
      if (width <? 1) || (height <? 1) then Raise unidentified
      else
        Ok (mkImage (format_of f) "L" (width, height)
              match rest with
              | g :: _ => Ok (fun _ _ => (byte_val g, 0, 0, 0))
              | [] => Raise (Exn OSError "image file is truncated")
              end)
  | _ => Raise unidentified
  end.

(** The coefficients of one pass, [8] bytes each, must fit in an
    [int]: a row of [2 * ceil(3 * max(1, from / to)) + 1] of them for
    each of the [to] pixels. *)
Definition coefficients_fit (from to : Z) : bool :=
  let support := if to <? from then (3 * from + to - 1) / to else 3 in
  to <=? INT_MAX / (8 * (2 * support + 1)).

Definition toy_resize_raises (from to : Z * Z) : option exn :=
  if coefficients_fit (fst from) (fst to) && coefficients_fit (snd from) (snd to)
  then None
  else Some (Exn MemoryError EmptyString).

Definition toy_new_raises (size : Z * Z) : option exn :=
  if 2 ^ 31 <? 4 * fst size * snd size
  then Some (Exn MemoryError EmptyString)
  else None.

Definition toy_convert (from to : string) (p : pixel) : pixel :=
  if String.eqb from "L" && String.eqb to "RGBA"
  then let '(g, _, _, _) := p in (g, g, g, 255)
  else p.

Definition toy_resample (from : Z * Z) (px : Z -> Z -> pixel) (to : Z * Z)
    (x y : Z) : pixel :=
  px (x * fst from / fst to) (y * snd from / snd to).

Definition toy_composite (dst src : pixel) : pixel :=
  let '(_, _, _, a) := src in if a =? 0 then dst else src.

Definition toy_encode (size : Z * Z) (px : Z -> Z -> pixel) (quality : Z) :
    result (list byte) :=
  if (16383 <? fst size) || (16383 <? snd size)
  then Raise (Exn OSError "cannot write file as WebP (encoder returned None)")
  else
    let '(r, g, b, a) := px 0 0 in
    Ok (map byte_of
          [fst size / 256; fst size; snd size / 256; snd size; quality; r; g; b; a]).

(** The law of the class: [toy_identify] gives no side below 1. *)
Definition toy_identify_sides (filename : string) (data : list byte)
    (im : Image) :
  toy_identify filename data = Ok im ->
  1 <= fst (im_size im) /\ 1 <= snd (im_size im).
Proof.
  unfold toy_identify. cbv zeta.
  destruct data as [| f [| w1 [| w0 [| h1 [| h0 rest]]]]]; try discriminate.
  destruct (Z.ltb_spec (256 * byte_val w1 + byte_val w0) 1); [ discriminate | ].
  destruct (Z.ltb_spec (256 * byte_val h1 + byte_val h0) 1); [ discriminate | ].
  cbn [orb]. intros [= <-]. cbn [im_size fst snd]. lia.
Qed.

Definition pillow : Pillow :=
  {| identify := toy_identify;
     identify_sides := toy_identify_sides;
     convert_pixel := toy_convert;
     lanczos := toy_resample;
     resize_raises := toy_resize_raises;
     new_raises := toy_new_raises;
     composite := toy_composite;
     webp_encode := toy_encode |}.

Definition file (format width height grey : Z) : list byte :=
  map byte_of [format; width / 256; width; height / 256; height; grey].

Definition env : Env :=
  mkEnv "/home/art" "2026-01-01T12:00:00.250000+00:00" (Ok tt).

Definition world (name : string) (data : list byte) : World :=
  mkWorld {[ ("/home/art/in/" ++ name)%string := data ]}
          {[ "/"; "/home"; "/home/art"; "/home/art/in" ]} [] [].

Definition flags (name : string) : Flags :=
  mkFlags ("in/" ++ name)%string "out" None None None.

Definition run (name : string) (data : list byte) : Z * World :=
  @script pillow env (flags name) (world name data).

(** The image [toy_identify] makes of [file format width height grey]. *)
Definition image (format : string) (width height grey : Z) : Image :=
  mkImage (Some format) "L" (width, height) (Ok (fun _ _ => (grey, 0, 0, 0))).

(** A 4000 by 2000 JPEG, a 30 by 5 BMP and a 100 by 100 PNG. *)
Definition cat : Image := image "JPEG" 4000 2000 128.
Definition cat_file : list byte := file 0 4000 2000 128.
Definition bird : Image := image "BMP" 30 5 128.
Definition bird_file : list byte := file 4 30 5 128.
Definition blank_file : list byte := file 1 100 100 7.

(** An image object of width 0, which no file gives: [Image.new] and
    [crop] can make one. *)
Definition dog : Image :=
  mkImage None "L" (0, 5) (Ok (fun _ _ => (128, 0, 0, 0))).

Definition run_main (name : string) (data : list byte) : result Z * World :=
  @main pillow env (parse_args (flags name)) (world name data).

End Toy.

(** ** Where a computation may write *)

(** The directories [os.makedirs(path)] can make: [path] and the chain
    of its parents. *)
Definition chain (path : string) : gset string :=
  {[ path ]} ∪ list_to_set (ancestors (String.length path) path).

(** A computation that changes no file outside [paths], removes no
    directory and makes none outside [made]. *)
Definition confined {A} (paths made : gset string) (c : py A) : Prop :=
  forall w r w',
    c w = (r, w') ->
    (forall p, p ∉ paths -> files w' !! p = files w !! p)
    /\ dirs w ⊆ dirs w'
    /\ dirs w' ⊆ dirs w ∪ made.

(** The files once both renditions are written. *)
Definition written (env : Env) (args : Args) (md td : list byte)
    (f : gmap string (list byte)) : gmap string (list byte) :=
  <[thumb_path env args := td]> (<[mint_path env args := md]> f).

(** ** The two halves of [main] *)

Section Steps.
Context `{Pillow}.

(** The steps of [main] up to the two renditions. *)
Definition rendered (env : Env) (args : Args) (w w1 : World)
    (data : list byte) (im : Image) (mime : string) (ow oh : Z)
    (mint_img thumb_img : Image) : Prop :=
  makedirs (out_dir_path env args) w = (Ok tt, w1)
  /\ files w !! input_path env args = Some data
  /\ identify (input_path env args) data = Ok im
  /\ validate im = Ok (mime, ow, oh)
  /\ render_square_contain im (capped_side (mint_max_side args) ow oh)
     = Ok mint_img
  /\ render_square_contain im (capped_side (thumb_max_side args) ow oh)
     = Ok thumb_img.

(** [main] from the first [save] on. *)
Definition write_out (env : Env) (args : Args) (mime : string) (ow oh : Z)
    (mint_img thumb_img : Image) : py Z :=
  let! _ := save mint_img (mint_path env args) (quality args) in
  let! _ := save thumb_img (thumb_path env args) (quality args) in
  let! original_bytes := read_bytes (input_path env args) in
  let! mint_bytes := read_bytes (mint_path env args) in
  let! thumb_bytes := read_bytes (thumb_path env args) in
  let! _ :=
    print_out
      (Dumps (manifest env args mime ow oh original_bytes mint_bytes
                thumb_bytes)) in
  ret 0.

End Steps.

(** ** More runs of the small codec *)

Module Cases.

(** The input is the mint rendition of an earlier run. *)
Definition overwriting_flags : Flags :=
  mkFlags "out/mint.webp" "out" None None None.
Definition overwriting_world : World :=
  mkWorld {[ "/home/art/out/mint.webp" := Toy.cat_file ]}
          {[ "/"; "/home"; "/home/art"; "/home/art/out" ]} [] [].


(** The same process environment a day later. *)
Definition later : Env :=
  mkEnv "/home/art" "2026-01-02T08:30:00+00:00" (Ok tt).

Definition cat_args : Args := parse_args (Toy.flags "cat.jpg").
Definition cat_world : World := Toy.world "cat.jpg" Toy.cat_file.


End Cases.

(** ** Shapes of paths *)

(** No [/] in [s]. *)
Definition no_slash (s : string) : bool :=
  string_forall (fun c => negb (Ascii.eqb c "/")) s.

(** Only [/] in [s]. *)
Definition all_slashes (s : string) : bool :=
  string_forall (fun c => Ascii.eqb c "/") s.

(** A path as [normpath] leaves it: not empty, and without a trailing
    [/] unless it is made of [/] only. *)
Definition tidy (p : string) : Prop :=
  is_empty p = false /\ (endswith "/" p = false \/ all_slashes p = true).

(** The one spelling of a path under which the file map holds a file:
    absolute, with a single leading [/], and as [normpath] leaves it. *)
Definition canonical (p : string) : Prop :=
  startswith "/" p = true /\ startswith "//" p = false /\ normpath p = p.

(** A component [normpath] keeps. *)
Definition component (c : string) : Prop :=
  is_empty c = false /\ no_slash c = true.

(** * The definitions on examples *)

Definition ascii_bytes (s : string) : list byte :=
  map byte_of_ascii (list_ascii_of_string s).

Example sha256_of_nothing :
  hexdigest sha256_new
  = "e3b0c44298fc1c149afbf4c8996fb92427ae41e4649b934ca495991b7852b855".
Proof. vm_compute. reflexivity. Qed.

Example sha256_of_abc :
  hexdigest (sha256_of (ascii_bytes "abc"))
  = "ba7816bf8f01cfea414140de5dae2223b00361a396177a9cb410ff61f20015ad".
Proof. vm_compute. reflexivity. Qed.

Example sha256_of_two_blocks :
  hexdigest (update (sha256_of (ascii_bytes "abcdbcdecdefdefgefghfghighij"))
               (ascii_bytes "hijkijkljklmklmnlmnomnopnopq"))
  = "248d6a61d20638b8e5c026930c3e6039a33ce45964ff2167f6ecedd419db06c1".
Proof. vm_compute. reflexivity. Qed.

Example sha256_constants :
  SHA256.sa SHA256.H0 = 0x6a09e667 /\ SHA256.sh SHA256.H0 = 0x5be0cd19
  /\ nth_error SHA256.K 0 = Some 0x428a2f98
  /\ nth_error SHA256.K 63 = Some 0xc67178f2
  /\ length SHA256.K = 64%nat.
Proof. vm_compute. repeat split. Qed.

(** [1 / 3] is [0x1.5555555555555p-2], and [49 * (1 / 49)] is not 1. *)
Example third_in_binary64 :
  int_truediv 1 3 = Ok (6004799503160661 # 18014398509481984).
Proof. vm_compute. reflexivity. Qed.

Example forty_nine_times_its_inverse :
  (let? x := int_truediv 1 49 in int_mul_float 49 x)
  = Ok (Finite (9007199254740991 # 9007199254740992)).
Proof. vm_compute. reflexivity. Qed.

Example round_ties_to_even :
  map round_half_even [1 # 2; 3 # 2; 5 # 2; -1 # 2; -3 # 2; 7 # 4]
  = [0; 2; 2; 0; -2; 2].
Proof. vm_compute. reflexivity. Qed.

Example huge_quotient_overflows :
  int_truediv (- 10 ^ 400) 3
  = Raise (Exn OverflowError "integer division result too large for a float").
Proof. vm_compute. reflexivity. Qed.

Example abspath_examples :
  map (abspath "/home/art") ["in/cat.jpg"; "/tmp//x/../y.png"; "out/"; "pic.png/."]
  = ["/home/art/in/cat.jpg"; "/tmp/y.png"; "/home/art/out"; "/home/art/pic.png"].
Proof. vm_compute. reflexivity. Qed.

Example splitext_examples :
  map splitext ["cat.jpg"; "a.tar.gz"; ".bashrc"; " .png"; "noext"]
  = [("cat", ".jpg"); ("a.tar", ".gz"); (".bashrc", EmptyString);
     (" ", ".png"); ("noext", EmptyString)].
Proof. vm_compute. reflexivity. Qed.

Example strip_example : strip "  my cat	 " = "my cat".
Proof. vm_compute. reflexivity. Qed.

(** The two inputs of the specification: 4000 by 2000 with the default
    maxima gives sides 4000 and 512, 100 by 100 gives 100 and 100. *)
Example sides_of_4000x2000 :
  capped_side MAX_MINT_DIM 4000 2000 = 4000
  /\ capped_side MAX_THUMB_DIM 4000 2000 = 512
  /\ contain_layout 4000 4000 2000 = Ok (mkLayout 4000 2000 0 1000)
  /\ contain_layout 512 4000 2000 = Ok (mkLayout 512 256 0 128).
Proof. vm_compute. repeat split. Qed.

Example sides_of_100x100 :
  capped_side MAX_MINT_DIM 100 100 = 100
  /\ capped_side MAX_THUMB_DIM 100 100 = 100
  /\ contain_layout 100 100 100 = Ok (mkLayout 100 100 0 0).
Proof. vm_compute. repeat split. Qed.

(** A side of zero or less, which [--mint-max-side] can ask for. *)
Example layout_for_side_zero :
  contain_layout 0 3 2 = Ok (mkLayout 1 1 (-1) (-1)).
Proof. vm_compute. reflexivity. Qed.

Example run_without_pillow :
  @script Toy.pillow
    (mkEnv "/home/art" "2026-01-01T12:00:00+00:00"
       (Raise (Exn ImportError "No module named 'PIL'")))
    (Toy.flags "cat.jpg") (Toy.world "cat.jpg" Toy.cat_file)
  = (2, put_stderr (Text "Failed to import Pillow (PIL): No module named 'PIL'")
          (Toy.world "cat.jpg" Toy.cat_file)).
Proof. reflexivity. Qed.

Example run_on_a_missing_file :
  fst (@script Toy.pillow Toy.env (Toy.flags "none.png")
         (Toy.world "cat.jpg" Toy.cat_file)) = 1
  /\ stdout (snd (@script Toy.pillow Toy.env (Toy.flags "none.png")
                    (Toy.world "cat.jpg" Toy.cat_file))) = [].
Proof. vm_compute. split; reflexivity. Qed.

(** An input that is the mint rendition of an earlier run is overwritten
    before it is read back for the manifest. *)
Example input_overwritten_by_its_rendition :
  let w := mkWorld {[ "/home/art/out/mint.webp" := Toy.cat_file ]}
                   {[ "/"; "/home"; "/home/art"; "/home/art/out" ]} [] [] in
  let r := @script Toy.pillow Toy.env
             (mkFlags "out/mint.webp" "out" None None None) w in
  fst r = 0
  /\ files (snd r) !! "/home/art/out/mint.webp"
     = Some (map Toy.byte_of [15; 160; 15; 160; 85; 0; 0; 0; 0])
  /\ (exists j, stdout (snd r) = [Dumps j]
        /\ json_path ["meta"; "original"; "bytes"] j = Some (JInt 9)).
Proof.
  cbn zeta. split; [ vm_compute; reflexivity | ].
  split; [ vm_compute; reflexivity | ].
  eexists. split; vm_compute; reflexivity.
Qed.

(** * Rounding *)

Lemma round_half_even_err (x : Q) :
  (x - (1 # 2) <= inject_Z (round_half_even x) <= x + (1 # 2))%Q.
Proof.
  unfold round_half_even.
  pose proof (Qfloor_le x) as Hlo.
  pose proof (Qlt_floor x) as Hhi.
  rewrite inject_Z_plus in Hhi. change (inject_Z 1) with 1%Q in Hhi.
  destruct (Qcompare_spec (x - inject_Z (Qfloor x)) (1 # 2)) as [He | Hl | Hg].
  - destruct (Z.even (Qfloor x)); rewrite ?inject_Z_plus;
      change (inject_Z 1) with 1%Q; lra.
  - lra.
  - rewrite inject_Z_plus. change (inject_Z 1) with 1%Q. lra.
Qed.

(** A float within half a unit of an integer rounds to it. *)
Lemma round_half_even_near (x : Q) (n : Z) :
  (inject_Z n - (1 # 2) < x)%Q -> (x < inject_Z n + (1 # 2))%Q ->
  round_half_even x = n.
Proof.
  intros Hlo Hhi. destruct (round_half_even_err x) as [E1 E2].
  assert (H1 : (inject_Z (round_half_even x) < inject_Z (n + 1))%Q).
  { rewrite inject_Z_plus. change (inject_Z 1) with 1%Q. lra. }
  assert (H2 : (inject_Z (n - 1) < inject_Z (round_half_even x))%Q).
  { unfold Z.sub. rewrite inject_Z_plus, inject_Z_opp.
    change (inject_Z 1) with 1%Q. lra. }
  rewrite <- Zlt_Qlt in H1, H2. lia.
Qed.

Lemma round_half_even_below (x : Q) (n : Z) :
  (x < inject_Z n + (1 # 2))%Q -> round_half_even x <= n.
Proof.
  intros Hhi. destruct (round_half_even_err x) as [E1 E2].
  assert (H1 : (inject_Z (round_half_even x) < inject_Z (n + 1))%Q).
  { rewrite inject_Z_plus. change (inject_Z 1) with 1%Q. lra. }
  rewrite <- Zlt_Qlt in H1. lia.
Qed.

Lemma pow2_pos (e : Z) : (0 < 2 ^ e)%Q.
Proof. apply Qpower_0_lt. reflexivity. Qed.

Lemma pow2_add (a b : Z) : (2 ^ (a + b) == 2 ^ a * 2 ^ b)%Q.
Proof. apply Qpower_plus. discriminate. Qed.

Lemma pow2_succ (a : Z) : (2 ^ (a + 1) == 2 * 2 ^ a)%Q.
Proof. rewrite pow2_add. change (2 ^ 1)%Q with 2%Q. ring. Qed.

Lemma pow2_inject (n : Z) : 0 <= n -> (inject_Z (2 ^ n) == 2 ^ n)%Q.
Proof. intros Hn. apply (Zpower_Qpower 2 n Hn). Qed.

Lemma pow2_le (a b : Z) : a <= b -> (2 ^ a <= 2 ^ b)%Q.
Proof. intros Hab. apply Qpower_le_compat_l; [ exact Hab | discriminate ]. Qed.

Lemma Qmag_spec (x : Q) :
  (0 < x)%Q -> (2 ^ (Qmag x - 1) <= x < 2 ^ Qmag x)%Q.
Proof.
  intros Hx. unfold Qmag.
  destruct x as [n d]. cbn [Qnum Qden].
  assert (Hn : 0 < n) by (unfold Qlt in Hx; cbn in Hx; lia).
  rewrite (Z.abs_eq n) by lia.
  assert (Habs : (Qabs (n # d) == n # d)%Q) by (apply Qabs_pos; lra).
  set (ln := Z.log2 n). set (ld := Z.log2 (Z.pos d)).
  pose proof (Z.log2_spec n Hn) as [Hn1 Hn2]. fold ln in Hn1, Hn2.
  pose proof (Z.log2_spec (Z.pos d) (Pos2Z.is_pos d)) as [Hd1 Hd2].
  fold ld in Hd1, Hd2.
  pose proof (Z.log2_nonneg n) as Hln. fold ln in Hln.
  pose proof (Z.log2_nonneg (Z.pos d)) as Hld. fold ld in Hld.
  assert (Hx' : ((n # d) * inject_Z (Z.pos d) == inject_Z n)%Q).
  { rewrite (Qmake_Qdiv n d). field. discriminate. }
  assert (Qn1 : (2 ^ ln <= inject_Z n)%Q).
  { rewrite <- pow2_inject by lia. rewrite <- Zle_Qle. exact Hn1. }
  assert (Qn2 : (inject_Z n < 2 * 2 ^ ln)%Q).
  { rewrite <- pow2_succ, <- pow2_inject by lia. rewrite <- Zlt_Qlt. exact Hn2. }
  assert (Qd1 : (2 ^ ld <= inject_Z (Z.pos d))%Q).
  { rewrite <- pow2_inject by lia. rewrite <- Zle_Qle. exact Hd1. }
  assert (Qd2 : (inject_Z (Z.pos d) < 2 * 2 ^ ld)%Q).
  { rewrite <- pow2_succ, <- pow2_inject by lia. rewrite <- Zlt_Qlt. exact Hd2. }
  assert (Hk : (2 ^ ln == 2 ^ (ln - ld) * 2 ^ ld)%Q).
  { rewrite <- pow2_add. replace (ln - ld + ld) with ln by lia. reflexivity. }
  pose proof (pow2_pos ld) as Pld. pose proof (pow2_pos (ln - ld)) as Pk.
  set (X := (n # d)%Q) in *. set (D := inject_Z (Z.pos d)) in *.
  set (N := inject_Z n) in *.
  assert (Hup : (X < 2 * 2 ^ (ln - ld))%Q).
  { apply Qnot_le_lt. intros Hc.
    assert ((2 * 2 ^ (ln - ld)) * 2 ^ ld <= X * D)%Q.
    { apply Qle_trans with (X * 2 ^ ld)%Q.
      - apply Qmult_le_compat_r; lra.
      - rewrite !(Qmult_comm X). apply Qmult_le_compat_r; lra. }
    lra. }
  assert (Hlow : (2 ^ (ln - ld) < 2 * X)%Q).
  { apply Qnot_le_lt. intros Hc.
    assert ((2 * X) * D < 2 ^ (ln - ld) * (2 * 2 ^ ld))%Q.
    { apply Qle_lt_trans with (2 ^ (ln - ld) * D)%Q.
      - apply Qmult_le_compat_r; lra.
      - apply Qmult_lt_l; assumption. }
    assert (2 * X * D == 2 * N)%Q by (rewrite <- Hx'; ring).
    lra. }
  destruct (Qle_bool (2 ^ (ln - ld)) (Qabs X)) eqn:E.
  - apply Qle_bool_iff in E. rewrite Habs in E.
    replace (ln - ld + 1 - 1) with (ln - ld) by lia.
    rewrite pow2_succ. split; lra.
  - assert (Hlt : ~ (2 ^ (ln - ld) <= X)%Q).
    { intros Hc. rewrite <- Habs in Hc. apply Qle_bool_iff in Hc. congruence. }
    assert (H2 : (2 ^ (ln - ld) == 2 * 2 ^ (ln - ld - 1))%Q).
    { rewrite <- pow2_succ. replace (ln - ld - 1 + 1) with (ln - ld) by lia.
      reflexivity. }
    split; lra.
Qed.

(** In the normal range rounding has relative error at most [2^-53]. *)
Lemma round_b64_rel (x : Q) :
  (2 ^ (-1022) <= x)%Q ->
  (x * (1 - ulp_half) <= round_b64 x <= x * (1 + ulp_half))%Q.
Proof.
  intros Hx.
  assert (Hpos : (0 < x)%Q) by (pose proof (pow2_pos (-1022)); lra).
  destruct (Qmag_spec x Hpos) as [Hlo Hhi].
  assert (Hm : -1022 < Qmag x).
  { destruct (Z_lt_le_dec (-1022) (Qmag x)) as [Hlt | Hge]; [ exact Hlt | ].
    pose proof (pow2_le _ _ Hge). lra. }
  unfold round_b64. rewrite Z.max_l by lia. rewrite Qred_correct.
  set (e := Qmag x - 53).
  destruct (round_half_even_err (x * 2 ^ (- e))) as [R1 R2].
  set (r := inject_Z (round_half_even (x * 2 ^ (- e)))) in *.
  pose proof (pow2_pos e) as Pe.
  assert (Hinv : (2 ^ (- e) * 2 ^ e == 1)%Q).
  { rewrite <- pow2_add. replace (- e + e) with 0 by lia. reflexivity. }
  assert (He : (2 ^ e == 2 ^ (Qmag x - 1) * (1 # 4503599627370496))%Q).
  { replace e with ((Qmag x - 1) + (-52)) by (unfold e; lia).
    rewrite pow2_add. reflexivity. }
  set (P := (2 ^ e)%Q) in *. set (I := (2 ^ (- e))%Q) in *.
  set (A := (2 ^ (Qmag x - 1))%Q) in *.
  assert (U1 : (r * P <= (x * I + (1 # 2)) * P)%Q)
    by (apply Qmult_le_compat_r; lra).
  assert (U2 : ((x * I - (1 # 2)) * P <= r * P)%Q)
    by (apply Qmult_le_compat_r; lra).
  assert (E1 : ((x * I + (1 # 2)) * P == x + (1 # 2) * P)%Q).
  { transitivity (x * (I * P) + (1 # 2) * P)%Q; [ ring | rewrite Hinv; ring ]. }
  assert (E2 : ((x * I - (1 # 2)) * P == x - (1 # 2) * P)%Q).
  { transitivity (x * (I * P) - (1 # 2) * P)%Q; [ ring | rewrite Hinv; ring ]. }
  unfold ulp_half. split; lra.
Qed.

Lemma round_b64_nonneg (x : Q) : (0 <= x)%Q -> (0 <= round_b64 x)%Q.
Proof.
  intros Hx. unfold round_b64. rewrite Qred_correct.
  set (e := Z.max _ _).
  pose proof (pow2_pos e) as Pe. pose proof (pow2_pos (- e)) as Pi.
  destruct (round_half_even_err (x * 2 ^ (- e))) as [R1 _].
  assert (0 <= x * 2 ^ (- e))%Q by (apply Qmult_le_0_compat; lra).
  assert (H1 : (inject_Z (-1) < inject_Z (round_half_even (x * 2 ^ (- e))))%Q).
  { change (inject_Z (-1)) with (-1)%Q. lra. }
  rewrite <- Zlt_Qlt in H1.
  apply Qmult_le_0_compat; [ | lra ].
  change 0%Q with (inject_Z 0). rewrite <- Zle_Qle. lia.
Qed.

Lemma eta_pos : (0 < eta)%Q.
Proof. apply pow2_pos. Qed.

Lemma eta_le : (eta <= 1 # 18446744073709551616)%Q.
Proof.
  assert (E : (2 ^ (-64) == 1 # 18446744073709551616)%Q) by reflexivity.
  rewrite <- E. apply pow2_le. lia.
Qed.

Lemma round_b64_zero (x : Q) : (x == 0)%Q -> (round_b64 x == 0)%Q.
Proof.
  intros Hx. unfold round_b64. rewrite Qred_correct.
  set (e := Z.max _ _).
  assert (Ht : (x * 2 ^ (- e) == 0)%Q) by (rewrite Hx; ring).
  rewrite (round_half_even_near (x * 2 ^ (- e)) 0).
  - ring.
  - change (inject_Z 0) with 0%Q. lra.
  - change (inject_Z 0) with 0%Q. lra.
Qed.

(** Rounding a non-negative number: a relative error of at most [2^-53]
    or, below the normal range, an absolute error of at most [eta]. *)
Lemma round_b64_abs (x : Q) :
  (0 <= x)%Q ->
  (x * (1 - ulp_half) - eta <= round_b64 x <= x * (1 + ulp_half) + eta)%Q.
Proof.
  intros Hx. pose proof eta_pos as He. unfold ulp_half.
  destruct (Qlt_le_dec 0 x) as [Hpos | Hz].
  2:{ assert (E0 : (x == 0)%Q) by lra.
      rewrite (round_b64_zero x E0), E0. split; lra. }
  destruct (Z_lt_le_dec (-1022) (Qmag x)) as [Hn | Hs].
  - destruct (Qmag_spec x Hpos) as [Hlo _].
    assert (Hx' : (2 ^ (-1022) <= x)%Q).
    { apply Qle_trans with (2 ^ (Qmag x - 1))%Q; [ apply pow2_le; lia | exact Hlo ]. }
    pose proof (round_b64_rel x Hx') as [R1 R2]. unfold ulp_half in R1, R2.
    split; lra.
  - unfold round_b64. rewrite Z.max_r by lia. rewrite Qred_correct.
    destruct (round_half_even_err (x * 2 ^ (- (-1074)))) as [R1 R2].
    set (r := inject_Z (round_half_even (x * 2 ^ (- (-1074))))) in *.
    assert (Hinv : (2 ^ (- (-1074)) * 2 ^ (-1074) == 1)%Q).
    { rewrite <- pow2_add. reflexivity. }
    assert (Hhalf : ((1 # 2) * 2 ^ (-1074) == eta)%Q).
    { unfold eta. replace (-1074) with (-1075 + 1) by lia.
      rewrite pow2_succ. field. }
    pose proof (pow2_pos (-1074)) as Pe.
    set (P := (2 ^ (-1074))%Q) in *. set (I := (2 ^ (- (-1074)))%Q) in *.
    assert (U1 : (r * P <= (x * I + (1 # 2)) * P)%Q)
      by (apply Qmult_le_compat_r; lra).
    assert (U2 : ((x * I - (1 # 2)) * P <= r * P)%Q)
      by (apply Qmult_le_compat_r; lra).
    assert (E1 : ((x * I + (1 # 2)) * P == x + (1 # 2) * P)%Q).
    { transitivity (x * (I * P) + (1 # 2) * P)%Q; [ ring | rewrite Hinv; ring ]. }
    assert (E2 : ((x * I - (1 # 2)) * P == x - (1 # 2) * P)%Q).
    { transitivity (x * (I * P) - (1 # 2) * P)%Q; [ ring | rewrite Hinv; ring ]. }
    clearbody r P I. split; nra.
Qed.

(** * The arithmetic of [render_square_contain] *)

Lemma dimension_Q (n : Z) :
  dimension n -> (1 <= inject_Z n <= 2147483647)%Q.
Proof.
  intros [H1 H2]. unfold INT_MAX in H2. split.
  - change 1%Q with (inject_Z 1). rewrite <- Zle_Qle. exact H1.
  - change 2147483647%Q with (inject_Z 2147483647). rewrite <- Zle_Qle. exact H2.
Qed.

Lemma positive_Q (n : Z) : 1 <= n -> (1 <= inject_Z n)%Q.
Proof. intros Hn. change 1%Q with (inject_Z 1). rewrite <- Zle_Qle. exact Hn. Qed.

Lemma tiny_le : (2 ^ (-1022) <= 1 # 18446744073709551616)%Q.
Proof.
  assert (E : (2 ^ (-64) == 1 # 18446744073709551616)%Q) by reflexivity.
  rewrite <- E. apply pow2_le. lia.
Qed.

Lemma huge_ge : (18446744073709551616 <= 2 ^ 1024)%Q.
Proof.
  assert (E : (2 ^ 64 == 18446744073709551616)%Q) by reflexivity.
  rewrite <- E. apply pow2_le. lia.
Qed.

Lemma overflows_false (r : Q) :
  (0 <= r)%Q -> (r < 18446744073709551616)%Q -> overflows r = false.
Proof.
  intros H0 H1. unfold overflows.
  destruct (Qle_bool (2 ^ 1024) (Qabs r)) eqn:E; [ | reflexivity ].
  apply Qle_bool_iff in E. rewrite (Qabs_pos r H0) in E.
  pose proof huge_ge. lra.
Qed.

Lemma float_min_cases (a b : Q) :
  (float_min a b = a \/ float_min a b = b)
  /\ (float_min a b <= a)%Q /\ (float_min a b <= b)%Q.
Proof.
  unfold float_min.
  destruct (Qcompare_spec b a) as [E | L | G]; repeat split; auto; lra.
Qed.

(** [side / dim] for a side in range and a positive [dim]: no exception,
    and the quotient up to rounding. *)
Lemma int_truediv_spec (side dim : Z) :
  dimension side -> 1 <= dim ->
  exists r,
    int_truediv side dim = Ok r
    /\ (0 <= r)%Q
    /\ forall q, (q * inject_Z dim == inject_Z side)%Q ->
         (q * (1 - ulp_half) - eta <= r <= q * (1 + ulp_half) + eta)%Q.
Proof.
  intros Ha Hb.
  pose proof (dimension_Q side Ha) as [A1 A2].
  pose proof (positive_Q dim Hb) as B1.
  set (q0 := (inject_Z side / inject_Z dim)%Q).
  assert (Hq0 : (q0 * inject_Z dim == inject_Z side)%Q).
  { unfold q0. field. lra. }
  assert (Q1 : (0 <= q0)%Q) by nra.
  assert (Q2 : (q0 <= 2147483647)%Q) by nra.
  pose proof (round_b64_abs q0 Q1) as [R1 R2]. unfold ulp_half in R1, R2.
  pose proof (round_b64_nonneg q0 Q1) as R0.
  pose proof eta_le as He. pose proof eta_pos as Hp.
  exists (round_b64 q0). split; [ | split ].
  - unfold int_truediv. rewrite (proj2 (Z.eqb_neq dim 0)) by lia. fold q0.
    rewrite overflows_false; [ reflexivity | exact R0 | ].
    clearbody q0. lra.
  - exact R0.
  - intros q Hq.
    assert (Eq : (q == q0)%Q).
    { apply (Qmult_inj_r q q0 (inject_Z dim)); [ lra | ].
      rewrite Hq, Hq0. reflexivity. }
    unfold ulp_half. rewrite Eq. split; lra.
Qed.

(** [float(n)] of a positive [n], when it does not overflow. *)
Lemma float_of_int_inv (n : Z) (f : Q) :
  1 <= n -> float_of_int n = Ok f ->
  (inject_Z n * (1 - ulp_half) <= f <= inject_Z n * (1 + ulp_half))%Q
  /\ (inject_Z n * eta <= 1 # 1125899906842624)%Q.
Proof.
  intros Hn Hf. pose proof (positive_Q n Hn) as N1.
  assert (Hs : (2 ^ (-1022) <= inject_Z n)%Q) by (pose proof tiny_le; lra).
  pose proof (round_b64_rel _ Hs) as [R1 R2]. unfold ulp_half in R1, R2.
  unfold float_of_int in Hf.
  destruct (overflows (round_b64 (inject_Z n))) eqn:Ho; [ discriminate | ].
  injection Hf as <-.
  split; [ unfold ulp_half; split; lra | ].
  assert (Hlt : (round_b64 (inject_Z n) < 2 ^ 1024)%Q).
  { apply Qnot_le_lt. intros Hc. unfold overflows in Ho.
    assert (Hb : Qle_bool (2 ^ 1024) (Qabs (round_b64 (inject_Z n))) = true).
    { apply Qle_bool_iff. rewrite Qabs_pos; [ exact Hc | lra ]. }
    congruence. }
  assert (E1 : (2 * 2 ^ 1024 * eta == 1 # 1125899906842624)%Q).
  { unfold eta. rewrite <- pow2_succ, <- pow2_add. reflexivity. }
  pose proof eta_pos as Hp.
  apply Qle_trans with (2 * 2 ^ 1024 * eta)%Q; [ | rewrite E1; apply Qle_refl ].
  apply Qmult_le_compat_r; [ | lra ].
  set (T := (2 ^ 1024)%Q) in *. set (f := round_b64 (inject_Z n)) in *.
  clearbody T f. lra.
Qed.

Lemma float_of_int_dimension (n : Z) :
  dimension n -> exists f, float_of_int n = Ok f.
Proof.
  intros Hn. pose proof (dimension_Q n Hn) as [N1 N2].
  assert (Hs : (2 ^ (-1022) <= inject_Z n)%Q) by (pose proof tiny_le; lra).
  pose proof (round_b64_rel _ Hs) as [R1 R2]. unfold ulp_half in R1, R2.
  exists (round_b64 (inject_Z n)).
  unfold float_of_int. rewrite overflows_false; [ reflexivity | lra | lra ].
Qed.

Lemma float_mul_finite (x y : Q) :
  (0 <= x * y)%Q -> (x * y <= 4294967296)%Q ->
  exists p,
    float_mul x y = Finite p
    /\ (x * y * (1 - ulp_half) - eta <= p <= x * y * (1 + ulp_half) + eta)%Q.
Proof.
  intros Hlo Hhi.
  pose proof (round_b64_abs _ Hlo) as [R1 R2]. unfold ulp_half in R1, R2.
  pose proof (round_b64_nonneg _ Hlo) as R0.
  pose proof eta_le as He.
  exists (round_b64 (x * y)). split.
  - unfold float_mul. rewrite overflows_false; [ reflexivity | exact R0 | ].
    set (t := (x * y)%Q) in *. clearbody t. lra.
  - unfold ulp_half. split; lra.
Qed.

(** One side of the resized image, for a scale that is [q = side / dim]
    up to rounding, or less. *)
Lemma scaled_dim_spec (dim side : Z) (scale q f : Q) :
  1 <= dim -> dimension side ->
  float_of_int dim = Ok f ->
  (q * inject_Z dim == inject_Z side)%Q ->
  (0 <= scale)%Q ->
  (scale <= q * (1 + ulp_half) + eta)%Q ->
  exists r,
    scaled_dim dim scale = Ok r
    /\ 1 <= r <= side
    /\ ((q * (1 - ulp_half) - eta <= scale)%Q -> r = side).
Proof.
  intros Hd Hs Hf Hq Hsc0 Hsc.
  pose proof (positive_Q dim Hd) as D1.
  pose proof (dimension_Q side Hs) as [S1 S2].
  destruct (float_of_int_inv dim f Hd Hf) as ([F1 F2] & Deta).
  pose proof eta_le as He. pose proof eta_pos as Hp.
  unfold ulp_half in *.
  set (D := inject_Z dim) in *. set (S := inject_Z side) in *.
  assert (Q0 : (0 <= q)%Q) by nra.
  assert (F0 : (0 <= f)%Q) by lra.
  (* the products that occur, bounded one by one *)
  assert (B1 : (f * q <= S * (1 + (1 # 9007199254740992)))%Q) by nra.
  assert (B2 : (S * (1 - (1 # 9007199254740992)) <= f * q)%Q) by nra.
  assert (B3 : (0 <= f * eta)%Q) by (apply Qmult_le_0_compat; lra).
  assert (B3' : (f * eta <= (1 + (1 # 9007199254740992)) * (D * eta))%Q) by nra.
  assert (B4 : (f * scale
                <= f * q * (1 + (1 # 9007199254740992)) + f * eta)%Q) by nra.
  assert (B0 : (0 <= f * scale)%Q) by (apply Qmult_le_0_compat; lra).
  assert (B5 : ((q * (1 - (1 # 9007199254740992)) - eta <= scale)%Q ->
                (f * q * (1 - (1 # 9007199254740992)) - f * eta <= f * scale)%Q))
    by (intros L; nra).
  set (X := (f * scale)%Q) in *. set (fq := (f * q)%Q) in *.
  set (fe := (f * eta)%Q) in *. set (de := (D * eta)%Q) in *.
  destruct (float_mul_finite f scale) as (p & Hp' & M1 & M2);
    [ exact B0 | fold X; clearbody X fq fe de; lra | ].
  fold X in M1, M2. unfold ulp_half in M1, M2.
  exists (Z.max 1 (round_half_even p)).
  assert (Hround : round_half_even p <= side).
  { apply round_half_even_below. fold S. clearbody X fq fe de. lra. }
  split; [ | split ].
  - unfold scaled_dim, int_mul_float. rewrite Hf. cbn [rbind]. rewrite Hp'.
    reflexivity.
  - destruct Hs as [Hs1 _]. lia.
  - intros Hlow. specialize (B5 Hlow).
    rewrite (round_half_even_near p side); fold S;
      [ | clearbody X fq fe de; lra | clearbody X fq fe de; lra ].
    destruct Hs as [Hs1 _]. lia.
Qed.

Lemma contain_scale_spec (side src_w src_h : Z) :
  dimension side -> 1 <= src_w -> 1 <= src_h ->
  exists scale qw qh,
    contain_scale side src_w src_h = Ok scale
    /\ (qw * inject_Z src_w == inject_Z side)%Q
    /\ (qh * inject_Z src_h == inject_Z side)%Q
    /\ (0 <= scale)%Q
    /\ (scale <= qw * (1 + ulp_half) + eta)%Q
    /\ (scale <= qh * (1 + ulp_half) + eta)%Q
    /\ (src_h <= src_w -> (qw * (1 - ulp_half) - eta <= scale)%Q)
    /\ (src_w <= src_h -> (qh * (1 - ulp_half) - eta <= scale)%Q).
Proof.
  intros Hs Hw Hh.
  pose proof (dimension_Q side Hs) as [S1 S2].
  pose proof (positive_Q src_w Hw) as W1.
  pose proof (positive_Q src_h Hh) as H1.
  destruct (int_truediv_spec side src_w Hs Hw) as (a & Ha & A0 & Ea).
  destruct (int_truediv_spec side src_h Hs Hh) as (b & Hb & B0 & Eb).
  set (S := inject_Z side) in *. set (W := inject_Z src_w) in *.
  set (H := inject_Z src_h) in *.
  assert (HqW : (S / W * W == S)%Q) by (field; lra).
  assert (HqH : (S / H * H == S)%Q) by (field; lra).
  specialize (Ea _ HqW). specialize (Eb _ HqH).
  set (qw := (S / W)%Q) in *. set (qh := (S / H)%Q) in *.
  unfold ulp_half in *.
  destruct Ea as [A1 A2]. destruct Eb as [B1 B2].
  destruct (float_min_cases a b) as (Hcase & Hle_a & Hle_b).
  set (scale := float_min a b) in *.
  assert (Qw0 : (0 <= qw)%Q) by nra.
  assert (Qh0 : (0 <= qh)%Q) by nra.
  exists scale, qw, qh.
  split; [ | split; [ | split; [ | split; [ | split; [ | split; [ | split ] ] ] ] ] ].
  - unfold contain_scale. rewrite Ha, Hb. reflexivity.
  - exact HqW.
  - exact HqH.
  - destruct Hcase as [-> | ->]; assumption.
  - lra.
  - lra.
  - intros Hhw.
    assert (HW : (H <= W)%Q) by (unfold H, W; rewrite <- Zle_Qle; exact Hhw).
    assert (Hqq : (qw <= qh)%Q) by nra.
    destruct Hcase as [-> | ->]; lra.
  - intros Hwh.
    assert (HW : (W <= H)%Q) by (unfold H, W; rewrite <- Zle_Qle; exact Hwh).
    assert (Hqq : (qh <= qw)%Q) by nra.
    destruct Hcase as [-> | ->]; lra.
Qed.

Lemma paste_offset_spec (side out : Z) :
  let left := paste_offset side out in
  let right := side - (left + out) in
  0 <= right - left <= 1.
Proof.
  unfold paste_offset. cbn zeta.
  pose proof (Z.div_mod (side - out) 2 ltac:(lia)).
  pose proof (Z.mod_pos_bound (side - out) 2 ltac:(lia)). lia.
Qed.

(** The layout, whenever the arithmetic raises nothing. *)
Lemma contain_layout_spec (side src_w src_h : Z) (l : Layout) :
  dimension side -> 1 <= src_w -> 1 <= src_h ->
  contain_layout side src_w src_h = Ok l ->
  1 <= out_w l <= side /\ 1 <= out_h l <= side
  /\ offset_x l = paste_offset side (out_w l)
  /\ offset_y l = paste_offset side (out_h l)
  /\ (src_h <= src_w -> out_w l = side)
  /\ (src_w <= src_h -> out_h l = side).
Proof.
  intros Hs Hw Hh Hl.
  destruct (contain_scale_spec side src_w src_h Hs Hw Hh)
    as (scale & qw & qh & Hscale & Hqw & Hqh & Sc0 & Wup & Hup & Wlow & Hlow).
  unfold contain_layout in Hl. rewrite Hscale in Hl. cbn [rbind] in Hl.
  destruct (scaled_dim src_w scale) as [w | e] eqn:Ew; [ | discriminate ].
  cbn [rbind] in Hl.
  destruct (scaled_dim src_h scale) as [h | e] eqn:Eh; [ | discriminate ].
  cbn [rbind] in Hl. injection Hl as <-. cbn [out_w out_h offset_x offset_y].
  assert (Fw : exists f, float_of_int src_w = Ok f).
  { unfold scaled_dim, int_mul_float in Ew.
    destruct (float_of_int src_w); [ eauto | discriminate ]. }
  assert (Fh : exists f, float_of_int src_h = Ok f).
  { unfold scaled_dim, int_mul_float in Eh.
    destruct (float_of_int src_h); [ eauto | discriminate ]. }
  destruct Fw as [fw Fw]. destruct Fh as [fh Fh].
  destruct (scaled_dim_spec src_w side scale qw fw Hw Hs Fw Hqw Sc0 Wup)
    as (w' & Ew' & Bw & Lw).
  destruct (scaled_dim_spec src_h side scale qh fh Hh Hs Fh Hqh Sc0 Hup)
    as (h' & Eh' & Bh & Lh).
  rewrite Ew in Ew'. injection Ew' as <-.
  rewrite Eh in Eh'. injection Eh' as <-.
  repeat split; auto; lia.
Qed.

(** For sides in range the arithmetic raises nothing. *)
Lemma contain_layout_defined (side src_w src_h : Z) :
  dimension side -> dimension src_w -> dimension src_h ->
  exists l, contain_layout side src_w src_h = Ok l.
Proof.
  intros Hs Hw Hh.
  destruct (contain_scale_spec side src_w src_h Hs (proj1 Hw) (proj1 Hh))
    as (scale & qw & qh & Hscale & Hqw & Hqh & Sc0 & Wup & Hup & _).
  destruct (float_of_int_dimension src_w Hw) as [fw Fw].
  destruct (float_of_int_dimension src_h Hh) as [fh Fh].
  destruct (scaled_dim_spec src_w side scale qw fw (proj1 Hw) Hs Fw Hqw Sc0 Wup)
    as (w' & Ew' & _).
  destruct (scaled_dim_spec src_h side scale qh fh (proj1 Hh) Hs Fh Hqh Sc0 Hup)
    as (h' & Eh' & _).
  unfold contain_layout. rewrite Hscale. cbn [rbind]. rewrite Ew'. cbn [rbind].
  rewrite Eh'. cbn [rbind]. eauto.
Qed.

(** * The square-contain resizer *)

Lemma c_int_inv (n m : Z) :
  c_int n = Ok m -> m = n /\ - INT_MAX - 1 <= n <= INT_MAX.
Proof.
  unfold c_int. intros Hc.
  destruct ((LONG_MAX <? n) || (n <? - LONG_MAX - 1)); [ discriminate | ].
  destruct (INT_MAX <? n) eqn:E1; [ discriminate | ].
  destruct (n <? - INT_MAX - 1) eqn:E2; [ discriminate | ].
  apply Z.ltb_ge in E1, E2. injection Hc as <-. split; [ reflexivity | lia ].
Qed.

Section Render.
Context `{Pillow}.

Lemma paste_size (canvas im out : Image) (box : Z * Z) :
  paste canvas im box = Ok out -> im_size out = im_size canvas.
Proof.
  unfold paste. intros Hp.
  destruct (im_load canvas); [ | discriminate ].
  destruct (im_load im); [ | discriminate ].
  cbn in Hp. injection Hp as <-. reflexivity.
Qed.

Lemma Image_new_size (mode : string) (size : Z * Z) (c : pixel) (im : Image) :
  Image_new mode size c = Ok im ->
  im_size im = size /\ im_load im = Ok (fun _ _ => c)
  /\ 0 <= fst size <= INT_MAX /\ 0 <= snd size <= INT_MAX.
Proof.
  unfold Image_new. intros Hn.
  destruct ((fst size <? 0) || (snd size <? 0)) eqn:E; [ discriminate | ].
  apply orb_false_elim in E as [E1 E2].
  apply Z.ltb_ge in E1, E2.
  destruct (c_int (fst size)) as [x |] eqn:Ex; [ | discriminate ].
  destruct (c_int (snd size)) as [y |] eqn:Ey; [ | discriminate ].
  apply c_int_inv in Ex as [-> Bx]. apply c_int_inv in Ey as [-> By].
  cbn [rbind] in Hn.
  destruct (LINE_MAX <? fst size); [ discriminate | ].
  destruct (new_raises (fst size, snd size)); [ discriminate | ].
  injection Hn as <-. cbn [im_size im_load].
  destruct size. cbn [fst snd] in *. repeat split; auto; lia.
Qed.

Lemma resize_size (im out : Image) (size : Z * Z) :
  resize im size = Ok out -> im_size out = size.
Proof.
  unfold resize. intros Hr.
  destruct (im_load im); [ | discriminate ]. cbn [rbind] in Hr.
  destruct (c_int (fst size)); [ | discriminate ]. cbn [rbind] in Hr.
  destruct (c_int (snd size)); [ | discriminate ]. cbn [rbind] in Hr.
  destruct ((_ <? 1) || (_ <? 1)); [ discriminate | ].
  destruct (LINE_MAX <? _); [ discriminate | ].
  destruct (resize_raises _ _); [ discriminate | ].
  injection Hr as <-. reflexivity.
Qed.

(** What a call that returns has computed. *)
Lemma render_square_contain_inv (src : Image) (side : Z) (canvas : Image) :
  render_square_contain src side = Ok canvas ->
  exists src_rgba l resized blank,
    convert src "RGBA" = Ok src_rgba
    /\ im_size src_rgba = im_size src
    /\ fst (im_size src) <> 0 /\ snd (im_size src) <> 0
    /\ contain_layout side (fst (im_size src)) (snd (im_size src)) = Ok l
    /\ resize src_rgba (out_w l, out_h l) = Ok resized
    /\ Image_new "RGBA" (side, side) transparent = Ok blank
    /\ paste blank resized (offset_x l, offset_y l) = Ok canvas.
Proof.
  unfold render_square_contain. intros Hr.
  destruct (convert src "RGBA") as [src_rgba | e] eqn:Hc; [ | discriminate ].
  cbn [rbind] in Hr.
  assert (Hsz : im_size src_rgba = im_size src).
  { unfold convert in Hc. destruct (im_load src); [ | discriminate ].
    cbn in Hc. injection Hc as <-. reflexivity. }
  rewrite Hsz in Hr. destruct (im_size src) as [src_w src_h] eqn:Hsize.
  destruct ((src_w =? 0) || (src_h =? 0)) eqn:Hz; [ discriminate | ].
  apply orb_false_elim in Hz as [Hz1 Hz2].
  apply Z.eqb_neq in Hz1, Hz2.
  destruct (contain_scale side src_w src_h) as [scale | e] eqn:Hs;
    [ | discriminate ].
  cbn [rbind] in Hr.
  destruct (scaled_dim src_w scale) as [w | e] eqn:Hw; [ | discriminate ].
  cbn [rbind] in Hr.
  destruct (scaled_dim src_h scale) as [h | e] eqn:Hh; [ | discriminate ].
  cbn [rbind] in Hr.
  destruct (resize src_rgba (w, h)) as [resized | e] eqn:Hrs; [ | discriminate ].
  cbn [rbind] in Hr.
  destruct (Image_new "RGBA" (side, side) transparent) as [blank | e] eqn:Hn;
    [ | discriminate ].
  cbn [rbind] in Hr.
  destruct (paste blank resized (paste_offset side w, paste_offset side h))
    as [out | e] eqn:Hp; [ | discriminate ].
  cbn [rbind] in Hr. injection Hr as ->.
  exists src_rgba, (mkLayout w h (paste_offset side w) (paste_offset side h)),
    resized, blank.
  cbn [out_w out_h offset_x offset_y fst snd].
  repeat split; auto.
  unfold contain_layout. rewrite Hs. cbn [rbind]. rewrite Hw. cbn [rbind].
  rewrite Hh. reflexivity.
Qed.

(** A side the canvas can be made with. *)
Lemma render_square_contain_side (src : Image) (side : Z) (canvas : Image) :
  render_square_contain src side = Ok canvas -> 0 <= side <= INT_MAX.
Proof.
  intros Hr.
  destruct (render_square_contain_inv _ _ _ Hr)
    as (rgba & l & resized & blank & _ & _ & _ & _ & _ & _ & Hnew & _).
  apply Image_new_size in Hnew as (_ & _ & Hs & _). exact Hs.
Qed.

End Render.

(** * Effects of the primitives *)

Lemma quiet_ret {A} (a : A) : quiet (ret a).
Proof. intros w r w' [= <- <-]. auto. Qed.

Lemma quiet_lift {A} (x : result A) : quiet (lift x).
Proof. intros w r w' [= <- <-]. auto. Qed.

Lemma quiet_bind {A B} (c : py A) (k : A -> py B) :
  quiet c -> (forall a, quiet (k a)) -> quiet (bind c k).
Proof.
  intros Hc Hk w r w'. unfold bind.
  destruct (c w) as [[a | e] w1] eqn:E; intros Hr.
  - destruct (Hc _ _ _ E) as [E1 E2]. destruct (Hk a _ _ _ Hr) as [E3 E4].
    split; congruence.
  - injection Hr as <- <-. exact (Hc _ _ _ E).
Qed.

Lemma read_bytes_spec (path : string) (w : World) :
  exists r, read_bytes path w = (r, w)
    /\ forall data, r = Ok data <-> files w !! path = Some data.
Proof.
  unfold read_bytes. destruct (files w !! path) as [d |] eqn:E.
  - eexists. split; [ reflexivity | ]. intros data. split; congruence.
  - destruct (existsb _ _); [ | destruct (bool_decide (path ∈ dirs w)) ];
      eexists; (split; [ reflexivity | intros data; split; discriminate ]).
Qed.

Lemma read_bytes_ok (path : string) (w : World) (data : list byte) :
  files w !! path = Some data -> read_bytes path w = (Ok data, w).
Proof. intros E. unfold read_bytes. rewrite E. reflexivity. Qed.

Lemma read_bytes_inv (path : string) (w w' : World) (r : result (list byte)) :
  read_bytes path w = (r, w') ->
  w' = w /\ forall data, r = Ok data -> files w !! path = Some data.
Proof.
  intros E. destruct (read_bytes_spec path w) as (r0 & E0 & Hr).
  rewrite E0 in E. injection E as <- <-. split; [ reflexivity | ].
  intros data. apply Hr.
Qed.

Lemma quiet_read_bytes (path : string) : quiet (read_bytes path).
Proof. intros w r w' E. apply read_bytes_inv in E as [-> _]. auto. Qed.

Lemma makedirs_inv (path : string) (w w' : World) (r : result unit) :
  makedirs path w = (r, w') ->
  files w' = files w /\ stdout w' = stdout w /\ stderr w' = stderr w
  /\ dirs w ⊆ dirs w'.
Proof.
  unfold makedirs. intros E.
  destruct (bool_decide (path ∈ dirs w)).
  { injection E as <- <-. auto. }
  destruct (is_file w path).
  { injection E as <- <-. auto. }
  destruct (missing_parents _ _ _).
  - injection E as <- <-. cbn. repeat split; auto.
    intros x Hx. apply elem_of_union_l, elem_of_union_l. exact Hx.
  - injection E as <- <-. auto.
Qed.

Lemma quiet_makedirs (path : string) : quiet (makedirs path).
Proof. intros w r w' E. apply makedirs_inv in E. tauto. Qed.

Section Effects.
Context `{Pillow}.

Lemma quiet_Image_open (path : string) : quiet (Image_open path).
Proof.
  unfold Image_open. apply quiet_bind; [ apply quiet_read_bytes | ].
  intros data. apply quiet_lift.
Qed.

Lemma save_inv (im : Image) (path : string) (q : Z) (w w' : World)
    (r : result unit) :
  save im path q w = (r, w') ->
  stdout w' = stdout w /\ stderr w' = stderr w /\ dirs w' = dirs w
  /\ (r = Ok tt ->
      exists data,
        encode im q = Ok data /\ files w' = <[path := data]> (files w)).
Proof.
  unfold save. intros E.
  destruct (bool_decide (path ∈ dirs w)).
  { injection E as <- <-. repeat split; auto. discriminate. }
  destruct (encode im q) as [data | e].
  - injection E as <- <-. cbn. repeat split; auto. intros _. eauto.
  - injection E as <- <-.
    destruct (files w !! path); cbn; repeat split; auto; discriminate.
Qed.

Lemma quiet_save (im : Image) (path : string) (q : Z) : quiet (save im path q).
Proof. intros w r w' E. apply save_inv in E. tauto. Qed.

End Effects.

(** * Strings *)

Lemma append_inj_l (p a b : string) : (p ++ a = p ++ b)%string -> a = b.
Proof.
  induction p as [| c p IH]; cbn; intros E; [ exact E | ].
  injection E as E. auto.
Qed.

Lemma path_join_rel (d a b : string) :
  startswith "/" a = false -> startswith "/" b = false ->
  path_join d a = path_join d b -> a = b.
Proof.
  unfold path_join. intros -> ->.
  destruct (is_empty d || endswith "/" d); intros E.
  - exact (append_inj_l _ _ _ E).
  - apply append_inj_l in E. exact (append_inj_l _ _ _ E).
Qed.

Lemma mint_thumb_distinct (d : string) :
  path_join d "mint.webp" <> path_join d "thumb.webp".
Proof.
  intros E. apply path_join_rel in E; [ discriminate | reflexivity | reflexivity ].
Qed.

(** * [main] *)

Lemma validate_ok_inv (im : Image) (mime : string) (w h : Z) :
  validate im = Ok (mime, w, h) ->
  im_size im = (w, h) /\ 1 <= w /\ 1 <= h
  /\ dict_get (format_tag im) ALLOWED_MIME = Some mime.
Proof.
  unfold validate. intros Hv.
  destruct (dict_get _ ALLOWED_MIME) as [m |]; [ | discriminate ].
  destruct (im_size im) as [ow oh].
  destruct ((ow <? 1) || (oh <? 1)) eqn:E; [ discriminate | ].
  apply orb_false_elim in E as [E1 E2]. apply Z.ltb_ge in E1, E2.
  injection Hv as -> -> ->. auto.
Qed.

Section Main.
Context `{Pillow}.

(** What a run of [main] that returns has done. *)
Lemma main_ok_inv (env : Env) (args : Args) (w w' : World) (status : Z) :
  main env args w = (Ok status, w') ->
  exists w1 data im mime ow oh mint_img thumb_img mint_data thumb_data
         original_bytes,
    makedirs (out_dir_path env args) w = (Ok tt, w1)
    /\ files w !! input_path env args = Some data
    /\ identify (input_path env args) data = Ok im
    /\ validate im = Ok (mime, ow, oh)
    /\ render_square_contain im (capped_side (mint_max_side args) ow oh)
        = Ok mint_img
    /\ render_square_contain im (capped_side (thumb_max_side args) ow oh)
        = Ok thumb_img
    /\ encode mint_img (quality args) = Ok mint_data
    /\ encode thumb_img (quality args) = Ok thumb_data
    /\ files w' = <[thumb_path env args := thumb_data]>
                   (<[mint_path env args := mint_data]> (files w))
    /\ files w' !! input_path env args = Some original_bytes
    /\ dirs w' = dirs w1
    /\ status = 0
    /\ stdout w' =
        (stdout w ++
         [Dumps (manifest env args mime ow oh original_bytes mint_data
                   thumb_data)])%list
    /\ stderr w' = stderr w.
Proof.
  unfold main. fold (input_path env args) (out_dir_path env args).
  fold (mint_path env args) (thumb_path env args).
  intros Hm. unfold bind at 1 in Hm.
  destruct (makedirs (out_dir_path env args) w) as [[[] | e] w1] eqn:Hmk;
    [ | discriminate ].
  destruct (makedirs_inv _ _ _ _ Hmk) as (Hf1 & Ho1 & He1 & _).
  unfold bind at 1 in Hm. unfold Image_open, bind at 1 in Hm.
  destruct (read_bytes (input_path env args) w1) as [[data | e] w1'] eqn:Hrd;
    [ | discriminate ].
  apply read_bytes_inv in Hrd as [-> Hdata]. specialize (Hdata _ eq_refl).
  unfold lift at 1 in Hm.
  destruct (identify (input_path env args) data) as [im | e] eqn:Hid;
    [ | discriminate ].
  unfold bind at 1 in Hm. unfold lift at 1 in Hm.
  destruct (validate im) as [[[mime ow] oh] | e] eqn:Hv; [ | discriminate ].
  fold (capped_side (mint_max_side args) ow oh) in Hm.
  fold (capped_side (thumb_max_side args) ow oh) in Hm.
  unfold bind at 1 in Hm. unfold lift at 1 in Hm.
  destruct (render_square_contain im (capped_side (mint_max_side args) ow oh))
    as [mint_img | e] eqn:Hrm; [ | discriminate ].
  unfold bind at 1 in Hm. unfold lift at 1 in Hm.
  destruct (render_square_contain im (capped_side (thumb_max_side args) ow oh))
    as [thumb_img | e] eqn:Hrt; [ | discriminate ].
  unfold bind at 1 in Hm.
  destruct (save mint_img (mint_path env args) (quality args) w1)
    as [[[] | e] w2] eqn:Hs1; [ | discriminate ].
  destruct (save_inv _ _ _ _ _ _ Hs1) as (Ho2 & He2 & Hd2 & Hw2).
  destruct (Hw2 eq_refl) as (mint_data & Hem & Hf2).
  unfold bind at 1 in Hm.
  destruct (save thumb_img (thumb_path env args) (quality args) w2)
    as [[[] | e] w3] eqn:Hs2; [ | discriminate ].
  destruct (save_inv _ _ _ _ _ _ Hs2) as (Ho3 & He3 & Hd3 & Hw3).
  destruct (Hw3 eq_refl) as (thumb_data & Het & Hf3).
  unfold bind at 1 in Hm.
  destruct (read_bytes (input_path env args) w3) as [[ob | e] w3'] eqn:Hr1;
    [ | discriminate ].
  apply read_bytes_inv in Hr1 as [-> Hob]. specialize (Hob _ eq_refl).
  unfold bind at 1 in Hm.
  destruct (read_bytes (mint_path env args) w3) as [[mb | e] w3'] eqn:Hr2;
    [ | discriminate ].
  apply read_bytes_inv in Hr2 as [-> Hmb]. specialize (Hmb _ eq_refl).
  unfold bind at 1 in Hm.
  destruct (read_bytes (thumb_path env args) w3) as [[tb | e] w3'] eqn:Hr3;
    [ | discriminate ].
  apply read_bytes_inv in Hr3 as [-> Htb]. specialize (Htb _ eq_refl).
  unfold bind, print_out, ret in Hm. injection Hm as <- <-.
  assert (Hne : mint_path env args <> thumb_path env args)
    by apply mint_thumb_distinct.
  rewrite Hf3, Hf2, Hf1 in Hmb, Htb, Hob.
  rewrite lookup_insert_eq in Htb. injection Htb as <-.
  rewrite lookup_insert_ne in Hmb by congruence.
  rewrite lookup_insert_eq in Hmb. injection Hmb as <-.
  exists w1, data, im, mime, ow, oh, mint_img, thumb_img, mint_data.
  exists thumb_data, ob. cbn [files dirs stdout stderr put_stdout].
  rewrite Hf3, Hf2, Hf1, Hd3, Hd2, Ho3, Ho2, Ho1, He3, He2, He1.
  rewrite Hf1 in Hdata.
  repeat split; auto.
Qed.

End Main.

(** Name everything a returning run of [main] has computed. *)
Ltac main_returned Hm :=
  destruct (main_ok_inv _ _ _ _ _ Hm)
    as (w1 & data & im & mime & ow & oh & mint_img & thumb_img & md & td & ob
        & Hmk & Hdata & Hid & Hv & Hrm & Hrt & Hem & Het & Hfiles & Hob
        & Hdirs & Hstatus & Hout & Herr).

Lemma prints_last_bind {A B} (c : py A) (k : A -> py B) :
  quiet c -> (forall a, prints_last (k a)) -> prints_last (bind c k).
Proof.
  intros Hc Hk w r w'. unfold bind.
  destruct (c w) as [[a | e] w1] eqn:E; intros Hr.
  - destruct (Hc _ _ _ E) as [E1 E2]. destruct (Hk a _ _ _ Hr) as [E3 E4].
    rewrite E3, E2. split; [ reflexivity | ].
    destruct r; rewrite <- E1; exact E4.
  - injection Hr as <- <-. destruct (Hc _ _ _ E) as [E1 E2]. auto.
Qed.

Lemma prints_last_print {A} (j : json) (a : A) :
  prints_last (bind (print_out (Dumps j)) (fun _ => ret a)).
Proof.
  intros w r w'. unfold bind, print_out, ret. intros [= <- <-].
  cbn. split; [ reflexivity | ]. exists j. reflexivity.
Qed.

Section MainEffects.
Context `{Pillow}.

Lemma main_prints_last (env : Env) (args : Args) : prints_last (main env args).
Proof.
  unfold main.
  apply prints_last_bind; [ apply quiet_makedirs | intros _ ].
  apply prints_last_bind; [ apply quiet_Image_open | intros im ].
  apply prints_last_bind; [ apply quiet_lift | intros [[mime ow] oh] ].
  apply prints_last_bind; [ apply quiet_lift | intros mint_img ].
  apply prints_last_bind; [ apply quiet_lift | intros thumb_img ].
  apply prints_last_bind; [ apply quiet_save | intros _ ].
  apply prints_last_bind; [ apply quiet_save | intros _ ].
  apply prints_last_bind; [ apply quiet_read_bytes | intros ob ].
  apply prints_last_bind; [ apply quiet_read_bytes | intros mb ].
  apply prints_last_bind; [ apply quiet_read_bytes | intros tb ].
  apply prints_last_print.
Qed.

(** A run whose image fails validation stops there. *)
Lemma main_validate_raise (env : Env) (args : Args) (w w1 : World)
    (data : list byte) (im : Image) (e : exn) :
  makedirs (out_dir_path env args) w = (Ok tt, w1) ->
  files w !! input_path env args = Some data ->
  identify (input_path env args) data = Ok im ->
  validate im = Raise e ->
  main env args w = (Raise e, w1).
Proof.
  intros Hmk Hdata Hid Hv.
  destruct (makedirs_inv _ _ _ _ Hmk) as (Hf & _).
  unfold main. fold (input_path env args) (out_dir_path env args).
  unfold bind at 1. rewrite Hmk.
  unfold bind at 1. unfold Image_open, bind at 1.
  rewrite (read_bytes_ok _ w1 data) by (rewrite Hf; exact Hdata).
  unfold lift at 1. rewrite Hid.
  unfold bind at 1. unfold lift at 1. rewrite Hv. reflexivity.
Qed.

End MainEffects.

(** * The manifest *)

Lemma manifest_mint (env : Env) (args : Args) (mime : string) (ow oh : Z)
    (ob mb tb : list byte) :
  json_path ["meta"; "mint"] (manifest env args mime ow oh ob mb tb)
  = Some (JObj
      [ ("mime", JStr "image/webp");
        ("bytes", JInt (Z.of_nat (length mb)));
        ("width", JInt (capped_side (mint_max_side args) ow oh));
        ("height", JInt (capped_side (mint_max_side args) ow oh));
        ("maxSide", JInt (capped_side (mint_max_side args) ow oh));
        ("fit", JStr "contain");
        ("format", JStr "webp");
        ("quality", JFloat (round_b64 (85 # 100))) ]).
Proof.
  unfold manifest, build_result, with_title, build_meta.
  destruct (is_empty _); reflexivity.
Qed.

Lemma manifest_thumbnail (env : Env) (args : Args) (mime : string) (ow oh : Z)
    (ob mb tb : list byte) :
  json_path ["meta"; "thumbnail"] (manifest env args mime ow oh ob mb tb)
  = Some (JObj
      [ ("mime", JStr "image/webp");
        ("bytes", JInt (Z.of_nat (length tb)));
        ("width", JInt (capped_side (thumb_max_side args) ow oh));
        ("height", JInt (capped_side (thumb_max_side args) ow oh));
        ("maxSide", JInt (capped_side (thumb_max_side args) ow oh)) ]).
Proof.
  unfold manifest, build_result, with_title, build_meta.
  destruct (is_empty _); reflexivity.
Qed.

Lemma manifest_original (env : Env) (args : Args) (mime : string) (ow oh : Z)
    (ob mb tb : list byte) :
  json_path ["meta"; "original"] (manifest env args mime ow oh ob mb tb)
  = Some (JObj
      [ ("filename", JStr (basename (input_path env args)));
        ("mime", JStr mime);
        ("bytes", JInt (Z.of_nat (length ob)));
        ("width", JInt ow);
        ("height", JInt oh);
        ("sha256", JStr (hexdigest (sha256_of ob))) ]).
Proof.
  unfold manifest, build_result, with_title, build_meta.
  destruct (is_empty _); reflexivity.
Qed.

Lemma manifest_title (env : Env) (args : Args) (mime : string) (ow oh : Z)
    (ob mb tb : list byte) :
  json_path ["meta"; "title"] (manifest env args mime ow oh ob mb tb)
  = let stem := strip (raw_stem (input_path env args)) in
    if is_empty stem then None else Some (JStr stem).
Proof.
  unfold manifest, build_result, with_title, build_meta. cbn zeta.
  destruct (is_empty _); reflexivity.
Qed.

Lemma json_path_app (ks ks' : list string) (j v : json) :
  json_path ks j = Some v -> json_path (ks ++ ks')%list j = json_path ks' v.
Proof.
  revert j. induction ks as [| k ks IH]; cbn; intros j Hj.
  - injection Hj as ->. reflexivity.
  - destruct j; try discriminate.
    destruct (dict_get k items); [ | discriminate ]. auto.
Qed.

(** * [str.strip] *)

Lemma string_forall_app (f : ascii -> bool) (a b : string) :
  string_forall f (a ++ b)%string = string_forall f a && string_forall f b.
Proof.
  induction a as [| c a IH]; [ reflexivity | ].
  change (String c a ++ b)%string with (String c (a ++ b)%string).
  cbn [string_forall]. rewrite IH. apply andb_assoc.
Qed.

Lemma string_forall_rev (f : ascii -> bool) (s : string) :
  string_forall f (string_rev s) = string_forall f s.
Proof.
  induction s as [| c s IH]; cbn [string_rev string_forall]; [ reflexivity | ].
  rewrite string_forall_app, IH. cbn [string_forall].
  rewrite andb_true_r. apply andb_comm.
Qed.

Lemma is_empty_rev (s : string) : is_empty (string_rev s) = is_empty s.
Proof.
  destruct s as [| c s]; cbn; [ reflexivity | ].
  destruct (string_rev s); reflexivity.
Qed.

Lemma is_empty_lstrip (s : string) :
  is_empty (lstrip s) = string_forall isspace s.
Proof.
  induction s as [| c s IH]; cbn; [ reflexivity | ].
  destruct (isspace c); [ exact IH | reflexivity ].
Qed.

Lemma string_forall_lstrip (s : string) :
  string_forall isspace (lstrip s) = string_forall isspace s.
Proof.
  induction s as [| c s IH]; cbn; [ reflexivity | ].
  destruct (isspace c) eqn:E; [ exact IH | ].
  cbn. rewrite E. reflexivity.
Qed.

(** The stripped string is empty exactly when the string is all spaces. *)
Lemma is_empty_strip (s : string) :
  is_empty (strip s) = string_forall isspace s.
Proof.
  unfold strip, rstrip.
  rewrite is_empty_rev, is_empty_lstrip, string_forall_rev.
  apply string_forall_lstrip.
Qed.

Lemma append_nil_r (s : string) : (s ++ EmptyString)%string = s.
Proof.
  induction s as [| c s IH]; [ reflexivity | ].
  change (String c s ++ EmptyString)%string
    with (String c (s ++ EmptyString)%string). congruence.
Qed.

Lemma append_assoc (a b c : string) :
  ((a ++ b) ++ c)%string = (a ++ (b ++ c))%string.
Proof.
  induction a as [| x a IH]; [ reflexivity | ].
  change (((String x a ++ b) ++ c)%string)
    with (String x ((a ++ b) ++ c)%string).
  change ((String x a ++ (b ++ c))%string)
    with (String x (a ++ (b ++ c))%string). congruence.
Qed.

Lemma string_rev_app (a b : string) :
  string_rev (a ++ b) = (string_rev b ++ string_rev a)%string.
Proof.
  induction a as [| x a IH].
  - cbn [string_rev]. change (EmptyString ++ b)%string with b.
    symmetry. apply append_nil_r.
  - change (String x a ++ b)%string with (String x (a ++ b)%string).
    cbn [string_rev]. rewrite IH. apply append_assoc.
Qed.

Lemma string_rev_involutive (s : string) : string_rev (string_rev s) = s.
Proof.
  induction s as [| c s IH]; [ reflexivity | ].
  cbn [string_rev]. rewrite string_rev_app, IH. reflexivity.
Qed.

Lemma lstrip_idem (s : string) : lstrip (lstrip s) = lstrip s.
Proof.
  induction s as [| c s IH]; cbn [lstrip]; [ reflexivity | ].
  destruct (isspace c) eqn:E; [ exact IH | ]. cbn [lstrip]. rewrite E. reflexivity.
Qed.

Lemma rstrip_idem (s : string) : rstrip (rstrip s) = rstrip s.
Proof. unfold rstrip. rewrite string_rev_involutive, lstrip_idem. reflexivity. Qed.

Lemma lstrip_app_other (a : string) (c : ascii) :
  isspace c = false ->
  lstrip (a ++ String c EmptyString) = (lstrip a ++ String c EmptyString)%string.
Proof.
  intros Hc. induction a as [| x a IH].
  - change (EmptyString ++ String c EmptyString)%string with (String c EmptyString).
    cbn [lstrip]. rewrite Hc. reflexivity.
  - change (String x a ++ String c EmptyString)%string
      with (String x (a ++ String c EmptyString)%string).
    cbn [lstrip]. destruct (isspace x); [ exact IH | reflexivity ].
Qed.

Lemma rstrip_cons_other (c : ascii) (r : string) :
  isspace c = false -> rstrip (String c r) = String c (rstrip r).
Proof.
  intros Hc. unfold rstrip. cbn [string_rev].
  rewrite (lstrip_app_other _ c Hc), string_rev_app. reflexivity.
Qed.

(** Stripping what [strip] returned changes nothing: it has no
    whitespace at either end. *)
Lemma strip_trimmed (s : string) :
  lstrip (strip s) = strip s /\ rstrip (strip s) = strip s.
Proof.
  unfold strip. split; [ | apply rstrip_idem ].
  assert (Hhead : match lstrip s with
                  | EmptyString => True
                  | String c _ => isspace c = false
                  end).
  { induction s as [| c s IH]; cbn [lstrip]; [ exact I | ].
    destruct (isspace c) eqn:E; [ exact IH | exact E ]. }
  destruct (lstrip s) as [| c r]; [ reflexivity | ].
  rewrite (rstrip_cons_other c r Hhead). cbn [lstrip]. rewrite Hhead.
  reflexivity.
Qed.

Lemma lstrip_head (s : string) :
  match lstrip s with
  | EmptyString => True
  | String c _ => isspace c = false
  end.
Proof.
  induction s as [| c s IH]; cbn [lstrip]; [ exact I | ].
  destruct (isspace c) eqn:E; [ exact IH | exact E ].
Qed.

(** What [lstrip] drops is whitespace. *)
Lemma lstrip_split (s : string) :
  exists a, s = (a ++ lstrip s)%string /\ string_forall isspace a = true.
Proof.
  induction s as [| c s (a & Ea & Ha)].
  - exists EmptyString. split; reflexivity.
  - cbn [lstrip]. destruct (isspace c) eqn:E.
    + exists (String c a). split.
      * change (String c a ++ lstrip s)%string
          with (String c (a ++ lstrip s)%string). congruence.
      * cbn [string_forall]. rewrite E, Ha. reflexivity.
    + exists EmptyString. split; reflexivity.
Qed.

Lemma rstrip_split (s : string) :
  exists b, s = (rstrip s ++ b)%string /\ string_forall isspace b = true.
Proof.
  destruct (lstrip_split (string_rev s)) as (a & Ea & Ha).
  exists (string_rev a). split.
  - unfold rstrip. rewrite <- string_rev_app, <- Ea.
    symmetry. apply string_rev_involutive.
  - rewrite string_forall_rev. exact Ha.
Qed.

(** [strip] drops whitespace at both ends and nothing else. *)
Lemma strip_split (s : string) :
  exists a b,
    s = (a ++ strip s ++ b)%string
    /\ string_forall isspace a = true /\ string_forall isspace b = true.
Proof.
  destruct (lstrip_split s) as (a & Ea & Ha).
  destruct (rstrip_split (lstrip s)) as (b & Eb & Hb).
  exists a, b. unfold strip. rewrite <- Eb. auto.
Qed.

(** The first and the last character of what [strip] returns are not
    whitespace. *)
Lemma strip_ends (s : string) :
  (forall c r, strip s = String c r -> isspace c = false)
  /\ (forall r c, strip s = (r ++ String c EmptyString)%string ->
       isspace c = false).
Proof.
  split.
  - intros c r E. unfold strip in E.
    pose proof (lstrip_head s) as Hh.
    destruct (lstrip s) as [| x t]; [ discriminate | ].
    rewrite (rstrip_cons_other x t Hh) in E. congruence.
  - intros r c E. unfold strip, rstrip in E.
    assert (E' : lstrip (string_rev (lstrip s)) = String c (string_rev r)).
    { rewrite <- (string_rev_involutive (lstrip (string_rev (lstrip s)))), E.
      rewrite string_rev_app. reflexivity. }
    pose proof (lstrip_head (string_rev (lstrip s))) as Hh.
    rewrite E' in Hh. exact Hh.
Qed.

(** * [os.path.splitext] *)

Lemma substring_all (s : string) : substring 0 (String.length s) s = s.
Proof. induction s as [| c s IH]; cbn [substring String.length]; congruence. Qed.

Lemma substring_split (s : string) (n : nat) :
  (n <= String.length s)%nat ->
  (substring 0 n s ++ substring n (String.length s - n) s)%string = s.
Proof.
  revert n. induction s as [| c s IH]; intros [| n] Hn;
    cbn [String.length] in Hn; try lia.
  - reflexivity.
  - rewrite Nat.sub_0_r, substring_all. destruct (String.length (String c s)); reflexivity.
  - cbn [substring String.length Nat.sub].
    change (String c (substring 0 n s) ++ substring n (String.length s - n) s)%string
      with (String c (substring 0 n s ++ substring n (String.length s - n) s)%string).
    f_equal. apply IH. lia.
Qed.

Lemma rfind_from_bound (c : ascii) (s : string) (i found : Z) :
  -1 <= found < i ->
  -1 <= rfind_from i found c s < i + Z.of_nat (String.length s).
Proof.
  revert i found. induction s as [| a s IH]; cbn [rfind_from String.length];
    intros i found Hf; [ lia | ].
  specialize (IH (i + 1) (if Ascii.eqb a c then i else found)).
  destruct (Ascii.eqb a c); lia.
Qed.

(** The two parts [splitext] returns make up the path. *)
Lemma splitext_append (p : string) :
  (fst (splitext p) ++ snd (splitext p))%string = p.
Proof.
  unfold splitext.
  destruct (_ && _) eqn:E; cbn [fst snd].
  - apply andb_true_iff in E as [E _]. apply Z.ltb_lt in E.
    pose proof (rfind_from_bound "." p 0 (-1) ltac:(lia)) as Hd.
    pose proof (rfind_from_bound "/" p 0 (-1) ltac:(lia)) as Hs.
    fold (rfind "." p) in Hd. fold (rfind "/" p) in Hs.
    unfold slice, slice_from. rewrite Z.sub_0_r. change (Z.to_nat 0) with 0%nat.
    apply substring_split. lia.
  - clear. induction p as [| c p IH]; [ reflexivity | ].
    change (String c p ++ EmptyString)%string
      with (String c (p ++ EmptyString)%string). congruence.
Qed.

(** * Hashing *)

Lemma hex_length (bs : list byte) :
  String.length (hex bs) = (2 * length bs)%nat.
Proof. induction bs as [| b bs IH]; cbn [hex String.length length]; lia. Qed.

Lemma hex_lowercase (bs : list byte) :
  string_forall is_lower_hex (hex bs) = true.
Proof.
  induction bs as [| b bs IH]; [ reflexivity | ].
  cbn [hex string_forall]. rewrite IH, andb_true_r.
  destruct b; reflexivity.
Qed.

Lemma digest_length (msg : list byte) : length (SHA256.digest msg) = 32%nat.
Proof. reflexivity. Qed.

(** A SHA-256 hex digest is 64 lowercase hexadecimal digits. *)
Lemma hexdigest_shape (h : sha256_object) :
  String.length (hexdigest h) = 64%nat
  /\ string_forall is_lower_hex (hexdigest h) = true.
Proof.
  unfold hexdigest. rewrite hex_length, digest_length, hex_lowercase. auto.
Qed.

Lemma CHUNK_value : Z.of_nat CHUNK = 1048576.
Proof. unfold CHUNK. lia. Qed.

(** The read loop feeds the whole file, in order. *)
Lemma sha256_hex_loop_fed (h : sha256_object) (f : list byte) :
  fed (sha256_hex_loop h f) = (fed h ++ f)%list.
Proof.
  funelim (sha256_hex_loop h f).
  - clear - E.
    destruct f as [| b f']; [ rewrite app_nil_r; reflexivity | exfalso ].
    pose proof CHUNK_value as Hc.
    destruct CHUNK; [ lia | discriminate E ].
  - rewrite H. cbn [update fed].
    rewrite <- app_assoc, <- E, firstn_skipn. reflexivity.
Qed.

Lemma sha256_object_eq (a b : sha256_object) : fed a = fed b -> a = b.
Proof. destruct a, b. cbn. congruence. Qed.

Lemma sha256_hex_ok (path : string) (w : World) (data : list byte) :
  files w !! path = Some data ->
  sha256_hex path w = (Ok (hexdigest (sha256_of data)), w).
Proof.
  intros Hd. unfold sha256_hex, bind. rewrite (read_bytes_ok _ _ _ Hd).
  unfold ret, hexdigest. rewrite sha256_hex_loop_fed. reflexivity.
Qed.

(** * The claims *)

Section Claims.
Context `{Pillow}.

Lemma render_square_contain_size (src : Image) (side : Z) (canvas : Image) :
  render_square_contain src side = Ok canvas -> im_size canvas = (side, side).
Proof.
  intros Hr.
  destruct (render_square_contain_inv _ _ _ Hr)
    as (rgba & l & resized & blank & Hc & Hsz & Hw & Hh & Hl & Hrs & Hn & Hp).
  rewrite (paste_size _ _ _ _ Hp).
  apply Image_new_size in Hn. tauto.
Qed.

(** C1.  In a run of [main] that returns, for the image [im] it opened
    and for both renditions, the side the resizer is called with, the
    side of the image it returns and the width, height and [maxSide] the
    manifest reports are [min(max_side, max(w, h))], where [max_side] is
    [--mint-max-side] (4096 when absent) for the mint rendition and
    [--thumb-max-side] (512 when absent) for the thumbnail, and [w],
    [h], both positive, are the sides of [im]. *)
Theorem rendition_side_is_capped (env : Env) (flags : Flags) (w w' : World)
    (status : Z) :
  main env (parse_args flags) w = (Ok status, w') ->
  exists data im src_w src_h mint_img thumb_img j,
    files w !! input_path env (parse_args flags) = Some data
    /\ identify (input_path env (parse_args flags)) data = Ok im
    /\ im_size im = (src_w, src_h) /\ 1 <= src_w /\ 1 <= src_h
    /\ let mint_side :=
         Z.min (default 4096 (flag_mint_max_side flags)) (Z.max src_w src_h) in
       let thumb_side :=
         Z.min (default 512 (flag_thumb_max_side flags)) (Z.max src_w src_h) in
       render_square_contain im mint_side = Ok mint_img
       /\ im_size mint_img = (mint_side, mint_side)
       /\ render_square_contain im thumb_side = Ok thumb_img
       /\ im_size thumb_img = (thumb_side, thumb_side)
       /\ stdout w' = (stdout w ++ [Dumps j])%list
       /\ json_path ["meta"; "mint"; "width"] j = Some (JInt mint_side)
       /\ json_path ["meta"; "mint"; "height"] j = Some (JInt mint_side)
       /\ json_path ["meta"; "mint"; "maxSide"] j = Some (JInt mint_side)
       /\ json_path ["meta"; "thumbnail"; "width"] j = Some (JInt thumb_side)
       /\ json_path ["meta"; "thumbnail"; "height"] j = Some (JInt thumb_side)
       /\ json_path ["meta"; "thumbnail"; "maxSide"] j = Some (JInt thumb_side).
Proof.
  intros Hm.
  main_returned Hm.
  destruct (validate_ok_inv _ _ _ _ Hv) as (Hsz & Hw & Hh & _).
  exists data, im, ow, oh, mint_img, thumb_img.
  exists (manifest env (parse_args flags) mime ow oh ob md td).
  cbn zeta. unfold capped_side in Hrm, Hrt. cbn [parse_args mint_max_side
    thumb_max_side] in Hrm, Hrt.
  repeat split; auto.
  - exact (render_square_contain_size _ _ _ Hrm).
  - exact (render_square_contain_size _ _ _ Hrt).
  - change ["meta"; "mint"; "width"] with (["meta"; "mint"] ++ ["width"])%list.
    rewrite (json_path_app _ _ _ _ (manifest_mint _ _ _ _ _ _ _ _)). reflexivity.
  - change ["meta"; "mint"; "height"] with (["meta"; "mint"] ++ ["height"])%list.
    rewrite (json_path_app _ _ _ _ (manifest_mint _ _ _ _ _ _ _ _)). reflexivity.
  - change ["meta"; "mint"; "maxSide"] with (["meta"; "mint"] ++ ["maxSide"])%list.
    rewrite (json_path_app _ _ _ _ (manifest_mint _ _ _ _ _ _ _ _)). reflexivity.
  - change ["meta"; "thumbnail"; "width"]
      with (["meta"; "thumbnail"] ++ ["width"])%list.
    rewrite (json_path_app _ _ _ _ (manifest_thumbnail _ _ _ _ _ _ _ _)).
    reflexivity.
  - change ["meta"; "thumbnail"; "height"]
      with (["meta"; "thumbnail"] ++ ["height"])%list.
    rewrite (json_path_app _ _ _ _ (manifest_thumbnail _ _ _ _ _ _ _ _)).
    reflexivity.
  - change ["meta"; "thumbnail"; "maxSide"]
      with (["meta"; "thumbnail"] ++ ["maxSide"])%list.
    rewrite (json_path_app _ _ _ _ (manifest_thumbnail _ _ _ _ _ _ _ _)).
    reflexivity.
Qed.

(** C2.  The image [render_square_contain] returns for a side [S] is
    an RGBA image of [S] by [S] pixels, whatever the sides of the
    source. *)
Theorem render_square_contain_square (src : Image) (side : Z)
    (canvas : Image) :
  render_square_contain src side = Ok canvas ->
  im_size canvas = (side, side) /\ im_mode canvas = "RGBA".
Proof.
  intros Hr. split; [ exact (render_square_contain_size _ _ _ Hr) | ].
  destruct (render_square_contain_inv _ _ _ Hr)
    as (rgba & l & resized & blank & _ & _ & _ & _ & _ & _ & Hn & Hp).
  unfold paste in Hp.
  destruct (im_load blank); [ | discriminate ]. cbn [rbind] in Hp.
  destruct (im_load resized); [ | discriminate ]. cbn [rbind] in Hp.
  injection Hp as <-. cbn [im_mode].
  unfold Image_new in Hn.
  destruct (_ || _); [ discriminate | ].
  destruct (c_int (fst (side, side))); [ | discriminate ]. cbn [rbind] in Hn.
  destruct (c_int (snd (side, side))); [ | discriminate ]. cbn [rbind] in Hn.
  destruct (LINE_MAX <? _); [ discriminate | ].
  destruct (new_raises _); [ discriminate | ].
  injection Hn as <-. reflexivity.
Qed.

(** C8.  In a call that returns, the resized image, of size
    [(out_w, out_h)], is pasted on the transparent [S] by [S] canvas at
    [((S - out_w) // 2, (S - out_h) // 2)]: every pixel of the result
    inside that box is the pixel of the resized image, laid over the
    transparent canvas under its own alpha, and every pixel outside is
    transparent; the padding to the right of the box is as wide as the
    padding to its left or one pixel wider, and so for the padding
    below and above. *)
Theorem paste_is_centred (src : Image) (side : Z) (canvas : Image) :
  render_square_contain src side = Ok canvas ->
  exists src_rgba l resized blank px rpx,
    convert src "RGBA" = Ok src_rgba
    /\ contain_layout side (fst (im_size src)) (snd (im_size src)) = Ok l
    /\ resize src_rgba (out_w l, out_h l) = Ok resized
    /\ im_size resized = (out_w l, out_h l)
    /\ im_load resized = Ok rpx
    /\ Image_new "RGBA" (side, side) transparent = Ok blank
    /\ paste blank resized (offset_x l, offset_y l) = Ok canvas
    /\ offset_x l = (side - out_w l) / 2
    /\ offset_y l = (side - out_h l) / 2
    /\ im_load canvas = Ok px
    /\ (forall x y,
          in_box (offset_x l, offset_y l) (out_w l, out_h l) x y = true ->
          px x y
          = composite transparent (rpx (x - offset_x l) (y - offset_y l)))
    /\ (forall x y,
          in_box (offset_x l, offset_y l) (out_w l, out_h l) x y = false ->
          px x y = transparent)
    /\ (let left := offset_x l in
        let right := side - (offset_x l + out_w l) in
        0 <= right - left <= 1)
    /\ (let top := offset_y l in
        let bottom := side - (offset_y l + out_h l) in
        0 <= bottom - top <= 1).
Proof.
  intros Hr.
  destruct (render_square_contain_inv _ _ _ Hr)
    as (rgba & l & resized & blank & Hc & _ & _ & _ & Hl & Hrs & Hn & Hp).
  assert (Hox : offset_x l = paste_offset side (out_w l)
                /\ offset_y l = paste_offset side (out_h l)).
  { unfold contain_layout in Hl.
    destruct (contain_scale _ _ _); [ | discriminate ]. cbn [rbind] in Hl.
    destruct (scaled_dim _ _); [ | discriminate ]. cbn [rbind] in Hl.
    destruct (scaled_dim _ _); [ | discriminate ]. cbn [rbind] in Hl.
    injection Hl as <-. cbn. auto. }
  destruct Hox as [Hox Hoy].
  pose proof (resize_size _ _ _ Hrs) as Hsize.
  destruct (Image_new_size _ _ _ _ Hn) as (_ & Hbl & _).
  assert (Hpx : exists px rpx,
             im_load canvas = Ok px /\ im_load resized = Ok rpx
             /\ (forall x y,
                   in_box (offset_x l, offset_y l) (out_w l, out_h l) x y = true ->
                   px x y
                   = composite transparent
                       (rpx (x - offset_x l) (y - offset_y l)))
             /\ (forall x y,
                   in_box (offset_x l, offset_y l) (out_w l, out_h l) x y = false ->
                   px x y = transparent)).
  { unfold paste in Hp. rewrite Hbl in Hp. cbn [rbind] in Hp.
    destruct (im_load resized) as [src_px |]; [ | discriminate ].
    cbn [rbind] in Hp. injection Hp as <-. cbn [im_load].
    eexists. exists src_px. split; [ reflexivity | ].
    split; [ reflexivity | ].
    split; intros x y Hbox; cbv beta; rewrite Hsize, Hbox; reflexivity. }
  destruct Hpx as (px & rpx & Hload & Hrl & Hin & Hpad).
  exists rgba, l, resized, blank, px, rpx.
  repeat split; auto;
    try (rewrite ?Hox, ?Hoy; apply paste_offset_spec).
Qed.

(** C10.  For a source with width and height at least 1 and a side
    [S] at least 1: a call that returns has computed inner dimensions
    [out_w] and [out_h] from 1 to [S] and pasted the resized image at
    offsets that are not negative, the pasted box lying within the
    canvas; along the longer side of the source the resized image is
    exactly [S] long, its offset being 0.  For [S] up to [INT_MAX],
    the largest side Pillow takes, the same holds of the dimensions
    whenever they are computed, also in a call that fails later; and
    for source sides up to [INT_MAX] the arithmetic of the function
    does compute them. *)
Theorem resized_image_fits (src : Image) (side : Z) :
  let src_w := fst (im_size src) in
  let src_h := snd (im_size src) in
  let fits (l : Layout) :=
    1 <= out_w l <= side /\ 1 <= out_h l <= side
    /\ 0 <= offset_x l /\ offset_x l + out_w l <= side
    /\ 0 <= offset_y l /\ offset_y l + out_h l <= side
    /\ (src_h <= src_w -> out_w l = side /\ offset_x l = 0)
    /\ (src_w <= src_h -> out_h l = side /\ offset_y l = 0) in
  1 <= src_w -> 1 <= src_h -> 1 <= side ->
  (forall canvas,
      render_square_contain src side = Ok canvas ->
      exists l src_rgba resized blank,
        contain_layout side src_w src_h = Ok l
        /\ convert src "RGBA" = Ok src_rgba
        /\ resize src_rgba (out_w l, out_h l) = Ok resized
        /\ Image_new "RGBA" (side, side) transparent = Ok blank
        /\ paste blank resized (offset_x l, offset_y l) = Ok canvas
        /\ fits l)
  /\ (side <= INT_MAX ->
      forall l, contain_layout side src_w src_h = Ok l -> fits l)
  /\ (side <= INT_MAX -> src_w <= INT_MAX -> src_h <= INT_MAX ->
      exists l, contain_layout side src_w src_h = Ok l).
Proof.
  cbn zeta. intros Hw Hh Hs.
  assert (Hfits : side <= INT_MAX ->
    forall l,
      contain_layout side (fst (im_size src)) (snd (im_size src)) = Ok l ->
      1 <= out_w l <= side /\ 1 <= out_h l <= side
      /\ 0 <= offset_x l /\ offset_x l + out_w l <= side
      /\ 0 <= offset_y l /\ offset_y l + out_h l <= side
      /\ (snd (im_size src) <= fst (im_size src) ->
          out_w l = side /\ offset_x l = 0)
      /\ (fst (im_size src) <= snd (im_size src) ->
          out_h l = side /\ offset_y l = 0)).
  { intros Hmax l Hl.
    assert (Hd : dimension side) by (split; assumption).
    destruct (contain_layout_spec side _ _ l Hd Hw Hh Hl)
      as (Bw & Bh & Hox & Hoy & Lw & Lh).
    pose proof (paste_offset_spec side (out_w l)) as Px.
    pose proof (paste_offset_spec side (out_h l)) as Py.
    cbn zeta in Px, Py. rewrite <- Hox in Px. rewrite <- Hoy in Py.
    assert (Ox : 0 <= offset_x l).
    { rewrite Hox. unfold paste_offset. apply Z.div_pos; lia. }
    assert (Oy : 0 <= offset_y l).
    { rewrite Hoy. unfold paste_offset. apply Z.div_pos; lia. }
    repeat split; auto; lia. }
  split; [ | split; [ exact Hfits | ] ].
  - intros canvas Hr.
    pose proof (render_square_contain_side _ _ _ Hr) as Hside.
    destruct (render_square_contain_inv _ _ _ Hr)
      as (rgba & l & resized & blank & Hc & Hsz & Hnw & Hnh & Hl & Hrs & Hn & Hp).
    exists l, rgba, resized, blank.
    repeat (split; [ assumption | ]).
    apply Hfits; [ lia | exact Hl ].
  - intros Hmax Hwm Hhm.
    assert (Hd : dimension side) by (split; assumption).
    assert (Dw : dimension (fst (im_size src))) by (split; assumption).
    assert (Dh : dimension (snd (im_size src))) by (split; assumption).
    exact (contain_layout_defined side _ _ Hd Dw Dh).
Qed.

End Claims.

Lemma unsupported_is_not_invalid (s : string) :
  Exn ValueError ("Unsupported input format: " ++ s)
  <> Exn ValueError "Invalid source dimensions".
Proof. intros E. discriminate E. Qed.

Lemma allowed_format_iff (fmt : string) :
  In fmt ["JPEG"; "PNG"; "WEBP"; "GIF"]
  <-> exists mime, dict_get fmt ALLOWED_MIME = Some mime.
Proof.
  unfold ALLOWED_MIME. cbn [dict_get In].
  destruct (String.eqb_spec "JPEG" fmt) as [<- | N1]; [ split; eauto | ].
  destruct (String.eqb_spec "PNG" fmt) as [<- | N2]; [ split; eauto | ].
  destruct (String.eqb_spec "WEBP" fmt) as [<- | N3]; [ split; eauto | ].
  destruct (String.eqb_spec "GIF" fmt) as [<- | N4]; [ split; eauto | ].
  split; [ intuition congruence | intros [m E]; discriminate ].
Qed.

(** The three outcomes of [validate]. *)
Lemma validate_cases (im : Image) :
  let fmt := format_tag im in
  let unsupported :=
    Exn ValueError
      ("Unsupported input format: " ++ (if is_empty fmt then "unknown" else fmt)) in
  let invalid := Exn ValueError "Invalid source dimensions" in
  (validate im = Raise unsupported
   <-> ~ In fmt ["JPEG"; "PNG"; "WEBP"; "GIF"])
  /\ (validate im = Raise invalid
      <-> In fmt ["JPEG"; "PNG"; "WEBP"; "GIF"]
          /\ (fst (im_size im) < 1 \/ snd (im_size im) < 1))
  /\ (forall e, validate im = Raise e -> e = unsupported \/ e = invalid)
  /\ unsupported <> invalid.
Proof.
  cbn zeta.
  pose proof (allowed_format_iff (format_tag im)) as Hallow.
  pose proof (unsupported_is_not_invalid
                (if is_empty (format_tag im)
                 then "unknown" else format_tag im)) as Hne.
  assert (Hval : validate im =
            match dict_get (format_tag im) ALLOWED_MIME with
            | None =>
                Raise (Exn ValueError
                  ("Unsupported input format: "
                   ++ (if is_empty (format_tag im)
                       then "unknown" else format_tag im)))
            | Some mime =>
                if (fst (im_size im) <? 1) || (snd (im_size im) <? 1)
                then Raise (Exn ValueError "Invalid source dimensions")
                else Ok (mime, fst (im_size im), snd (im_size im))
            end).
  { unfold validate.
    destruct (dict_get _ ALLOWED_MIME); try reflexivity;
      destruct (im_size im); reflexivity. }
  rewrite Hval. clear Hval.
  destruct (dict_get _ ALLOWED_MIME) as [mime |] eqn:Hget.
  - assert (Hin : In (format_tag im)
                     ["JPEG"; "PNG"; "WEBP"; "GIF"])
      by (apply Hallow; eauto).
    destruct ((fst (im_size im) <? 1) || (snd (im_size im) <? 1)) eqn:Hdim.
    + apply orb_true_iff in Hdim. rewrite !Z.ltb_lt in Hdim.
      split; [ | split; [ | split ] ]; [ | | | exact Hne ].
      * split; [ intros [= E]; exfalso; apply Hne; congruence | tauto ].
      * split; auto.
      * intros e [= <-]. auto.
    + apply orb_false_elim in Hdim as [D1 D2]. apply Z.ltb_ge in D1, D2.
      split; [ | split; [ | split ] ]; [ | | | exact Hne ].
      * split; [ discriminate | tauto ].
      * split; [ discriminate | intros [_ [D | D]]; lia ].
      * intros e. discriminate.
  - assert (Hnin : ~ In (format_tag im)
                       ["JPEG"; "PNG"; "WEBP"; "GIF"]).
    { intros Hin. apply Hallow in Hin as [m Hm]. congruence. }
    split; [ | split; [ | split ] ]; [ | | | exact Hne ].
    + split; auto.
    + split; [ intros [= E]; exfalso; apply Hne; congruence | tauto ].
    + intros e [= <-]. auto.
Qed.

Section Claims2.
Context `{Pillow}.

(** C3 (amended).  [sha256_hex] reads a file in chunks of [CHUNK] =
    1048576 bytes, feeds them in order to a SHA-256 object and returns
    its digest, which is the digest of the whole file written as 64
    lowercase hexadecimal digits.  A run of [main] that returns reports
    one content hash, [meta.original.sha256], the digest of the bytes
    the input path holds once both renditions are written; the [mint]
    and [thumbnail] entries of the manifest have no [sha256] key. *)
Theorem manifest_hashes_the_original :
  (forall path w data,
      files w !! path = Some data ->
      sha256_hex path w = (Ok (hexdigest (sha256_of data)), w)
      /\ hexdigest (sha256_of data) = hex (SHA256.digest data)
      /\ String.length (hexdigest (sha256_of data)) = 64%nat
      /\ string_forall is_lower_hex (hexdigest (sha256_of data)) = true)
  /\ Z.of_nat CHUNK = 1024 * 1024
  /\ (forall h f b c,
        firstn CHUNK f = b :: c ->
        sha256_hex_loop h f
        = sha256_hex_loop (update h (firstn CHUNK f)) (skipn CHUNK f))
  /\ (forall env args w w' status,
        main env args w = (Ok status, w') ->
        exists j original_bytes,
          stdout w' = (stdout w ++ [Dumps j])%list
          /\ files w' !! input_path env args = Some original_bytes
          /\ json_path ["meta"; "original"; "sha256"] j
             = Some (JStr (hexdigest (sha256_of original_bytes)))
          /\ json_path ["meta"; "mint"; "sha256"] j = None
          /\ json_path ["meta"; "thumbnail"; "sha256"] j = None).
Proof.
  split; [ | split; [ | split ] ].
  - intros path w data Hd.
    destruct (hexdigest_shape (sha256_of data)) as [Hl Hx].
    repeat split; auto. apply sha256_hex_ok. exact Hd.
  - apply CHUNK_value.
  - intros h f b c E. apply sha256_object_eq.
    rewrite !sha256_hex_loop_fed. cbn [update fed].
    rewrite <- app_assoc, firstn_skipn. reflexivity.
  - intros env args w w' status Hm.
    main_returned Hm.
    exists (manifest env args mime ow oh ob md td), ob.
    repeat split; auto.
    + change ["meta"; "original"; "sha256"]
        with (["meta"; "original"] ++ ["sha256"])%list.
      rewrite (json_path_app _ _ _ _ (manifest_original _ _ _ _ _ _ _ _)).
      reflexivity.
    + change ["meta"; "mint"; "sha256"]
        with (["meta"; "mint"] ++ ["sha256"])%list.
      rewrite (json_path_app _ _ _ _ (manifest_mint _ _ _ _ _ _ _ _)).
      reflexivity.
    + change ["meta"; "thumbnail"; "sha256"]
        with (["meta"; "thumbnail"] ++ ["sha256"])%list.
      rewrite (json_path_app _ _ _ _ (manifest_thumbnail _ _ _ _ _ _ _ _)).
      reflexivity.
Qed.

(** C4.  For the image [im] that [Image.open] returns for a file
    (Pillow identifies no file with a side below 1), with [fmt] its
    upper-cased format tag (empty when it has none): [validate] raises
    the unsupported-format error exactly when [fmt] is not one of JPEG,
    PNG, WEBP, GIF, and the invalid-dimensions error exactly when the
    width or the height is below 1; it raises nothing else; both
    errors are [ValueError]s, told apart by their messages; and [main]
    stops with the error [validate] raises.  The dimension check is
    made on any image object of an allowed format, whatever made it:
    it raises exactly when a side is below 1. *)
Theorem validate_errors (filename : string) (data : list byte) (im : Image) :
  identify filename data = Ok im ->
  let fmt := format_tag im in
  let unsupported :=
    Exn ValueError
      ("Unsupported input format: " ++ (if is_empty fmt then "unknown" else fmt)) in
  let invalid := Exn ValueError "Invalid source dimensions" in
  (validate im = Raise unsupported
   <-> ~ In fmt ["JPEG"; "PNG"; "WEBP"; "GIF"])
  /\ (validate im = Raise invalid
      <-> fst (im_size im) < 1 \/ snd (im_size im) < 1)
  /\ (forall e, validate im = Raise e -> e = unsupported \/ e = invalid)
  /\ unsupported <> invalid
  /\ exn_cls unsupported = exn_cls invalid
  /\ (forall env args w w1 e,
        makedirs (out_dir_path env args) w = (Ok tt, w1) ->
        files w !! input_path env args = Some data ->
        filename = input_path env args ->
        validate im = Raise e ->
        main env args w = (Raise e, w1))
  /\ (forall other : Image,
        In (format_tag other) ["JPEG"; "PNG"; "WEBP"; "GIF"] ->
        (validate other = Raise invalid
         <-> fst (im_size other) < 1 \/ snd (im_size other) < 1)).
Proof.
  intros Hid. cbn zeta. destruct (validate_cases im) as (A & B & C & D).
  destruct (identify_sides _ _ _ Hid) as [Hw Hh].
  refine (conj A (conj _ (conj C (conj D (conj eq_refl (conj _ _)))))).
  - split.
    + intros Hv. apply B in Hv. tauto.
    + intros [Hlt | Hlt]; lia.
  - intros env args w w1 e Hmk Hd -> Hv.
    exact (main_validate_raise env args w w1 data im e Hmk Hd Hid Hv).
  - intros other Hin. destruct (validate_cases other) as (_ & B' & _).
    rewrite B'. tauto.
Qed.

(** C5.  In a run of [main] that returns, [meta.mint.quality] of the
    manifest is the float 0.85 whatever [--quality] is, while the two
    rendition files hold the images encoded at [--quality]. *)
Theorem manifest_quality_is_fixed (env : Env) (args : Args) (w w' : World)
    (status : Z) :
  main env args w = (Ok status, w') ->
  exists j mint_img thumb_img mint_data thumb_data,
    stdout w' = (stdout w ++ [Dumps j])%list
    /\ json_path ["meta"; "mint"; "quality"] j
       = Some (JFloat (round_b64 (85 # 100)))
    /\ encode mint_img (quality args) = Ok mint_data
    /\ files w' !! mint_path env args = Some mint_data
    /\ encode thumb_img (quality args) = Ok thumb_data
    /\ files w' !! thumb_path env args = Some thumb_data.
Proof.
  intros Hm.
  main_returned Hm.
  exists (manifest env args mime ow oh ob md td), mint_img, thumb_img, md, td.
  repeat split; auto.
  - change ["meta"; "mint"; "quality"]
      with (["meta"; "mint"] ++ ["quality"])%list.
    rewrite (json_path_app _ _ _ _ (manifest_mint _ _ _ _ _ _ _ _)).
    reflexivity.
  - rewrite Hfiles. rewrite lookup_insert_ne by (symmetry; apply mint_thumb_distinct).
    apply lookup_insert_eq.
  - rewrite Hfiles. apply lookup_insert_eq.
Qed.

(** C6.  When the output directory could be made and the input file
    opens as an image whose upper-cased format tag is not in the
    allow-list, [main] raises the unsupported-format error and the run
    ends with status 1, no file having been written or changed: the
    files are those of the start, in particular [mint.webp] and
    [thumb.webp] are not produced, and nothing is printed on standard
    output. *)
Theorem unsupported_format_writes_nothing (env : Env) (flags : Flags)
    (w w1 : World) (data : list byte) (im : Image) :
  let args := parse_args flags in
  let fmt := format_tag im in
  makedirs (out_dir_path env args) w = (Ok tt, w1) ->
  files w !! input_path env args = Some data ->
  identify (input_path env args) data = Ok im ->
  ~ In fmt ["JPEG"; "PNG"; "WEBP"; "GIF"] ->
  import_PIL env = Ok tt ->
  let e :=
    Exn ValueError
      ("Unsupported input format: " ++ (if is_empty fmt then "unknown" else fmt)) in
  main env args w = (Raise e, w1)
  /\ files w1 = files w
  /\ files w1 !! mint_path env args = files w !! mint_path env args
  /\ files w1 !! thumb_path env args = files w !! thumb_path env args
  /\ stdout w1 = stdout w
  /\ fst (script env flags w) = 1
  /\ files (snd (script env flags w)) = files w.
Proof.
  cbn zeta. intros Hmk Hd Hid Hfmt Himp.
  destruct (makedirs_inv _ _ _ _ Hmk) as (Hf & Ho & He & _).
  assert (Hv : validate im =
            Raise (Exn ValueError
              ("Unsupported input format: "
               ++ (if is_empty (format_tag im)
                   then "unknown" else format_tag im)))).
  { unfold validate.
    destruct (dict_get _ ALLOWED_MIME) as [m |] eqn:Hget; [ | reflexivity ].
    exfalso. apply Hfmt. apply allowed_format_iff. eauto. }
  pose proof (main_validate_raise env (parse_args flags) w w1 data im _
                Hmk Hd Hid Hv) as Hmain.
  repeat split; auto; try (rewrite Hf; reflexivity).
  - unfold script. rewrite Himp, Hmain. reflexivity.
  - unfold script. rewrite Himp, Hmain. cbn. exact Hf.
Qed.

(** C7.  When Pillow cannot be imported the process writes one line to
    standard error and exits with status 2, [main] not being run: the
    files, the directories and standard output are untouched.
    Otherwise, when [main] returns the process exits with status 0 and
    has printed exactly one line, the JSON manifest, on standard
    output; when [main] raises [exc] the process exits with status 1,
    has printed nothing on standard output, and the last two things
    standard error received are [str(exc)] and the traceback. *)
Theorem exit_status (env : Env) (flags : Flags) (w : World) :
  let (status, w') := script env flags w in
  match import_PIL env with
  | Raise exc =>
      status = 2
      /\ files w' = files w /\ dirs w' = dirs w /\ stdout w' = stdout w
      /\ stderr w' =
         (stderr w ++ [Text ("Failed to import Pillow (PIL): " ++ exn_str exc)])%list
  | Ok _ =>
      match fst (main env (parse_args flags) w) with
      | Ok _ =>
          status = 0
          /\ (exists j, stdout w' = (stdout w ++ [Dumps j])%list)
      | Raise exc =>
          status = 1
          /\ stdout w' = stdout w
          /\ (exists before,
                stderr w' = (before ++ [Text (exn_str exc); Traceback exc])%list)
      end
  end.
Proof.
  unfold script. destruct (import_PIL env) as [[] | exc].
  - destruct (main env (parse_args flags) w) as [[status | exc] w'] eqn:Hm;
      cbn [fst].
    + main_returned Hm.
      eauto.
    + destruct (main_prints_last _ _ _ _ _ Hm) as [He Ho].
      cbn [stdout stderr put_stderr]. rewrite <- app_assoc.
      split; [ reflexivity | ]. split; [ exact Ho | ].
      exists (stderr w'). reflexivity.
  - cbn. auto.
Qed.

(** C9.  In a run of [main] that returns, with [stem] the base name of
    the absolute input path without its extension (the base name is
    the unstripped stem followed by the extension) and stripped of
    surrounding whitespace: the unstripped stem is [stem] between two
    runs of whitespace, and [stem] neither starts nor ends with a
    whitespace character; [meta.title] of the manifest is [stem] when
    [stem] is not empty and is absent when it is, that is, exactly
    when the unstripped stem is empty or all whitespace. *)
Theorem title_is_the_stem (env : Env) (args : Args) (w w' : World)
    (status : Z) :
  main env args w = (Ok status, w') ->
  let name := basename (input_path env args) in
  let stem := strip (fst (splitext name)) in
  exists j before after,
    stdout w' = (stdout w ++ [Dumps j])%list
    /\ (fst (splitext name) ++ snd (splitext name))%string = name
    /\ fst (splitext name) = (before ++ stem ++ after)%string
    /\ string_forall isspace before = true
    /\ string_forall isspace after = true
    /\ (forall c rest, stem = String c rest -> isspace c = false)
    /\ (forall rest c,
          stem = (rest ++ String c EmptyString)%string -> isspace c = false)
    /\ json_path ["meta"; "title"] j
       = (if is_empty stem then None else Some (JStr stem))
    /\ is_empty stem = string_forall isspace (fst (splitext name)).
Proof.
  intros Hm. cbn zeta.
  main_returned Hm.
  destruct (strip_split (fst (splitext (basename (input_path env args)))))
    as (before & after & Esplit & Hb & Ha).
  destruct (strip_ends (fst (splitext (basename (input_path env args)))))
    as [Hfirst Hlast].
  exists (manifest env args mime ow oh ob md td), before, after.
  repeat split; auto.
  - apply splitext_append.
  - apply manifest_title.
  - apply is_empty_strip.
Qed.

End Claims2.

(** * The claims on concrete runs *)

Lemma rendition_side_is_capped_witness :
  Toy.run_main "cat.jpg" Toy.cat_file
  = (Ok 0, snd (Toy.run_main "cat.jpg" Toy.cat_file))
  /\ exists mint_img thumb_img j,
       @render_square_contain Toy.pillow Toy.cat 4000 = Ok mint_img
       /\ im_size mint_img = (4000, 4000)
       /\ @render_square_contain Toy.pillow Toy.cat 512 = Ok thumb_img
       /\ im_size thumb_img = (512, 512)
       /\ stdout (snd (Toy.run_main "cat.jpg" Toy.cat_file)) = [Dumps j]
       /\ json_path ["meta"; "mint"; "maxSide"] j = Some (JInt 4000)
       /\ json_path ["meta"; "thumbnail"; "maxSide"] j = Some (JInt 512).
Proof.
  assert (Hrun : Toy.run_main "cat.jpg" Toy.cat_file
                 = (Ok 0, snd (Toy.run_main "cat.jpg" Toy.cat_file)))
    by (vm_compute; reflexivity).
  split; [ exact Hrun | ].
  destruct (@rendition_side_is_capped Toy.pillow Toy.env (Toy.flags "cat.jpg")
              (Toy.world "cat.jpg" Toy.cat_file) _ 0 Hrun)
    as (data & im & sw & sh & mint_img & thumb_img & j & Hd & Hid & Hsz & _ & _
        & R1 & S1 & R2 & S2 & Hout & _ & _ & J1 & _ & _ & J2).
  vm_compute in Hd. injection Hd as <-.
  vm_compute in Hid. injection Hid as <-.
  cbn in Hsz. injection Hsz as <- <-.
  exists mint_img, thumb_img, j.
  repeat split; assumption.
Defined.

Lemma render_square_contain_square_witness :
  exists canvas,
    @render_square_contain Toy.pillow Toy.cat 512 = Ok canvas
    /\ im_size canvas = (512, 512) /\ im_mode canvas = "RGBA".
Proof.
  destruct (@render_square_contain Toy.pillow Toy.cat 512) as [canvas | e] eqn:E;
    [ | vm_compute in E; discriminate E ].
  exists canvas. split; [ reflexivity | ].
  exact (@render_square_contain_square Toy.pillow Toy.cat 512 canvas E).
Defined.

Lemma paste_is_centred_witness :
  exists canvas l px,
    @render_square_contain Toy.pillow Toy.cat 512 = Ok canvas
    /\ contain_layout 512 4000 2000 = Ok l
    /\ (out_w l, out_h l) = (512, 256)
    /\ (offset_x l, offset_y l) = (0, 128)
    /\ 512 - (offset_y l + out_h l) - offset_y l = 0
    /\ im_load canvas = Ok px
    /\ px 0 128 = (128, 128, 128, 255)
    /\ px 0 127 = transparent.
Proof.
  destruct (@render_square_contain Toy.pillow Toy.cat 512) as [canvas | e] eqn:E;
    [ | vm_compute in E; discriminate E ].
  destruct (@paste_is_centred Toy.pillow Toy.cat 512 canvas E)
    as (rgba & l & resized & blank & px & rpx & Hc & Hl & Hrs & _ & Hrl & _ & _
        & _ & _ & Hload & Hin & Hout & _).
  exists canvas, l, px. cbn [Toy.cat Toy.image im_size fst snd] in Hl.
  split; [ reflexivity | ]. split; [ exact Hl | ].
  vm_compute in Hl. injection Hl as <-.
  cbn [out_w out_h offset_x offset_y] in *.
  vm_compute in Hc. injection Hc as <-.
  vm_compute in Hrs. injection Hrs as <-.
  vm_compute in Hrl. injection Hrl as <-.
  repeat split; [ exact Hload | | ].
  - rewrite (Hin 0 128 eq_refl). reflexivity.
  - exact (Hout 0 127 eq_refl).
Defined.

(** Beyond the sides Pillow takes, binary64 no longer holds every
    side: for a 1 by 1 source and [S = 2^53 + 3] the quotient [S / 1]
    rounds to [2^53 + 4], and so do both sides computed for the resized
    image; [resize] refuses them with [OverflowError], so that the call
    returns nothing. *)
Example side_beyond_binary64 :
  contain_scale 9007199254740995 1 1 = Ok (9007199254740996 # 1)
  /\ scaled_dim 1 (9007199254740996 # 1) = Ok 9007199254740996
  /\ exists e,
       @render_square_contain Toy.pillow (Toy.image "PNG" 1 1 9)
         9007199254740995 = Raise e
       /\ exn_cls e = OverflowError.
Proof.
  split; [ vm_compute; reflexivity | ].
  split; [ vm_compute; reflexivity | ].
  eexists. split; [ vm_compute; reflexivity | reflexivity ].
Qed.

Lemma resized_image_fits_witness :
  exists l canvas,
    contain_layout 3 7 5 = Ok l
    /\ @render_square_contain Toy.pillow (Toy.image "PNG" 7 5 9) 3 = Ok canvas
    /\ (out_w l, out_h l) = (3, 2)
    /\ (offset_x l, offset_y l) = (0, 0).
Proof.
  destruct (@resized_image_fits Toy.pillow (Toy.image "PNG" 7 5 9) 3)
    as (Hinv & _ & _); [ cbn; lia | cbn; lia | lia | ].
  destruct (@render_square_contain Toy.pillow (Toy.image "PNG" 7 5 9) 3)
    as [canvas | e] eqn:Hr; [ | vm_compute in Hr; discriminate Hr ].
  destruct (Hinv canvas eq_refl) as (l & rgba & resized & blank & Hl & Hrest).
  exists l, canvas. cbn [Toy.image im_size fst snd] in Hl.
  split; [ exact Hl | ]. split; [ reflexivity | ].
  vm_compute in Hl. injection Hl as <-. repeat split.
Defined.

(** C3, as stated, fails on the 4000 by 2000 JPEG: the run returns, and
    of the three entries of the manifest only [original] has a hash. *)
Lemma renditions_are_not_hashed :
  exists j,
    Toy.run "cat.jpg" Toy.cat_file
    = (0, snd (Toy.run "cat.jpg" Toy.cat_file))
    /\ stdout (snd (Toy.run "cat.jpg" Toy.cat_file)) = [Dumps j]
    /\ json_path ["meta"; "original"; "sha256"] j
       = Some (JStr "0c859473a64df3f2b19e459a2d4b1dae019882f00c41432b5d19ee4793889c6a")
    /\ json_path ["meta"; "mint"] j
       = Some (JObj
           [ ("mime", JStr "image/webp"); ("bytes", JInt 9);
             ("width", JInt 4000); ("height", JInt 4000);
             ("maxSide", JInt 4000); ("fit", JStr "contain");
             ("format", JStr "webp");
             ("quality", JFloat (7656119366529843 # 9007199254740992)) ])
    /\ json_path ["meta"; "thumbnail"] j
       = Some (JObj
           [ ("mime", JStr "image/webp"); ("bytes", JInt 9);
             ("width", JInt 512); ("height", JInt 512);
             ("maxSide", JInt 512) ])
    /\ json_path ["meta"; "mint"; "sha256"] j = None
    /\ json_path ["meta"; "thumbnail"; "sha256"] j = None.
Proof.
  eexists. split; [ vm_compute; reflexivity | ].
  split; [ vm_compute; reflexivity | ].
  repeat split; vm_compute; reflexivity.
Qed.

Lemma manifest_hashes_the_original_witness :
  sha256_hex "/home/art/in/cat.jpg" (Toy.world "cat.jpg" Toy.cat_file)
  = (Ok "0c859473a64df3f2b19e459a2d4b1dae019882f00c41432b5d19ee4793889c6a",
     Toy.world "cat.jpg" Toy.cat_file)
  /\ exists j,
       stdout (snd (Toy.run_main "cat.jpg" Toy.cat_file)) = [Dumps j]
       /\ json_path ["meta"; "mint"; "sha256"] j = None
       /\ json_path ["meta"; "thumbnail"; "sha256"] j = None.
Proof.
  destruct (@manifest_hashes_the_original Toy.pillow) as (Hhex & _ & _ & Hmain).
  split.
  - refine (proj1 (Hhex "/home/art/in/cat.jpg" (Toy.world "cat.jpg" Toy.cat_file)
                     Toy.cat_file _)).
    vm_compute. reflexivity.
  - assert (Hrun : @main Toy.pillow Toy.env (parse_args (Toy.flags "cat.jpg"))
                     (Toy.world "cat.jpg" Toy.cat_file)
                   = (Ok 0, snd (Toy.run_main "cat.jpg" Toy.cat_file)))
      by (vm_compute; reflexivity).
    destruct (Hmain _ _ _ _ _ Hrun) as (j & ob & Hout & _ & _ & Hm & Ht).
    exists j. repeat split; assumption.
Defined.

Lemma validate_errors_witness :
  validate Toy.bird = Raise (Exn ValueError "Unsupported input format: BMP")
  /\ validate Toy.cat <> Raise (Exn ValueError "Invalid source dimensions")
  /\ validate (mkImage (Some "gif") "L" (100, 0) (Ok (fun _ _ => (7, 0, 0, 0))))
     = Raise (Exn ValueError "Invalid source dimensions").
Proof.
  destruct (@validate_errors Toy.pillow "/home/art/in/bird.bmp" Toy.bird_file
              Toy.bird) as ([_ Hu] & _); [ vm_compute; reflexivity | ].
  destruct (@validate_errors Toy.pillow "/home/art/in/cat.jpg" Toy.cat_file
              Toy.cat) as (_ & [Hi _] & _ & _ & _ & _ & Hany);
    [ vm_compute; reflexivity | ].
  split; [ | split ].
  - apply Hu. cbn. intros [E | [E | [E | [E | []]]]]; discriminate E.
  - intros E. apply Hi in E. cbn in E. lia.
  - apply Hany; [ cbn; tauto | cbn; lia ].
Defined.

Lemma manifest_quality_is_fixed_witness :
  exists j,
    stdout (snd (Toy.run_main "cat.jpg" Toy.cat_file)) = [Dumps j]
    /\ json_path ["meta"; "mint"; "quality"] j
       = Some (JFloat (7656119366529843 # 9007199254740992))
    /\ quality (parse_args (Toy.flags "cat.jpg")) = 85.
Proof.
  assert (Hrun : @main Toy.pillow Toy.env (parse_args (Toy.flags "cat.jpg"))
                   (Toy.world "cat.jpg" Toy.cat_file)
                 = (Ok 0, snd (Toy.run_main "cat.jpg" Toy.cat_file)))
    by (vm_compute; reflexivity).
  destruct (@manifest_quality_is_fixed Toy.pillow _ _ _ _ _ Hrun)
    as (j & _ & _ & _ & _ & Hout & Hq & _).
  exists j. repeat split; assumption.
Defined.

Lemma unsupported_format_writes_nothing_witness :
  fst (Toy.run "bird.bmp" Toy.bird_file) = 1
  /\ files (snd (Toy.run "bird.bmp" Toy.bird_file))
     = files (Toy.world "bird.bmp" Toy.bird_file).
Proof.
  destruct (@unsupported_format_writes_nothing Toy.pillow Toy.env
              (Toy.flags "bird.bmp") (Toy.world "bird.bmp" Toy.bird_file)
              (snd (makedirs "/home/art/out" (Toy.world "bird.bmp" Toy.bird_file)))
              Toy.bird_file Toy.bird)
    as (_ & _ & _ & _ & _ & Hs & Hf).
  - vm_compute. reflexivity.
  - vm_compute. reflexivity.
  - vm_compute. reflexivity.
  - cbn. intros [E | [E | [E | [E | []]]]]; discriminate E.
  - reflexivity.
  - split; assumption.
Defined.

Lemma title_is_the_stem_witness :
  (exists j,
      stdout (snd (Toy.run_main " cat .png" Toy.blank_file)) = [Dumps j]
      /\ json_path ["meta"; "title"] j = Some (JStr "cat"))
  /\ (exists j,
        stdout (snd (Toy.run_main " .png" Toy.blank_file)) = [Dumps j]
        /\ json_path ["meta"; "title"] j = None).
Proof.
  split.
  - assert (Hrun : @main Toy.pillow Toy.env (parse_args (Toy.flags " cat .png"))
                     (Toy.world " cat .png" Toy.blank_file)
                   = (Ok 0, snd (Toy.run_main " cat .png" Toy.blank_file)))
      by (vm_compute; reflexivity).
    destruct (@title_is_the_stem Toy.pillow _ _ _ _ _ Hrun)
      as (j & before & after & Hout & _ & _ & _ & _ & _ & _ & Ht & _).
    exists j. split; [ exact Hout | exact Ht ].
  - assert (Hrun : @main Toy.pillow Toy.env (parse_args (Toy.flags " .png"))
                     (Toy.world " .png" Toy.blank_file)
                   = (Ok 0, snd (Toy.run_main " .png" Toy.blank_file)))
      by (vm_compute; reflexivity).
    destruct (@title_is_the_stem Toy.pillow _ _ _ _ _ Hrun)
      as (j & before & after & Hout & _ & _ & _ & _ & _ & _ & Ht & _).
    exists j. split; [ exact Hout | exact Ht ].
Defined.

(** * What a run may touch *)

Lemma confined_ret {A} (paths made : gset string) (a : A) :
  confined paths made (ret a).
Proof. intros w r w' [= <- <-]. set_unfold. auto. Qed.

Lemma confined_lift {A} (paths made : gset string) (x : result A) :
  confined paths made (lift x).
Proof. intros w r w' [= <- <-]. set_unfold. auto. Qed.

Lemma confined_bind {A B} (paths made : gset string) (c : py A)
    (k : A -> py B) :
  confined paths made c -> (forall a, confined paths made (k a)) ->
  confined paths made (bind c k).
Proof.
  intros Hc Hk w r w'. unfold bind.
  destruct (c w) as [[a | e] w1] eqn:E; intros Hr.
  - destruct (Hc _ _ _ E) as (F1 & D1 & U1).
    destruct (Hk a _ _ _ Hr) as (F2 & D2 & U2).
    split; [ intros p Hp; rewrite (F2 p Hp); auto | ].
    split; intros x Hx; set_unfold; [ auto | ].
    destruct (U2 x Hx) as [K | K]; auto.
  - injection Hr as <- <-. exact (Hc _ _ _ E).
Qed.

Lemma confined_read_bytes (paths made : gset string) (path : string) :
  confined paths made (read_bytes path).
Proof.
  intros w r w' E. apply read_bytes_inv in E as [-> _]. set_unfold. auto.
Qed.

Lemma confined_print (paths made : gset string) (l : line) :
  confined paths made (print_out l).
Proof. intros w r w' [= <- <-]. cbn. set_unfold. auto. Qed.

Lemma missing_parents_in (w : World) (child : string) (parents made : list string) :
  missing_parents w child parents = Ok made -> forall d, In d made -> In d parents.
Proof.
  revert child made. induction parents as [| p rest IH]; intros child made E.
  - injection E as <-. intros d [].
  - cbn [missing_parents] in E.
    destruct (bool_decide (p ∈ dirs w)); [ injection E as <-; intros d [] | ].
    destruct (is_file w p); [ discriminate | ].
    destruct (missing_parents w p rest) as [more |] eqn:Em; [ | discriminate ].
    cbn [rbind] in E. injection E as <-.
    intros d [<- | Hd]; [ left; reflexivity | right; exact (IH _ _ Em d Hd) ].
Qed.

Lemma makedirs_made (path : string) (w w' : World) (r : result unit) :
  makedirs path w = (r, w') -> dirs w' ⊆ dirs w ∪ chain path.
Proof.
  unfold makedirs, chain. intros E.
  destruct (bool_decide (path ∈ dirs w)).
  { injection E as <- <-. set_unfold. auto. }
  destruct (is_file w path).
  { injection E as <- <-. set_unfold. auto. }
  destruct (missing_parents _ _ _) as [made | e] eqn:Em.
  - injection E as <- <-. cbn. pose proof (missing_parents_in _ _ _ _ Em) as Hin.
    intros d Hd. set_unfold. destruct Hd as [[Hd | Hd] | Hd]; auto.
    right. right. apply list_elem_of_In. apply Hin. apply list_elem_of_In. exact Hd.
  - injection E as <- <-. set_unfold. auto.
Qed.

Lemma confined_makedirs (paths made : gset string) (path : string) :
  chain path ⊆ made -> confined paths made (makedirs path).
Proof.
  intros Hsub w r w' E. pose proof (makedirs_made _ _ _ _ E) as Hm.
  apply makedirs_inv in E as (Hf & _ & _ & Hd).
  rewrite Hf. split; [ auto | ]. split; [ exact Hd | ].
  intros x Hx. apply Hm in Hx. set_unfold. destruct Hx as [K | K]; auto.
Qed.

(** A successful [os.makedirs(path, exist_ok=True)] leaves [path] a
    directory. *)
Lemma makedirs_ok_dir (path : string) (w w' : World) :
  makedirs path w = (Ok tt, w') -> path ∈ dirs w'.
Proof.
  unfold makedirs. intros E.
  destruct (bool_decide (path ∈ dirs w)) eqn:B.
  { injection E as <-. apply bool_decide_eq_true in B. exact B. }
  destruct (is_file w path); [ discriminate | ].
  destruct (missing_parents _ _ _); [ | discriminate ].
  injection E as <-. cbn. set_unfold. auto.
Qed.

Section Confined.
Context `{Pillow}.

Lemma confined_Image_open (paths made : gset string) (path : string) :
  confined paths made (Image_open path).
Proof.
  unfold Image_open. apply confined_bind; [ apply confined_read_bytes | ].
  intros data. apply confined_lift.
Qed.

Lemma save_files (im : Image) (path : string) (q : Z) (w w' : World)
    (r : result unit) (p : string) :
  save im path q w = (r, w') -> p <> path -> files w' !! p = files w !! p.
Proof.
  unfold save. intros E Hp.
  destruct (bool_decide (path ∈ dirs w)).
  { injection E as <- <-. reflexivity. }
  destruct (encode im q) as [data | e].
  - injection E as <- <-. cbn. apply lookup_insert_ne. congruence.
  - injection E as <- <-.
    destruct (files w !! path); cbn; [ | reflexivity ].
    apply lookup_insert_ne. congruence.
Qed.

Lemma confined_save (paths made : gset string) (im : Image) (path : string)
    (q : Z) :
  path ∈ paths -> confined paths made (save im path q).
Proof.
  intros Hin w r w' E. split.
  - intros p Hp. apply (save_files _ _ _ _ _ _ _ E). congruence.
  - apply save_inv in E as (_ & _ & -> & _). set_unfold. auto.
Qed.

Lemma confined_main (env : Env) (args : Args) :
  confined {[ mint_path env args; thumb_path env args ]}
    (chain (out_dir_path env args)) (main env args).
Proof.
  unfold main. fold (out_dir_path env args).
  fold (mint_path env args) (thumb_path env args).
  apply confined_bind; [ apply confined_makedirs; reflexivity | intros _ ].
  apply confined_bind; [ apply confined_Image_open | intros im ].
  apply confined_bind; [ apply confined_lift | intros [[mime ow] oh] ].
  apply confined_bind; [ apply confined_lift | intros mint_img ].
  apply confined_bind; [ apply confined_lift | intros thumb_img ].
  apply confined_bind;
    [ apply confined_save; apply elem_of_union_l, elem_of_singleton; reflexivity
    | intros _ ].
  apply confined_bind;
    [ apply confined_save; apply elem_of_union_r, elem_of_singleton; reflexivity
    | intros _ ].
  apply confined_bind; [ apply confined_read_bytes | intros ob ].
  apply confined_bind; [ apply confined_read_bytes | intros mb ].
  apply confined_bind; [ apply confined_read_bytes | intros tb ].
  apply confined_bind; [ apply confined_print | intros _ ].
  apply confined_ret.
Qed.

(** X1.  Whatever the outcome of a run, the only files it can have
    created or changed are [mint.webp] and [thumb.webp] in the output
    directory: every other file holds what it held before.  No
    directory is removed, and the only directories made are the
    output directory and its parents.  Files are named by their
    canonical paths, and so are the two renditions: the file system
    has no links and the output directory is not spelled with a
    leading [//]. *)
Theorem script_touches_only_renditions (env : Env) (flags : Flags)
    (w : World) :
  let args := parse_args flags in
  let w' := snd (script env flags w) in
  canonical (mint_path env args) -> canonical (thumb_path env args) ->
  (forall p,
      canonical p ->
      p <> mint_path env args -> p <> thumb_path env args ->
      files w' !! p = files w !! p)
  /\ dirs w ⊆ dirs w'
  /\ (forall d,
        d ∈ dirs w' ->
        d ∈ dirs w \/ d = out_dir_path env args
        \/ In d (ancestors (String.length (out_dir_path env args))
                   (out_dir_path env args))).
Proof.
  intros args w' _ _. subst w'. unfold script.
  destruct (import_PIL env) as [_ | exc].
  2: { cbn. split; [ auto | ]. split; [ reflexivity | auto ]. }
  destruct (main env (parse_args flags) w) as [r w1] eqn:Hm.
  destruct (confined_main _ _ _ _ _ Hm) as (Hf & Hd & Hu).
  assert (Hgoal :
    (forall p, canonical p ->
               p <> mint_path env args -> p <> thumb_path env args ->
               files w1 !! p = files w !! p)
    /\ dirs w ⊆ dirs w1
    /\ (forall d, d ∈ dirs w1 ->
          d ∈ dirs w \/ d = out_dir_path env args
          \/ In d (ancestors (String.length (out_dir_path env args))
                     (out_dir_path env args)))).
  { split; [ | split; [ exact Hd | ] ].
    - intros p _ H1 H2. apply Hf. set_unfold. tauto.
    - intros d Hin. apply Hu in Hin. unfold chain in Hin.
      apply elem_of_union in Hin as [Hin | Hin]; [ auto | ].
      apply elem_of_union in Hin as [Hin | Hin].
      + apply elem_of_singleton in Hin. auto.
      + apply elem_of_list_to_set in Hin. apply list_elem_of_In in Hin. auto. }
  destruct r as [status | exc]; exact Hgoal.
Qed.

End Confined.

(** * The length of a concatenation *)

Lemma length_append (a b : string) :
  String.length (a ++ b) = (String.length a + String.length b)%nat.
Proof.
  induction a as [| c a IH]; [ reflexivity | ].
  change (String c a ++ b) with (String c (a ++ b)).
  cbn [String.length]. rewrite IH. reflexivity.
Qed.

(** * Runs of [main], forwards *)

Section Runs.
Context `{Pillow}.

Lemma save_ok (im : Image) (path : string) (q : Z) (w : World)
    (data : list byte) :
  path ∉ dirs w -> encode im q = Ok data ->
  save im path q w = (Ok tt, set_files (<[path := data]> (files w)) w).
Proof.
  intros Hd He. unfold save.
  rewrite bool_decide_eq_false_2 by exact Hd. rewrite He. reflexivity.
Qed.

Lemma save_ok_not_dir (im : Image) (path : string) (q : Z) (w w' : World) :
  save im path q w = (Ok tt, w') -> path ∉ dirs w.
Proof.
  unfold save. destruct (bool_decide (path ∈ dirs w)) eqn:B; [ discriminate | ].
  intros _. apply bool_decide_eq_false in B. exact B.
Qed.

Lemma main_rendered (env : Env) (args : Args) (w w1 : World)
    (data : list byte) (im : Image) (mime : string) (ow oh : Z)
    (mint_img thumb_img : Image) :
  rendered env args w w1 data im mime ow oh mint_img thumb_img ->
  main env args w = write_out env args mime ow oh mint_img thumb_img w1.
Proof.
  intros (Hmk & Hdata & Hid & Hv & Hrm & Hrt).
  destruct (makedirs_inv _ _ _ _ Hmk) as (Hf & _).
  unfold main. fold (input_path env args) (out_dir_path env args).
  fold (mint_path env args) (thumb_path env args).
  unfold bind at 1. rewrite Hmk.
  unfold bind at 1. unfold Image_open, bind at 1.
  rewrite (read_bytes_ok _ w1 data) by (rewrite Hf; exact Hdata).
  unfold lift at 1. rewrite Hid.
  unfold bind at 1. unfold lift at 1. rewrite Hv.
  fold (capped_side (mint_max_side args) ow oh).
  fold (capped_side (thumb_max_side args) ow oh).
  unfold bind at 1. unfold lift at 1. rewrite Hrm.
  unfold bind at 1. unfold lift at 1. rewrite Hrt.
  reflexivity.
Qed.

Lemma write_out_returns (env : Env) (args : Args) (mime : string) (ow oh : Z)
    (mint_img thumb_img : Image) (w1 : World) (md td ob : list byte) :
  mint_path env args ∉ dirs w1 -> thumb_path env args ∉ dirs w1 ->
  encode mint_img (quality args) = Ok md ->
  encode thumb_img (quality args) = Ok td ->
  written env args md td (files w1) !! input_path env args = Some ob ->
  write_out env args mime ow oh mint_img thumb_img w1
  = (Ok 0,
     mkWorld (written env args md td (files w1)) (dirs w1)
       (stdout w1 ++ [Dumps (manifest env args mime ow oh ob md td)])
       (stderr w1)).
Proof.
  intros Dm Dt Em Et Hob. unfold write_out.
  unfold bind at 1. rewrite (save_ok _ _ _ _ md Dm Em).
  unfold bind at 1. rewrite (save_ok _ _ _ _ td) by (cbn; assumption).
  cbn [set_files files dirs stdout stderr].
  fold (written env args md td (files w1)).
  change (set_files _ (set_files _ w1))
    with (mkWorld (written env args md td (files w1)) (dirs w1) (stdout w1)
            (stderr w1)).
  set (w3 := mkWorld _ _ (stdout w1) _).
  unfold bind at 1. rewrite (read_bytes_ok _ w3 ob) by exact Hob.
  unfold bind at 1. rewrite (read_bytes_ok _ w3 md).
  2: { cbn. unfold written. rewrite lookup_insert_ne by apply not_eq_sym, mint_thumb_distinct.
       apply lookup_insert_eq. }
  unfold bind at 1. rewrite (read_bytes_ok _ w3 td).
  2: { cbn. unfold written. apply lookup_insert_eq. }
  reflexivity.
Qed.

End Runs.

(** * Runs of [main]: the files and the manifest *)

Lemma manifest_files (env : Env) (args : Args) (mime : string) (ow oh : Z)
    (ob mb tb : list byte) :
  json_path ["files"] (manifest env args mime ow oh ob mb tb)
  = Some (JObj
      [ ("tempDir", JStr (out_dir_path env args));
        ("originalPath", JStr (input_path env args));
        ("mintPath", JStr (mint_path env args));
        ("thumbnailPath", JStr (thumb_path env args));
        ("originalFilename", JStr (basename (input_path env args)));
        ("mintFilename", JStr "mint.webp");
        ("thumbnailFilename", JStr "thumb.webp") ]).
Proof. reflexivity. Qed.

Lemma written_twice (env : Env) (args : Args) (md td : list byte)
    (f : gmap string (list byte)) :
  written env args md td (written env args md td f) = written env args md td f.
Proof.
  unfold written. apply map_eq. intros k.
  destruct (decide (thumb_path env args = k)) as [<- | N1].
  { rewrite !lookup_insert_eq. reflexivity. }
  rewrite !(lookup_insert_ne _ (thumb_path env args) k) by exact N1.
  destruct (decide (mint_path env args = k)) as [<- | N2].
  { rewrite !lookup_insert_eq. reflexivity. }
  repeat rewrite lookup_insert_ne by assumption. reflexivity.
Qed.

Lemma written_other (env : Env) (args : Args) (md td : list byte)
    (f : gmap string (list byte)) (p : string) :
  p <> mint_path env args -> p <> thumb_path env args ->
  written env args md td f !! p = f !! p.
Proof.
  intros N1 N2. unfold written.
  rewrite !lookup_insert_ne by congruence. reflexivity.
Qed.

Lemma makedirs_existing (path : string) (w : World) :
  path ∈ dirs w -> makedirs path w = (Ok tt, w).
Proof. intros Hin. unfold makedirs. rewrite bool_decide_eq_true_2; auto. Qed.

Section Manifest.
Context `{Pillow}.

Lemma main_ok_rendered (env : Env) (args : Args) (w w' : World) (status : Z) :
  main env args w = (Ok status, w') ->
  exists w1 data im mime ow oh mint_img thumb_img,
    rendered env args w w1 data im mime ow oh mint_img thumb_img
    /\ write_out env args mime ow oh mint_img thumb_img w1 = (Ok status, w').
Proof.
  intros Hm. pose proof Hm as Hm'. main_returned Hm'.
  exists w1, data, im, mime, ow, oh, mint_img, thumb_img.
  assert (R : rendered env args w w1 data im mime ow oh mint_img thumb_img)
    by (unfold rendered; auto 10).
  split; [ exact R | ]. rewrite <- (main_rendered _ _ _ _ _ _ _ _ _ _ _ R).
  exact Hm.
Qed.

Lemma write_out_ok_inv (env : Env) (args : Args) (mime : string) (ow oh : Z)
    (mint_img thumb_img : Image) (w1 w' : World) (status : Z) :
  write_out env args mime ow oh mint_img thumb_img w1 = (Ok status, w') ->
  (mint_path env args ∉ dirs w1) /\ (thumb_path env args ∉ dirs w1).
Proof.
  unfold write_out. intros Hw. unfold bind at 1 in Hw.
  destruct (save mint_img (mint_path env args) (quality args) w1)
    as [[[] | e] w2] eqn:Hs1; [ | discriminate ].
  unfold bind at 1 in Hw.
  destruct (save thumb_img (thumb_path env args) (quality args) w2)
    as [[[] | e] w3] eqn:Hs2; [ | discriminate ].
  split; [ exact (save_ok_not_dir _ _ _ _ _ Hs1) | ].
  apply save_ok_not_dir in Hs2.
  apply save_inv in Hs1 as (_ & _ & Hd & _). rewrite Hd in Hs2. exact Hs2.
Qed.

(** X2.  When [main] returns, the three byte counts of the manifest
    are the sizes the files at the manifest's own [originalPath],
    [mintPath] and [thumbnailPath] have when the run ends. *)
Theorem manifest_describes_files (env : Env) (args : Args) (w w' : World)
    (status : Z) :
  main env args w = (Ok status, w') ->
  exists j original mint thumb ob mb tb,
    stdout w' = (stdout w ++ [Dumps j])%list
    /\ json_path ["files"; "originalPath"] j = Some (JStr original)
    /\ json_path ["files"; "mintPath"] j = Some (JStr mint)
    /\ json_path ["files"; "thumbnailPath"] j = Some (JStr thumb)
    /\ files w' !! original = Some ob
    /\ files w' !! mint = Some mb
    /\ files w' !! thumb = Some tb
    /\ json_path ["meta"; "original"; "bytes"] j
       = Some (JInt (Z.of_nat (length ob)))
    /\ json_path ["meta"; "mint"; "bytes"] j
       = Some (JInt (Z.of_nat (length mb)))
    /\ json_path ["meta"; "thumbnail"; "bytes"] j
       = Some (JInt (Z.of_nat (length tb))).
Proof.
  intros Hm. main_returned Hm.
  exists (manifest env args mime ow oh ob md td).
  exists (input_path env args), (mint_path env args), (thumb_path env args).
  exists ob, md, td.
  split; [ exact Hout | ].
  split; [ reflexivity | ]. split; [ reflexivity | ]. split; [ reflexivity | ].
  split; [ exact Hob | ].
  split.
  { rewrite Hfiles.
    rewrite lookup_insert_ne by apply not_eq_sym, mint_thumb_distinct.
    apply lookup_insert_eq. }
  split; [ rewrite Hfiles; apply lookup_insert_eq | ].
  split; [ | split ].
  - change ["meta"; "original"; "bytes"]
      with (["meta"; "original"] ++ ["bytes"])%list.
    rewrite (json_path_app _ _ _ _ (manifest_original _ _ _ _ _ _ _ _)).
    reflexivity.
  - change ["meta"; "mint"; "bytes"] with (["meta"; "mint"] ++ ["bytes"])%list.
    rewrite (json_path_app _ _ _ _ (manifest_mint _ _ _ _ _ _ _ _)).
    reflexivity.
  - change ["meta"; "thumbnail"; "bytes"]
      with (["meta"; "thumbnail"] ++ ["bytes"])%list.
    rewrite (json_path_app _ _ _ _ (manifest_thumbnail _ _ _ _ _ _ _ _)).
    reflexivity.
Qed.

(** X3.  When [main] returns and the input is neither of the two
    rendition files, the input file is left as it was, and the
    [original] entry of the manifest describes it: its size, the
    digest of its bytes, and the width and height of the image that
    was decoded from them.  The three files are named by their
    canonical paths, so that different paths are different files:
    the file system has no links and no path is spelled with a
    leading [//]. *)
Theorem input_is_kept (env : Env) (args : Args) (w w' : World)
    (status : Z) :
  main env args w = (Ok status, w') ->
  canonical (input_path env args) ->
  canonical (mint_path env args) ->
  canonical (thumb_path env args) ->
  input_path env args <> mint_path env args ->
  input_path env args <> thumb_path env args ->
  exists data im j,
    files w !! input_path env args = Some data
    /\ files w' !! input_path env args = Some data
    /\ identify (input_path env args) data = Ok im
    /\ stdout w' = (stdout w ++ [Dumps j])%list
    /\ json_path ["meta"; "original"; "bytes"] j
       = Some (JInt (Z.of_nat (length data)))
    /\ json_path ["meta"; "original"; "sha256"] j
       = Some (JStr (hexdigest (sha256_of data)))
    /\ json_path ["meta"; "original"; "width"] j
       = Some (JInt (fst (im_size im)))
    /\ json_path ["meta"; "original"; "height"] j
       = Some (JInt (snd (im_size im))).
Proof.
  intros Hm _ _ _ N1 N2. main_returned Hm.
  assert (Hkept : files w' !! input_path env args = Some data).
  { rewrite Hfiles. rewrite !lookup_insert_ne by congruence. exact Hdata. }
  assert (ob = data) as -> by congruence.
  apply validate_ok_inv in Hv as (Hsz & _).
  exists data, im, (manifest env args mime ow oh data md td).
  rewrite Hsz. cbn [fst snd].
  repeat split; auto;
    match goal with
    | |- json_path ["meta"; "original"; ?k] _ = _ =>
        change ["meta"; "original"; k] with (["meta"; "original"] ++ [k])%list;
        rewrite (json_path_app _ _ _ _ (manifest_original _ _ _ _ _ _ _ _));
        reflexivity
    end.
Qed.

(** X4.  When [main] returns and the input path is the path of the
    mint rendition, the input has been overwritten before it is read
    back: the [original] entry of the manifest reports the size and
    the digest of the rendition file (so [original.bytes] equals
    [mint.bytes]), next to the width and the height of the image that
    was decoded.  Likewise for the thumbnail. *)
Theorem input_read_back_after_saving (env : Env) (args : Args)
    (w w' : World) (status : Z) :
  main env args w = (Ok status, w') ->
  exists j data im md td,
    stdout w' = (stdout w ++ [Dumps j])%list
    /\ files w !! input_path env args = Some data
    /\ identify (input_path env args) data = Ok im
    /\ files w' !! mint_path env args = Some md
    /\ files w' !! thumb_path env args = Some td
    /\ json_path ["meta"; "original"; "width"] j
       = Some (JInt (fst (im_size im)))
    /\ json_path ["meta"; "original"; "height"] j
       = Some (JInt (snd (im_size im)))
    /\ (input_path env args = mint_path env args ->
        json_path ["meta"; "original"; "bytes"] j
        = json_path ["meta"; "mint"; "bytes"] j
        /\ json_path ["meta"; "original"; "sha256"] j
           = Some (JStr (hexdigest (sha256_of md))))
    /\ (input_path env args = thumb_path env args ->
        json_path ["meta"; "original"; "bytes"] j
        = json_path ["meta"; "thumbnail"; "bytes"] j
        /\ json_path ["meta"; "original"; "sha256"] j
           = Some (JStr (hexdigest (sha256_of td)))).
Proof.
  intros Hm. main_returned Hm.
  assert (Hmd : files w' !! mint_path env args = Some md).
  { rewrite Hfiles.
    rewrite lookup_insert_ne by apply not_eq_sym, mint_thumb_distinct.
    apply lookup_insert_eq. }
  assert (Htd : files w' !! thumb_path env args = Some td)
    by (rewrite Hfiles; apply lookup_insert_eq).
  apply validate_ok_inv in Hv as (Hsz & _).
  exists (manifest env args mime ow oh ob md td), data, im, md, td.
  rewrite Hsz. cbn [fst snd].
  assert (Ho : forall k,
    json_path ["meta"; "original"; k] (manifest env args mime ow oh ob md td)
    = json_path [k]
        (JObj
           [ ("filename", JStr (basename (input_path env args)));
             ("mime", JStr mime);
             ("bytes", JInt (Z.of_nat (length ob)));
             ("width", JInt ow);
             ("height", JInt oh);
             ("sha256", JStr (hexdigest (sha256_of ob))) ])).
  { intros k.
    change ["meta"; "original"; k] with (["meta"; "original"] ++ [k])%list.
    apply json_path_app, manifest_original. }
  split; [ exact Hout | ]. split; [ exact Hdata | ]. split; [ exact Hid | ].
  split; [ exact Hmd | ]. split; [ exact Htd | ].
  split; [ rewrite Ho; reflexivity | ]. split; [ rewrite Ho; reflexivity | ].
  split; intros E; rewrite E in Hob.
  - assert (ob = md) as -> by congruence. rewrite !Ho.
    change ["meta"; "mint"; "bytes"] with (["meta"; "mint"] ++ ["bytes"])%list.
    rewrite (json_path_app _ _ _ _ (manifest_mint _ _ _ _ _ _ _ _)).
    split; reflexivity.
  - assert (ob = td) as -> by congruence. rewrite !Ho.
    change ["meta"; "thumbnail"; "bytes"]
      with (["meta"; "thumbnail"] ++ ["bytes"])%list.
    rewrite (json_path_app _ _ _ _ (manifest_thumbnail _ _ _ _ _ _ _ _)).
    split; reflexivity.
Qed.

End Manifest.

(** * Runs of the script: failures and a second run *)

Section Outcomes.
Context `{Pillow}.



(** X8.  Running [main] again after a run that returned, on an input
    that is neither rendition file and from the same current
    directory, returns again and changes neither the files nor the
    directories: both renditions are rewritten with the bytes they
    hold.  The second manifest differs from the first at most in
    [createdAt], the clock reading being that of the second run.  The
    three files are named by their canonical paths, so that different
    paths are different files: the file system has no links and no
    path is spelled with a leading [//]. *)
Theorem rerun_changes_nothing (env env2 : Env) (args : Args) (w w' : World)
    (status : Z) :
  main env args w = (Ok status, w') ->
  canonical (input_path env args) ->
  canonical (mint_path env args) ->
  canonical (thumb_path env args) ->
  input_path env args <> mint_path env args ->
  input_path env args <> thumb_path env args ->
  cwd env2 = cwd env ->
  exists w'' mime ow oh ob md td,
    main env2 args w' = (Ok 0, w'')
    /\ files w'' = files w'
    /\ dirs w'' = dirs w'
    /\ stderr w'' = stderr w'
    /\ stdout w' = (stdout w ++ [Dumps (manifest env args mime ow oh ob md td)])%list
    /\ stdout w'' = (stdout w' ++ [Dumps (manifest env2 args mime ow oh ob md td)])%list.
Proof.
  intros Hm _ _ _ N1 N2 Hcwd.
  destruct (main_ok_rendered _ _ _ _ _ Hm)
    as (w1 & data & im & mime & ow & oh & mint_img & thumb_img & R & Hw).
  destruct (write_out_ok_inv _ _ _ _ _ _ _ _ _ _ Hw) as (Dm & Dt).
  destruct R as (Hmk & Hdata & Hid & Hv & Hrm & Hrt).
  destruct (main_ok_inv _ _ _ _ _ Hm)
    as (w1' & data' & im' & mime' & ow' & oh' & mi' & ti' & md & td & ob
        & Hmk' & Hdata' & Hid' & Hv' & Hrm' & Hrt' & Hem & Het & Hfiles
        & Hob & Hdirs & Hstatus & Hout & Herr).
  rewrite Hmk in Hmk'. injection Hmk' as <-.
  rewrite Hdata in Hdata'. injection Hdata' as <-.
  rewrite Hid in Hid'. injection Hid' as <-.
  rewrite Hv in Hv'. injection Hv' as <- <- <-.
  rewrite Hrm in Hrm'. injection Hrm' as <-.
  rewrite Hrt in Hrt'. injection Hrt' as <-.
  assert (Ei : input_path env2 args = input_path env args)
    by (unfold input_path; rewrite Hcwd; reflexivity).
  assert (Eo : out_dir_path env2 args = out_dir_path env args)
    by (unfold out_dir_path; rewrite Hcwd; reflexivity).
  assert (Em : mint_path env2 args = mint_path env args)
    by (unfold mint_path; rewrite Eo; reflexivity).
  assert (Et : thumb_path env2 args = thumb_path env args)
    by (unfold thumb_path; rewrite Eo; reflexivity).
  fold (written env args md td (files w)) in Hfiles.
  assert (Hkept : files w' !! input_path env args = Some data).
  { rewrite Hfiles, written_other by assumption. exact Hdata. }
  assert (ob = data) as -> by congruence.
  assert (Hdir : out_dir_path env args ∈ dirs w').
  { rewrite Hdirs. exact (makedirs_ok_dir _ _ _ Hmk). }
  assert (R2 : rendered env2 args w' w' data im mime ow oh mint_img thumb_img).
  { unfold rendered. rewrite Ei, Eo.
    split; [ apply makedirs_existing; exact Hdir | auto 10 ]. }
  assert (Hw2 : written env2 args md td (files w') = files w').
  { unfold written. rewrite Em, Et.
    fold (written env args md td (files w')).
    rewrite Hfiles. apply written_twice. }
  eexists _, mime, ow, oh, data, md, td.
  split.
  { rewrite (main_rendered _ _ _ _ _ _ _ _ _ _ _ R2).
    apply (write_out_returns env2 args mime ow oh mint_img thumb_img w' md td
             data).
    - rewrite Em, Hdirs. exact Dm.
    - rewrite Et, Hdirs. exact Dt.
    - exact Hem.
    - exact Het.
    - rewrite Hw2, Ei. exact Hkept. }
  cbn [files dirs stdout stderr].
  repeat split; auto.
Qed.

End Outcomes.

(** * The further properties on concrete runs *)

Lemma script_touches_only_renditions_witness :
  files (snd (Toy.run "cat.jpg" Toy.cat_file)) !! "/home/art/in/cat.jpg"
  = Some Toy.cat_file
  /\ files (snd (Toy.run "cat.jpg" Toy.cat_file)) !! "/home/art/notes.txt" = None
  /\ dirs Cases.cat_world ⊆ dirs (snd (Toy.run "cat.jpg" Toy.cat_file)).
Proof.
  destruct (@script_touches_only_renditions Toy.pillow Toy.env
              (Toy.flags "cat.jpg") Cases.cat_world)
    as (Hfiles & Hdirs & _).
  - vm_compute. repeat split.
  - vm_compute. repeat split.
  - split; [ | split; [ | exact Hdirs ] ].
    + etransitivity; [ apply (Hfiles "/home/art/in/cat.jpg") | ];
        [ vm_compute; repeat split | vm_compute; discriminate
        | vm_compute; discriminate | vm_compute; reflexivity ].
    + etransitivity; [ apply (Hfiles "/home/art/notes.txt") | ];
        [ vm_compute; repeat split | vm_compute; discriminate
        | vm_compute; discriminate | vm_compute; reflexivity ].
Defined.

Lemma manifest_describes_files_witness :
  exists j original mint thumb ob mb tb,
    stdout (snd (Toy.run_main "cat.jpg" Toy.cat_file)) = [Dumps j]
    /\ json_path ["files"; "originalPath"] j = Some (JStr original)
    /\ json_path ["files"; "mintPath"] j = Some (JStr mint)
    /\ json_path ["files"; "thumbnailPath"] j = Some (JStr thumb)
    /\ files (snd (Toy.run_main "cat.jpg" Toy.cat_file)) !! original = Some ob
    /\ files (snd (Toy.run_main "cat.jpg" Toy.cat_file)) !! mint = Some mb
    /\ files (snd (Toy.run_main "cat.jpg" Toy.cat_file)) !! thumb = Some tb
    /\ json_path ["meta"; "original"; "bytes"] j
       = Some (JInt (Z.of_nat (length ob)))
    /\ json_path ["meta"; "mint"; "bytes"] j
       = Some (JInt (Z.of_nat (length mb)))
    /\ json_path ["meta"; "thumbnail"; "bytes"] j
       = Some (JInt (Z.of_nat (length tb))).
Proof.
  apply (@manifest_describes_files Toy.pillow Toy.env Cases.cat_args
           Cases.cat_world (snd (Toy.run_main "cat.jpg" Toy.cat_file)) 0).
  vm_compute. reflexivity.
Defined.

Lemma input_is_kept_witness :
  exists data im j,
    files Cases.cat_world !! "/home/art/in/cat.jpg" = Some data
    /\ files (snd (Toy.run_main "cat.jpg" Toy.cat_file)) !! "/home/art/in/cat.jpg"
       = Some data
    /\ Toy.toy_identify "/home/art/in/cat.jpg" data = Ok im
    /\ stdout (snd (Toy.run_main "cat.jpg" Toy.cat_file)) = [Dumps j]
    /\ json_path ["meta"; "original"; "bytes"] j
       = Some (JInt (Z.of_nat (length data)))
    /\ json_path ["meta"; "original"; "sha256"] j
       = Some (JStr (hexdigest (sha256_of data)))
    /\ json_path ["meta"; "original"; "width"] j
       = Some (JInt (fst (im_size im)))
    /\ json_path ["meta"; "original"; "height"] j
       = Some (JInt (snd (im_size im))).
Proof.
  apply (@input_is_kept Toy.pillow Toy.env Cases.cat_args Cases.cat_world
           (snd (Toy.run_main "cat.jpg" Toy.cat_file)) 0).
  - vm_compute. reflexivity.
  - vm_compute. repeat split.
  - vm_compute. repeat split.
  - vm_compute. repeat split.
  - vm_compute. discriminate.
  - vm_compute. discriminate.
Defined.

Lemma input_read_back_after_saving_witness :
  exists j,
    stdout (snd (@main Toy.pillow Toy.env (parse_args Cases.overwriting_flags)
                   Cases.overwriting_world)) = [Dumps j]
    /\ json_path ["meta"; "original"; "bytes"] j
       = json_path ["meta"; "mint"; "bytes"] j
    /\ json_path ["meta"; "original"; "width"] j = Some (JInt 4000).
Proof.
  destruct (@input_read_back_after_saving Toy.pillow Toy.env
              (parse_args Cases.overwriting_flags) Cases.overwriting_world
              (snd (@main Toy.pillow Toy.env (parse_args Cases.overwriting_flags)
                      Cases.overwriting_world)) 0)
    as (j & data & im & md & td & Hout & Hdata & Hid & _ & _ & Hw & _ & Hmint & _).
  { vm_compute. reflexivity. }
  vm_compute in Hdata. injection Hdata as <-.
  vm_compute in Hid. injection Hid as <-.
  exists j. split; [ exact Hout | ].
  split; [ apply Hmint; vm_compute; reflexivity | exact Hw ].
Defined.



Lemma rerun_changes_nothing_witness :
  exists w'',
    @main Toy.pillow Cases.later Cases.cat_args
      (snd (Toy.run_main "cat.jpg" Toy.cat_file)) = (Ok 0, w'')
    /\ files w'' = files (snd (Toy.run_main "cat.jpg" Toy.cat_file))
    /\ dirs w'' = dirs (snd (Toy.run_main "cat.jpg" Toy.cat_file)).
Proof.
  destruct (@rerun_changes_nothing Toy.pillow Toy.env Cases.later Cases.cat_args
              Cases.cat_world (snd (Toy.run_main "cat.jpg" Toy.cat_file)) 0)
    as (w'' & mime & ow & oh & ob & md & td & Hrun & Hf & Hd & _).
  - vm_compute. reflexivity.
  - vm_compute. repeat split.
  - vm_compute. repeat split.
  - vm_compute. repeat split.
  - vm_compute. discriminate.
  - vm_compute. discriminate.
  - reflexivity.
  - exists w''. auto.
Defined.

(** * The resized image keeps the proportions of the source *)

(** The side of the resized image along the shorter side [dim] of the
    source, for a scale that is [q = side / long] up to rounding. *)
Lemma scaled_dim_near (dim long side : Z) (scale q f : Q) (r : Z) :
  1 <= dim -> dim <= long -> dimension side ->
  float_of_int dim = Ok f ->
  (q * inject_Z long == inject_Z side)%Q ->
  (0 <= scale)%Q ->
  (q * (1 - ulp_half) - eta <= scale)%Q ->
  (scale <= q * (1 + ulp_half) + eta)%Q ->
  scaled_dim dim scale = Ok r ->
  exists n,
    r = Z.max 1 n
    /\ (Qabs (inject_Z n - inject_Z dim * q) <= (1 # 2) + (1 # 1000000))%Q.
Proof.
  intros Hd Hlong Hs Hf Hq Hsc0 Hlo Hup Hr.
  pose proof (positive_Q dim Hd) as D1.
  assert (L1 : (inject_Z dim <= inject_Z long)%Q)
    by (rewrite <- Zle_Qle; exact Hlong).
  pose proof (dimension_Q side Hs) as [S1 S2].
  destruct (float_of_int_inv dim f Hd Hf) as ([F1 F2] & Deta).
  pose proof eta_le as He. pose proof eta_pos as Hp.
  unfold ulp_half in *.
  set (D := inject_Z dim) in *. set (S := inject_Z side) in *.
  set (L := inject_Z long) in *.
  assert (Q0 : (0 <= q)%Q) by nra.
  assert (F0 : (0 <= f)%Q) by lra.
  assert (X1 : (0 <= D * q)%Q) by (apply Qmult_le_0_compat; lra).
  assert (X2 : (D * q <= S)%Q) by nra.
  assert (B1 : (f * q <= D * q * (1 + (1 # 9007199254740992)))%Q) by nra.
  assert (B2 : (D * q * (1 - (1 # 9007199254740992)) <= f * q)%Q) by nra.
  assert (B3 : (0 <= f * eta)%Q) by (apply Qmult_le_0_compat; lra).
  assert (B3' : (f * eta <= (1 + (1 # 9007199254740992)) * (D * eta))%Q) by nra.
  assert (B4 : (f * scale
                <= f * q * (1 + (1 # 9007199254740992)) + f * eta)%Q) by nra.
  assert (B5 : (f * q * (1 - (1 # 9007199254740992)) - f * eta
                <= f * scale)%Q) by nra.
  assert (B0 : (0 <= f * scale)%Q) by (apply Qmult_le_0_compat; lra).
  set (X := (f * scale)%Q) in *. set (fq := (f * q)%Q) in *.
  set (fe := (f * eta)%Q) in *. set (de := (D * eta)%Q) in *.
  set (x := (D * q)%Q) in *.
  destruct (float_mul_finite f scale) as (p & Hp' & M1 & M2);
    [ exact B0 | fold X; clearbody X fq fe de x; lra | ].
  fold X in M1, M2. unfold ulp_half in M1, M2.
  unfold scaled_dim, int_mul_float in Hr. rewrite Hf in Hr.
  cbn [rbind] in Hr. rewrite Hp' in Hr. cbn [py_round rbind] in Hr.
  injection Hr as <-.
  exists (round_half_even p). split; [ reflexivity | ].
  pose proof (round_half_even_err p) as [E1 E2].
  set (n := inject_Z (round_half_even p)) in *.
  apply Qabs_Qle_condition.
  clearbody X fq fe de x n. split; lra.
Qed.

Lemma contain_layout_near (side src_w src_h : Z) (l : Layout) :
  dimension side -> 1 <= src_w -> 1 <= src_h ->
  contain_layout side src_w src_h = Ok l ->
  (src_h <= src_w ->
   exists n,
     out_h l = Z.max 1 n
     /\ (Qabs (inject_Z n - inject_Z (side * src_h) / inject_Z src_w)
         <= (1 # 2) + (1 # 1000000))%Q)
  /\ (src_w <= src_h ->
      exists n,
        out_w l = Z.max 1 n
        /\ (Qabs (inject_Z n - inject_Z (side * src_w) / inject_Z src_h)
            <= (1 # 2) + (1 # 1000000))%Q).
Proof.
  intros Hs Hw Hh Hl.
  destruct (contain_scale_spec side src_w src_h Hs Hw Hh)
    as (scale & qw & qh & Hscale & Hqw & Hqh & Sc0 & Wup & Hup & Wlow & Hlow).
  unfold contain_layout in Hl. rewrite Hscale in Hl. cbn [rbind] in Hl.
  destruct (scaled_dim src_w scale) as [w | e] eqn:Ew; [ | discriminate ].
  cbn [rbind] in Hl.
  destruct (scaled_dim src_h scale) as [h | e] eqn:Eh; [ | discriminate ].
  cbn [rbind] in Hl. injection Hl as <-. cbn [out_w out_h].
  assert (Fw : exists f, float_of_int src_w = Ok f).
  { unfold scaled_dim, int_mul_float in Ew.
    destruct (float_of_int src_w); [ eauto | discriminate ]. }
  assert (Fh : exists f, float_of_int src_h = Ok f).
  { unfold scaled_dim, int_mul_float in Eh.
    destruct (float_of_int src_h); [ eauto | discriminate ]. }
  destruct Fw as [fw Fw]. destruct Fh as [fh Fh].
  pose proof (positive_Q src_w Hw) as W1.
  pose proof (positive_Q src_h Hh) as H1.
  assert (Exact : forall (dim long : Z) (q : Q),
    (1 <= inject_Z long)%Q -> (q * inject_Z long == inject_Z side)%Q ->
    (inject_Z dim * q == inject_Z (side * dim) / inject_Z long)%Q).
  { intros dim long q L1 Eq. rewrite inject_Z_mult.
    apply (Qmult_inj_r _ _ (inject_Z long)); [ lra | ].
    assert (E2 : (inject_Z side * inject_Z dim / inject_Z long * inject_Z long
                  == inject_Z side * inject_Z dim)%Q) by (field; lra).
    rewrite E2, <- Eq. ring. }
  split; intros Hle.
  - destruct (scaled_dim_near src_h src_w side scale qw fh h Hh Hle Hs Fh Hqw
                Sc0 (Wlow Hle) Wup Eh) as (n & -> & Hn).
    exists n. split; [ reflexivity | ].
    rewrite <- (Exact src_h src_w qw W1 Hqw). exact Hn.
  - destruct (scaled_dim_near src_w src_h side scale qh fw w Hw Hle Hs Fw Hqh
                Sc0 (Hlow Hle) Hup Ew) as (n & -> & Hn).
    exists n. split; [ reflexivity | ].
    rewrite <- (Exact src_w src_h qh H1 Hqh). exact Hn.
Qed.

(** X9.  For a side [S] from 1 to [INT_MAX] and a source of width and
    height at least 1, the resized image keeps the proportions of the
    source up to rounding: it is [S] long along the longer side of the
    source, and along the shorter one its length is [max(1, n)] for an
    integer [n] within half a pixel (and a rounding error below
    1/1000000) of the exact [S * short / long]. *)
Theorem resized_image_keeps_proportions (side src_w src_h : Z) (l : Layout) :
  dimension side -> 1 <= src_w -> 1 <= src_h ->
  contain_layout side src_w src_h = Ok l ->
  (src_h <= src_w ->
   out_w l = side
   /\ exists n,
        out_h l = Z.max 1 n
        /\ (Qabs (inject_Z n - inject_Z (side * src_h) / inject_Z src_w)
            <= (1 # 2) + (1 # 1000000))%Q)
  /\ (src_w <= src_h ->
      out_h l = side
      /\ exists n,
           out_w l = Z.max 1 n
           /\ (Qabs (inject_Z n - inject_Z (side * src_w) / inject_Z src_h)
               <= (1 # 2) + (1 # 1000000))%Q).
Proof.
  intros Hs Hw Hh Hl.
  destruct (contain_layout_spec side src_w src_h l Hs Hw Hh Hl)
    as (_ & _ & _ & _ & Lw & Lh).
  destruct (contain_layout_near side src_w src_h l Hs Hw Hh Hl) as [Nh Nw].
  split; intros Hle; auto.
Qed.

(** X10.  [main] never enlarges the image: with the side
    [min(max_side, max(w, h))] it passes to the resizer, for a maximum
    side of at least 1, the resized image is at most [w] wide and at
    most [h] high. *)
Theorem renditions_are_not_enlarged (max_side src_w src_h : Z) (l : Layout) :
  1 <= max_side -> 1 <= src_w -> 1 <= src_h ->
  capped_side max_side src_w src_h <= INT_MAX ->
  contain_layout (capped_side max_side src_w src_h) src_w src_h = Ok l ->
  out_w l <= src_w /\ out_h l <= src_h.
Proof.
  intros Hm Hw Hh Hcap Hl.
  set (side := capped_side max_side src_w src_h) in *.
  assert (Hs : dimension side) by (unfold dimension, side, capped_side in *; lia).
  assert (Hmax : side <= Z.max src_w src_h) by (unfold side, capped_side; lia).
  destruct (contain_layout_spec side src_w src_h l Hs Hw Hh Hl)
    as (_ & _ & _ & _ & Lw & Lh).
  destruct (contain_layout_near side src_w src_h l Hs Hw Hh Hl) as [Nh Nw].
  pose proof (positive_Q src_w Hw) as W1.
  pose proof (positive_Q src_h Hh) as H1.
  assert (Short : forall (dim long n : Z),
    1 <= dim -> 1 <= long -> side <= long ->
    (Qabs (inject_Z n - inject_Z (side * dim) / inject_Z long)
     <= (1 # 2) + (1 # 1000000))%Q ->
    Z.max 1 n <= dim).
  { intros dim long n Hd Hlong Hsl Hn.
    apply Qabs_Qle_condition in Hn as [_ Hn].
    assert (L1 : (1 <= inject_Z long)%Q) by (apply positive_Q; exact Hlong).
    assert (D1 : (1 <= inject_Z dim)%Q) by (apply positive_Q; exact Hd).
    assert (SL : (inject_Z side <= inject_Z long)%Q)
      by (rewrite <- Zle_Qle; exact Hsl).
    assert (Hx : (inject_Z (side * dim) / inject_Z long <= inject_Z dim)%Q).
    { rewrite inject_Z_mult. apply Qle_shift_div_r; [ lra | ]. nra. }
    assert (Hlt : (inject_Z n < inject_Z (dim + 1))%Q).
    { rewrite inject_Z_plus. change (inject_Z 1) with 1%Q. lra. }
    rewrite <- Zlt_Qlt in Hlt. lia. }
  destruct (Z.le_ge_cases src_h src_w) as [Hle | Hle].
  - destruct (Nh Hle) as (n & -> & Hn). rewrite (Lw Hle).
    split; [ lia | ]. apply (Short src_h src_w n); auto; lia.
  - destruct (Nw Hle) as (n & -> & Hn). rewrite (Lh Hle).
    split; [ | lia ]. apply (Short src_w src_h n); auto; lia.
Qed.

(** X11.  An image whose longer side is within the maximum side is not
    rescaled: the side passed to the resizer is then the longer side of
    the source, and the resized image has exactly the width and the
    height of the source, so that [main] only pads it to a square. *)
Theorem small_images_keep_their_size (max_side src_w src_h : Z) (l : Layout) :
  1 <= src_w -> 1 <= src_h ->
  Z.max src_w src_h <= max_side -> Z.max src_w src_h <= INT_MAX ->
  contain_layout (capped_side max_side src_w src_h) src_w src_h = Ok l ->
  capped_side max_side src_w src_h = Z.max src_w src_h
  /\ out_w l = src_w /\ out_h l = src_h.
Proof.
  intros Hw Hh Hcap Hint Hl.
  assert (Hside : capped_side max_side src_w src_h = Z.max src_w src_h)
    by (unfold capped_side; lia).
  rewrite Hside in *. split; [ reflexivity | ].
  set (side := Z.max src_w src_h) in *.
  assert (Hs : dimension side) by (unfold dimension, side; lia).
  destruct (contain_layout_spec side src_w src_h l Hs Hw Hh Hl)
    as (_ & _ & _ & _ & Lw & Lh).
  destruct (contain_layout_near side src_w src_h l Hs Hw Hh Hl) as [Nh Nw].
  assert (Exact : forall (dim n : Z),
    1 <= dim ->
    (Qabs (inject_Z n - inject_Z (side * dim) / inject_Z side)
     <= (1 # 2) + (1 # 1000000))%Q ->
    Z.max 1 n = dim).
  { intros dim n Hd Hn.
    pose proof (positive_Q side (proj1 Hs)) as S1.
    assert (Hx : (inject_Z (side * dim) / inject_Z side == inject_Z dim)%Q)
      by (rewrite inject_Z_mult; field; lra).
    rewrite Hx in Hn. apply Qabs_Qle_condition in Hn as [Hlo Hhi].
    assert (H1 : (inject_Z (dim - 1) < inject_Z n)%Q).
    { unfold Z.sub. rewrite inject_Z_plus, inject_Z_opp.
      change (inject_Z 1) with 1%Q. lra. }
    assert (H2 : (inject_Z n < inject_Z (dim + 1))%Q).
    { rewrite inject_Z_plus. change (inject_Z 1) with 1%Q. lra. }
    rewrite <- Zlt_Qlt in H1, H2. lia. }
  destruct (Z.le_ge_cases src_h src_w) as [Hle | Hle].
  - assert (Es : side = src_w) by (unfold side; lia).
    destruct (Nh Hle) as (n & -> & Hn). rewrite (Lw Hle).
    split; [ exact Es | ]. apply Exact; [ exact Hh | ].
    rewrite Es in Hn |- *. exact Hn.
  - assert (Es : side = src_h) by (unfold side; lia).
    destruct (Nw Hle) as (n & -> & Hn). rewrite (Lh Hle).
    split; [ | exact Es ]. apply Exact; [ exact Hw | ].
    rewrite Es in Hn |- *. exact Hn.
Qed.

Lemma resized_image_keeps_proportions_witness :
  contain_layout 512 4000 2000 = Ok (mkLayout 512 256 0 128)
  /\ exists n,
       256 = Z.max 1 n
       /\ (Qabs (inject_Z n - inject_Z (512 * 2000) / inject_Z 4000)
           <= (1 # 2) + (1 # 1000000))%Q.
Proof.
  assert (Hl : contain_layout 512 4000 2000 = Ok (mkLayout 512 256 0 128))
    by (vm_compute; reflexivity).
  split; [ exact Hl | ].
  destruct (resized_image_keeps_proportions 512 4000 2000 _
              ltac:(unfold dimension, INT_MAX; lia) ltac:(lia) ltac:(lia) Hl)
    as [Hwide _].
  exact (proj2 (Hwide ltac:(lia))).
Defined.

Lemma renditions_are_not_enlarged_witness :
  exists l,
    contain_layout (capped_side 512 4000 2000) 4000 2000 = Ok l
    /\ out_w l <= 4000 /\ out_h l <= 2000.
Proof.
  exists (mkLayout 512 256 0 128).
  assert (Hl : contain_layout (capped_side 512 4000 2000) 4000 2000
               = Ok (mkLayout 512 256 0 128)) by (vm_compute; reflexivity).
  split; [ exact Hl | ].
  apply (renditions_are_not_enlarged 512 4000 2000 (mkLayout 512 256 0 128));
    [ lia | lia | lia | vm_compute; discriminate | exact Hl ].
Defined.

Lemma small_images_keep_their_size_witness :
  contain_layout (capped_side 4096 1920 1080) 1920 1080
  = Ok (mkLayout 1920 1080 0 420)
  /\ capped_side 4096 1920 1080 = Z.max 1920 1080.
Proof.
  assert (Hl : contain_layout (capped_side 4096 1920 1080) 1920 1080
               = Ok (mkLayout 1920 1080 0 420)) by (vm_compute; reflexivity).
  split; [ exact Hl | ].
  apply (small_images_keep_their_size 4096 1920 1080
           (mkLayout 1920 1080 0 420));
    [ lia | lia | lia | vm_compute; discriminate | exact Hl ].
Defined.

(** * How the resizer can fail *)

Lemma int_truediv_raises (a b : Z) (e : exn) :
  b <> 0 -> int_truediv a b = Raise e -> exn_cls e = OverflowError.
Proof.
  intros Hb. unfold int_truediv.
  destruct (Z.eqb_spec b 0); [ contradiction | ].
  destruct (overflows _); [ | discriminate ].
  intros [= <-]. reflexivity.
Qed.

Lemma scaled_dim_raises (dim : Z) (scale : Q) (e : exn) :
  scaled_dim dim scale = Raise e -> exn_cls e = OverflowError.
Proof.
  unfold scaled_dim, int_mul_float, float_of_int.
  destruct (overflows (round_b64 (inject_Z dim))); cbn [rbind].
  { intros [= <-]. reflexivity. }
  destruct (float_mul _ scale); cbn [py_round rbind]; [ discriminate | ].
  intros [= <-]. reflexivity.
Qed.

Section Failures.
Context `{Pillow}.

(** X12.  On a source whose pixels decode, the resizer raises
    [ValueError] with the message [Invalid source dimensions] when the
    width or the height is zero, whatever the side asked for.  On a
    source whose width and height are not zero, the computation of the
    scale and of the two sides of the resized image never divides by
    zero: it returns them, or raises [OverflowError] for a side too
    large for a [float]. *)
Theorem zero_sided_source_is_refused (src : Image) (side : Z)
    (px : Z -> Z -> pixel) :
  im_load src = Ok px ->
  (fst (im_size src) = 0 \/ snd (im_size src) = 0 ->
   render_square_contain src side
   = Raise (Exn ValueError "Invalid source dimensions"))
  /\ (fst (im_size src) <> 0 -> snd (im_size src) <> 0 ->
      forall e,
        contain_layout side (fst (im_size src)) (snd (im_size src)) = Raise e ->
        exn_cls e = OverflowError).
Proof.
  intros Hload. split.
  - unfold render_square_contain, convert.
    rewrite Hload. cbn [rbind im_size].
    destruct (im_size src) as [src_w src_h]. cbn [fst snd].
    intros Hz.
    destruct (Z.eqb_spec src_w 0) as [_ | Nw]; [ reflexivity | ].
    destruct (Z.eqb_spec src_h 0) as [_ | Nh]; [ reflexivity | lia ].
  - destruct (im_size src) as [src_w src_h]. cbn [fst snd].
    intros Hw Hh e. unfold contain_layout, contain_scale.
    destruct (int_truediv side src_w) as [a | ea] eqn:Ea; cbn [rbind].
    2: { intros [= <-]. exact (int_truediv_raises side src_w _ Hw Ea). }
    destruct (int_truediv side src_h) as [b | eb] eqn:Eb; cbn [rbind].
    2: { intros [= <-]. exact (int_truediv_raises side src_h _ Hh Eb). }
    destruct (scaled_dim src_w (float_min a b)) as [ow | ew] eqn:Eow;
      cbn [rbind].
    2: { intros [= <-]. exact (scaled_dim_raises _ _ _ Eow). }
    destruct (scaled_dim src_h (float_min a b)) as [oh | eh] eqn:Eoh;
      cbn [rbind].
    2: { intros [= <-]. exact (scaled_dim_raises _ _ _ Eoh). }
    discriminate.
Qed.

End Failures.

Lemma zero_sided_source_is_refused_witness :
  @render_square_contain Toy.pillow Toy.dog 512
  = Raise (Exn ValueError "Invalid source dimensions")
  /\ exists e,
       contain_layout (2 ^ 1100) 4000 2000 = Raise e
       /\ exn_cls e = OverflowError.
Proof.
  split.
  - apply (@zero_sided_source_is_refused Toy.pillow Toy.dog 512
             (fun _ _ => (128, 0, 0, 0)) eq_refl).
    left. reflexivity.
  - destruct (contain_layout (2 ^ 1100) 4000 2000) as [l | e] eqn:E;
      [ vm_compute in E; discriminate E | ].
    exists e. split; [ reflexivity | ].
    apply (@zero_sided_source_is_refused Toy.pillow Toy.cat (2 ^ 1100)
             (fun _ _ => (128, 0, 0, 0)) eq_refl);
      [ cbn; lia | cbn; lia | exact E ].
Defined.

(** * Rounding below zero, and sides that are not positive *)

Lemma Qmag_opp (x : Q) : Qmag (- x) = Qmag x.
Proof.
  destruct x as [n d]. unfold Qmag, Qopp, Qabs. cbn [Qnum Qden].
  rewrite Z.abs_opp. reflexivity.
Qed.

Lemma round_b64_nonpos (x : Q) : (x <= 0)%Q -> (round_b64 x <= 0)%Q.
Proof.
  intros Hx. unfold round_b64. rewrite Qred_correct.
  set (e := Z.max _ _).
  pose proof (pow2_pos e) as Pe. pose proof (pow2_pos (- e)) as Pi.
  assert (Hy : (x * 2 ^ (- e) <= 0)%Q) by nra.
  assert (Hn : round_half_even (x * 2 ^ (- e)) <= 0).
  { apply round_half_even_below. change (inject_Z 0) with 0%Q. lra. }
  assert (Hq : (inject_Z (round_half_even (x * 2 ^ (- e))) <= 0)%Q).
  { change 0%Q with (inject_Z 0). rewrite <- Zle_Qle. exact Hn. }
  set (r := inject_Z _) in *. clearbody r. nra.
Qed.

(** Rounding a number that is not positive moves it down by at most a
    relative [2^-53] or, below the normal range, by [eta]. *)
Lemma round_b64_lower (x : Q) :
  (x <= 0)%Q -> (x * (1 + ulp_half) - eta <= round_b64 x)%Q.
Proof.
  intros Hx. pose proof eta_pos as He. unfold ulp_half.
  destruct (Qlt_le_dec x 0) as [Hneg | Hz].
  2:{ assert (E0 : (x == 0)%Q) by lra.
      rewrite (round_b64_zero x E0), E0. lra. }
  assert (Hpos : (0 < - x)%Q) by lra.
  destruct (Qmag_spec (- x) Hpos) as [Hlo _]. rewrite Qmag_opp in Hlo.
  unfold round_b64. rewrite Qred_correct.
  set (e := Z.max (Qmag x - 53) (-1074)).
  destruct (round_half_even_err (x * 2 ^ (- e))) as [R1 _].
  set (r := inject_Z (round_half_even (x * 2 ^ (- e)))) in *.
  pose proof (pow2_pos e) as Pe.
  assert (Hinv : (2 ^ (- e) * 2 ^ e == 1)%Q).
  { rewrite <- pow2_add. replace (- e + e) with 0 by lia. reflexivity. }
  assert (Hhalf : ((1 # 2) * 2 ^ e <= - x * (1 # 9007199254740992) + eta)%Q).
  { destruct (Z_lt_le_dec (-1022) (Qmag x)) as [Hn | Hs].
    - assert (E : (2 ^ e == 2 ^ (Qmag x - 1) * (1 # 4503599627370496))%Q).
      { replace e with ((Qmag x - 1) + (-52)) by (unfold e; lia).
        rewrite pow2_add. reflexivity. }
      rewrite E. set (A := (2 ^ (Qmag x - 1))%Q) in *. clearbody A. lra.
    - assert (E : ((1 # 2) * 2 ^ e == eta)%Q).
      { unfold eta. replace e with (-1075 + 1) by (unfold e; lia).
        rewrite pow2_succ. field. }
      rewrite E. lra. }
  set (P := (2 ^ e)%Q) in *. set (I := (2 ^ (- e))%Q) in *.
  assert (U2 : ((x * I - (1 # 2)) * P <= r * P)%Q)
    by (apply Qmult_le_compat_r; lra).
  assert (E2 : ((x * I - (1 # 2)) * P == x - (1 # 2) * P)%Q).
  { transitivity (x * (I * P) - (1 # 2) * P)%Q; [ ring | rewrite Hinv; ring ]. }
  clearbody r P I. lra.
Qed.

Lemma overflows_false_neg (r : Q) :
  (- 18446744073709551616 < r)%Q -> (r <= 0)%Q -> overflows r = false.
Proof.
  intros Hlo Hhi. unfold overflows.
  destruct (Qle_bool (2 ^ 1024) (Qabs r)) eqn:E; [ | reflexivity ].
  apply Qle_bool_iff in E. rewrite (Qabs_neg r Hhi) in E.
  pose proof huge_ge. lra.
Qed.

(** [side / dim] for a side that is not positive. *)
Lemma int_truediv_nonpos (side dim : Z) :
  - INT_MAX <= side <= 0 -> 1 <= dim ->
  exists r,
    int_truediv side dim = Ok r /\ (- 2147483648 <= r <= 0)%Q.
Proof.
  intros Hs Hd. unfold INT_MAX in Hs.
  pose proof (positive_Q dim Hd) as D1.
  assert (S1 : (- 2147483647 <= inject_Z side)%Q).
  { change (- 2147483647)%Q with (inject_Z (- 2147483647)).
    rewrite <- Zle_Qle. lia. }
  assert (S2 : (inject_Z side <= 0)%Q).
  { change 0%Q with (inject_Z 0). rewrite <- Zle_Qle. lia. }
  set (S := inject_Z side) in *. set (D := inject_Z dim) in *.
  assert (Hq : (S / D * D == S)%Q) by (field; lra).
  set (q := (S / D)%Q) in *.
  assert (Q1 : (q <= 0)%Q) by nra.
  assert (Q2 : (- 2147483647 <= q)%Q) by nra.
  pose proof (round_b64_nonpos q Q1) as R1.
  pose proof (round_b64_lower q Q1) as R2. unfold ulp_half in R2.
  pose proof eta_le as He.
  exists (round_b64 q). unfold int_truediv.
  destruct (Z.eqb_spec dim 0); [ lia | ].
  fold S D q. rewrite overflows_false_neg; [ | lra | exact R1 ].
  split; [ reflexivity | lra ].
Qed.

(** [max(1, int(round(dim * scale)))] for a scale that is not positive. *)
Lemma scaled_dim_nonpos (dim : Z) (scale : Q) :
  dimension dim -> (- 2147483648 <= scale <= 0)%Q ->
  scaled_dim dim scale = Ok 1.
Proof.
  intros Hd [Sc1 Sc2].
  destruct (float_of_int_dimension dim Hd) as [f Hf].
  destruct (float_of_int_inv dim f (proj1 Hd) Hf) as ([F1 F2] & _).
  pose proof (dimension_Q dim Hd) as [D1 D2]. unfold ulp_half in *.
  set (D := inject_Z dim) in *.
  assert (F0 : (0 <= f)%Q) by lra.
  assert (F3 : (f <= 4294967296)%Q) by lra.
  assert (X1 : (f * scale <= 0)%Q) by nra.
  assert (X2 : (- 9223372036854775808 <= f * scale)%Q) by nra.
  pose proof (round_b64_nonpos _ X1) as R1.
  pose proof (round_b64_lower _ X1) as R2. unfold ulp_half in R2.
  pose proof eta_le as He.
  unfold scaled_dim, int_mul_float. rewrite Hf. cbn [rbind].
  unfold float_mul.
  set (p := round_b64 (f * scale)) in *. set (X := (f * scale)%Q) in *.
  rewrite overflows_false_neg; [ | clearbody p X; lra | exact R1 ].
  cbn [py_round rbind].
  assert (Hn : round_half_even p <= 0).
  { apply round_half_even_below. change (inject_Z 0) with 0%Q. lra. }
  f_equal. lia.
Qed.

(** The layout for a side that is not positive: a resized image of one
    pixel, to be pasted outside the canvas. *)
Lemma contain_layout_nonpos (side src_w src_h : Z) :
  - INT_MAX <= side <= 0 -> dimension src_w -> dimension src_h ->
  contain_layout side src_w src_h
  = Ok (mkLayout 1 1 (paste_offset side 1) (paste_offset side 1)).
Proof.
  intros Hs Hw Hh.
  destruct (int_truediv_nonpos side src_w Hs (proj1 Hw)) as (a & Ha & A1 & A2).
  destruct (int_truediv_nonpos side src_h Hs (proj1 Hh)) as (b & Hb & B1 & B2).
  assert (Hscale : (- 2147483648 <= float_min a b <= 0)%Q).
  { destruct (float_min_cases a b) as ([-> | ->] & _); split; assumption. }
  unfold contain_layout, contain_scale. rewrite Ha, Hb. cbn [rbind].
  rewrite (scaled_dim_nonpos src_w _ Hw Hscale). cbn [rbind].
  rewrite (scaled_dim_nonpos src_h _ Hh Hscale). reflexivity.
Qed.

Section NegativeSide.
Context `{Pillow}.

Lemma render_negative_side (src rgba resized : Image) (side : Z) :
  dimension (fst (im_size src)) -> dimension (snd (im_size src)) ->
  - INT_MAX <= side < 0 ->
  convert src "RGBA" = Ok rgba ->
  resize rgba (1, 1) = Ok resized ->
  render_square_contain src side
  = Raise (Exn ValueError "Width and height must be >= 0").
Proof.
  intros Hw Hh Hs Hc Hrs.
  pose proof (contain_layout_nonpos side _ _ ltac:(lia) Hw Hh) as Hl.
  assert (Hsz : im_size rgba = im_size src).
  { unfold convert in Hc. destruct (im_load src); [ | discriminate ].
    cbn [rbind] in Hc. injection Hc as <-. reflexivity. }
  unfold render_square_contain. rewrite Hc. cbn [rbind]. rewrite Hsz.
  destruct (im_size src) as [src_w src_h]. cbn [fst snd] in *.
  unfold dimension in Hw, Hh.
  destruct (Z.eqb_spec src_w 0); [ lia | ].
  destruct (Z.eqb_spec src_h 0); [ lia | ]. cbn [orb].
  unfold contain_layout in Hl.
  destruct (contain_scale side src_w src_h) as [scale | e]; [ | discriminate ].
  cbn [rbind] in Hl |- *.
  destruct (scaled_dim src_w scale) as [ow | e]; [ | discriminate ].
  cbn [rbind] in Hl |- *.
  destruct (scaled_dim src_h scale) as [oh | e]; [ | discriminate ].
  cbn [rbind] in Hl |- *. injection Hl as -> ->.
  rewrite Hrs. cbn [rbind].
  unfold Image_new. cbn [fst snd].
  destruct (Z.ltb_spec side 0); [ reflexivity | lia ].
Qed.

(** Up to the first [save], [main] changes no file and prints
    nothing; a side below 0 gives no rendition. *)
Lemma main_negative_side (env : Env) (args : Args) (w w' : World)
    (r : result Z) :
  mint_max_side args < 0 \/ thumb_max_side args < 0 ->
  main env args w = (r, w') ->
  exists e, r = Raise e /\ files w' = files w /\ stdout w' = stdout w.
Proof.
  intros Hneg. unfold main.
  fold (input_path env args) (out_dir_path env args).
  fold (mint_path env args) (thumb_path env args).
  intros Hm. unfold bind at 1 in Hm.
  destruct (makedirs (out_dir_path env args) w) as [[[] | e] w1] eqn:Hmk.
  2: { injection Hm as <- <-.
       apply makedirs_inv in Hmk as (Hf & Ho & _). eauto. }
  apply makedirs_inv in Hmk as (Hf & Ho & _).
  unfold bind at 1 in Hm. unfold Image_open, bind at 1 in Hm.
  destruct (read_bytes (input_path env args) w1) as [[data | e] w1'] eqn:Hrd.
  2: { apply read_bytes_inv in Hrd as [-> _]. injection Hm as <- <-. eauto. }
  apply read_bytes_inv in Hrd as [-> _].
  unfold lift at 1 in Hm.
  destruct (identify (input_path env args) data) as [im | e].
  2: { injection Hm as <- <-. eauto. }
  unfold bind at 1 in Hm. unfold lift at 1 in Hm.
  destruct (validate im) as [[[mime ow] oh] | e].
  2: { injection Hm as <- <-. eauto. }
  fold (capped_side (mint_max_side args) ow oh) in Hm.
  fold (capped_side (thumb_max_side args) ow oh) in Hm.
  unfold bind at 1 in Hm. unfold lift at 1 in Hm.
  destruct (render_square_contain im (capped_side (mint_max_side args) ow oh))
    as [mint_img | e] eqn:Hrm.
  2: { injection Hm as <- <-. eauto. }
  unfold bind at 1 in Hm. unfold lift at 1 in Hm.
  destruct (render_square_contain im (capped_side (thumb_max_side args) ow oh))
    as [thumb_img | e] eqn:Hrt.
  2: { injection Hm as <- <-. eauto. }
  apply render_square_contain_side in Hrm, Hrt.
  unfold capped_side in Hrm, Hrt. lia.
Qed.

(** X13.  For a side that is not positive (down to [- INT_MAX]) and a
    source with sides from 1 to [INT_MAX], the scale is not positive
    and both sides of the resized image are clamped to 1, with the
    paste offset [(side - 1) // 2] outside the canvas.  For a negative
    side the resizer returns no image: once the source is converted
    and resized to one pixel, it raises [ValueError] when it makes
    the canvas. *)
Theorem nonpositive_side_gives_one_pixel (src : Image) (side : Z) :
  dimension (fst (im_size src)) -> dimension (snd (im_size src)) ->
  - INT_MAX <= side <= 0 ->
  contain_layout side (fst (im_size src)) (snd (im_size src))
  = Ok (mkLayout 1 1 ((side - 1) / 2) ((side - 1) / 2))
  /\ (side - 1) / 2 < 0
  /\ (side < 0 ->
      (forall canvas, render_square_contain src side <> Ok canvas)
      /\ (forall rgba resized,
            convert src "RGBA" = Ok rgba ->
            resize rgba (1, 1) = Ok resized ->
            render_square_contain src side
            = Raise (Exn ValueError "Width and height must be >= 0"))).
Proof.
  intros Hw Hh Hs.
  split; [ exact (contain_layout_nonpos side _ _ Hs Hw Hh) | ].
  split.
  - apply Z.div_lt_upper_bound; lia.
  - intros Hneg. split.
    + intros canvas Hr. apply render_square_contain_side in Hr. lia.
    + intros rgba resized Hc Hrs.
      apply (render_negative_side src rgba resized); auto; lia.
Qed.

(** X14.  A run whose [--mint-max-side] or [--thumb-max-side] is
    negative ends with status 1, having written no file and printed
    nothing on standard output: the resizer returns no image for a
    negative side, so that [main] raises before the first [save]. *)
Theorem negative_max_side_fails (env : Env) (flags : Flags) (w : World) :
  let args := parse_args flags in
  import_PIL env = Ok tt ->
  mint_max_side args < 0 \/ thumb_max_side args < 0 ->
  fst (script env flags w) = 1
  /\ files (snd (script env flags w)) = files w
  /\ stdout (snd (script env flags w)) = stdout w.
Proof.
  intros args Himp Hneg. unfold script. rewrite Himp. fold args.
  destruct (main env args w) as [r w'] eqn:Hm.
  destruct (main_negative_side _ _ _ _ _ Hneg Hm) as (e & -> & Hf & Ho).
  cbn [fst snd files stdout put_stderr]. auto.
Qed.

End NegativeSide.

Lemma nonpositive_side_gives_one_pixel_witness :
  contain_layout (-5) 4000 2000 = Ok (mkLayout 1 1 (-3) (-3))
  /\ @render_square_contain Toy.pillow Toy.cat (-5)
     = Raise (Exn ValueError "Width and height must be >= 0").
Proof.
  destruct (@nonpositive_side_gives_one_pixel Toy.pillow Toy.cat (-5))
    as (Hl & _ & Hr).
  - unfold dimension, INT_MAX. cbn. lia.
  - unfold dimension, INT_MAX. cbn. lia.
  - unfold INT_MAX. lia.
  - split; [ exact Hl | ].
    destruct (Hr ltac:(lia)) as [_ Hraise].
    destruct (@convert Toy.pillow Toy.cat "RGBA") as [rgba | e] eqn:Hc;
      [ | vm_compute in Hc; discriminate Hc ].
    destruct (@resize Toy.pillow rgba (1, 1)) as [resized | e] eqn:Hrs.
    + exact (Hraise rgba resized eq_refl Hrs).
    + vm_compute in Hc. injection Hc as <-. vm_compute in Hrs. discriminate Hrs.
Defined.

Lemma negative_max_side_fails_witness :
  fst (@script Toy.pillow Toy.env
         (mkFlags "in/cat.jpg" "out" None (Some (-1)) None) Cases.cat_world) = 1
  /\ files (snd (@script Toy.pillow Toy.env
                   (mkFlags "in/cat.jpg" "out" None (Some (-1)) None)
                   Cases.cat_world))
     = files Cases.cat_world.
Proof.
  destruct (@negative_max_side_fails Toy.pillow Toy.env
              (mkFlags "in/cat.jpg" "out" None (Some (-1)) None) Cases.cat_world)
    as (Hs & Hf & _).
  - reflexivity.
  - right. vm_compute. reflexivity.
  - split; assumption.
Defined.

(** * The manifest: time stamp and keys *)

Lemma replace_utc_suffix (s : string) :
  string_forall (fun c => negb (Ascii.eqb c "+")) s = true ->
  replace "+00:00" "Z" (s ++ "+00:00") = (s ++ "Z")%string.
Proof.
  unfold replace. induction s as [| c s IH]; intros Hs.
  - reflexivity.
  - cbn [string_forall] in Hs. apply andb_true_iff in Hs as [Hc Hs].
    apply negb_true_iff in Hc.
    change (String c s ++ "+00:00")%string with (String c (s ++ "+00:00")%string).
    change (String c s ++ "Z")%string with (String c (s ++ "Z")%string).
    cbn [replace_go startswith].
    rewrite Ascii.eqb_sym, Hc. cbn [andb]. rewrite (IH Hs). reflexivity.
Qed.

Lemma manifest_created_at (env : Env) (args : Args) (mime : string) (ow oh : Z)
    (ob mb tb : list byte) :
  json_path ["meta"; "createdAt"] (manifest env args mime ow oh ob mb tb)
  = Some (JStr (replace "+00:00" "Z" (utcnow_isoformat env))).
Proof.
  unfold manifest, build_result, with_title, build_meta.
  destruct (is_empty _); reflexivity.
Qed.

(** The keys of a JSON object, in order. *)
Lemma manifest_keys (env : Env) (args : Args) (mime : string) (ow oh : Z)
    (ob mb tb : list byte) :
  exists files_items meta_items,
    manifest env args mime ow oh ob mb tb
    = JObj [("files", JObj files_items); ("meta", JObj meta_items)]
    /\ map fst files_items
       = ["tempDir"; "originalPath"; "mintPath"; "thumbnailPath";
          "originalFilename"; "mintFilename"; "thumbnailFilename"]
    /\ map fst meta_items
       = (["description"; "original"; "mint"; "thumbnail"; "createdAt";
           "appVersion"]
          ++ (if is_empty (strip (raw_stem (input_path env args)))
              then [] else ["title"]))%list.
Proof.
  unfold manifest, build_result, with_title, build_meta.
  destruct (is_empty _); eexists _, _; split; try reflexivity;
    split; reflexivity.
Qed.

Section Stamp.
Context `{Pillow}.

(** X15.  When [main] returns and the clock reading, as
    [isoformat()] prints a UTC time, is [s] followed by [+00:00] with
    no [+] in [s], the manifest's [createdAt] is [s] followed by [Z]. *)
Theorem created_at_ends_in_Z (env : Env) (args : Args) (w w' : World)
    (status : Z) (s : string) :
  main env args w = (Ok status, w') ->
  utcnow_isoformat env = (s ++ "+00:00")%string ->
  string_forall (fun c => negb (Ascii.eqb c "+")) s = true ->
  exists j,
    stdout w' = (stdout w ++ [Dumps j])%list
    /\ json_path ["meta"; "createdAt"] j = Some (JStr (s ++ "Z")).
Proof.
  intros Hm Hnow Hs. main_returned Hm.
  exists (manifest env args mime ow oh ob md td).
  split; [ exact Hout | ].
  rewrite manifest_created_at, Hnow, (replace_utc_suffix s Hs). reflexivity.
Qed.

(** X16.  The manifest a returning run prints is an object with the
    two keys [files] and [meta], in this order.  [files] has the seven
    keys [tempDir], [originalPath], [mintPath], [thumbnailPath],
    [originalFilename], [mintFilename], [thumbnailFilename]; [meta]
    has [description], [original], [mint], [thumbnail], [createdAt],
    [appVersion] and, last and only when the stripped stem of the
    input's name is not empty, [title]. *)
Theorem manifest_has_these_keys (env : Env) (args : Args) (w w' : World)
    (status : Z) :
  main env args w = (Ok status, w') ->
  exists files_items meta_items,
    stdout w'
    = (stdout w
       ++ [Dumps (JObj [("files", JObj files_items);
                        ("meta", JObj meta_items)])])%list
    /\ map fst files_items
       = ["tempDir"; "originalPath"; "mintPath"; "thumbnailPath";
          "originalFilename"; "mintFilename"; "thumbnailFilename"]
    /\ map fst meta_items
       = (["description"; "original"; "mint"; "thumbnail"; "createdAt";
           "appVersion"]
          ++ (if is_empty (strip (raw_stem (input_path env args)))
              then [] else ["title"]))%list.
Proof.
  intros Hm. main_returned Hm.
  destruct (manifest_keys env args mime ow oh ob md td)
    as (fi & mi & Hj & Hfi & Hmi).
  exists fi, mi. rewrite <- Hj. auto.
Qed.

End Stamp.

Lemma created_at_ends_in_Z_witness :
  exists j,
    stdout (snd (Toy.run_main "cat.jpg" Toy.cat_file)) = [Dumps j]
    /\ json_path ["meta"; "createdAt"] j
       = Some (JStr "2026-01-01T12:00:00.250000Z").
Proof.
  apply (@created_at_ends_in_Z Toy.pillow Toy.env Cases.cat_args Cases.cat_world
           (snd (Toy.run_main "cat.jpg" Toy.cat_file)) 0
           "2026-01-01T12:00:00.250000").
  - vm_compute. reflexivity.
  - reflexivity.
  - vm_compute. reflexivity.
Defined.

Lemma manifest_has_these_keys_witness :
  exists files_items meta_items,
    stdout (snd (Toy.run_main "cat.jpg" Toy.cat_file))
    = [Dumps (JObj [("files", JObj files_items); ("meta", JObj meta_items)])]
    /\ map fst files_items
       = ["tempDir"; "originalPath"; "mintPath"; "thumbnailPath";
          "originalFilename"; "mintFilename"; "thumbnailFilename"]
    /\ map fst meta_items
       = ["description"; "original"; "mint"; "thumbnail"; "createdAt";
          "appVersion"; "title"].
Proof.
  apply (@manifest_has_these_keys Toy.pillow Toy.env Cases.cat_args
           Cases.cat_world (snd (Toy.run_main "cat.jpg" Toy.cat_file)) 0).
  vm_compute. reflexivity.
Defined.

(** * Paths *)

Lemma is_empty_app (a b : string) :
  is_empty (a ++ b) = is_empty a && is_empty b.
Proof. destruct a; reflexivity. Qed.

Lemma startswith_slash_app (a b : string) :
  startswith "/" a = true -> startswith "/" (a ++ b) = true.
Proof.
  destruct a as [| c a]; [ discriminate | ].
  change (String c a ++ b)%string with (String c (a ++ b)%string).
  cbn [startswith]. rewrite !andb_true_r. auto.
Qed.

Lemma endswith_slash_app (a b : string) :
  is_empty b = false -> endswith "/" (a ++ b) = endswith "/" b.
Proof.
  intros Hb. unfold endswith. change (string_rev "/") with "/".
  rewrite string_rev_app.
  assert (Hr : is_empty (string_rev b) = false) by (rewrite is_empty_rev; exact Hb).
  destruct (string_rev b) as [| c r]; [ discriminate | ].
  reflexivity.
Qed.

Lemma endswith_slash_component (c : string) :
  component c -> endswith "/" c = false.
Proof.
  intros [He Hn]. unfold endswith, no_slash in *.
  change (string_rev "/") with "/".
  rewrite <- string_forall_rev in Hn. rewrite <- is_empty_rev in He.
  destruct (string_rev c) as [| x r]; [ discriminate | ].
  cbn [string_forall] in Hn. apply andb_true_iff in Hn as [Hx _].
  apply negb_true_iff in Hx. cbn [startswith].
  rewrite Ascii.eqb_sym, Hx. reflexivity.
Qed.

Lemma endswith_slash_inv (a : string) :
  endswith "/" a = true -> exists a0, a = (a0 ++ "/")%string.
Proof.
  unfold endswith. change (string_rev "/") with "/".
  intros E. rewrite <- (string_rev_involutive a).
  destruct (string_rev a) as [| c r]; [ discriminate | ].
  cbn [startswith] in E. rewrite andb_true_r in E.
  apply Ascii.eqb_eq in E as <-.
  exists (string_rev r). reflexivity.
Qed.

(** ** [split] and [normpath] *)

Lemma split_no_slash (s : string) :
  Forall (fun w => no_slash w = true) (split "/" s).
Proof.
  induction s as [| c s IH]; cbn [split].
  - constructor; [ reflexivity | constructor ].
  - destruct (Ascii.eqb c "/") eqn:E.
    + constructor; [ reflexivity | exact IH ].
    + destruct (split "/" s) as [| w ws].
      * constructor; [ | constructor ].
        unfold no_slash. cbn [string_forall]. rewrite E. reflexivity.
      * inversion IH as [| ? ? Hw Hws]; subst.
        constructor; [ | exact Hws ].
        unfold no_slash in *. cbn [string_forall]. rewrite E. exact Hw.
Qed.

Lemma normpath_step_components (n : Z) (comps : list string) (c : string) :
  Forall component comps -> no_slash c = true ->
  Forall component (normpath_step n comps c).
Proof.
  intros Hc Hn. unfold normpath_step.
  destruct (is_empty c) eqn:He; cbn [orb]; [ exact Hc | ].
  destruct (String.eqb c "."); [ exact Hc | ].
  destruct (_ || _).
  - constructor; [ split; assumption | exact Hc ].
  - destruct comps as [| x rest]; [ exact Hc | ].
    inversion Hc; assumption.
Qed.

Lemma normpath_fold_components (n : Z) (pieces comps : list string) :
  Forall (fun w => no_slash w = true) pieces -> Forall component comps ->
  Forall component (fold_left (normpath_step n) pieces comps).
Proof.
  revert comps. induction pieces as [| p ps IH]; intros comps Hp Hc; cbn.
  - exact Hc.
  - inversion Hp; subst. apply IH; [ assumption | ].
    apply normpath_step_components; assumption.
Qed.

Lemma join_components (l : list string) :
  Forall component l -> l <> [] ->
  is_empty (join_with "/" l) = false /\ endswith "/" (join_with "/" l) = false.
Proof.
  induction l as [| w ws IH]; intros Hl Hne; [ congruence | ].
  inversion Hl as [| ? ? Hw Hws]; subst.
  destruct ws as [| w' ws'].
  - cbn [join_with]. split; [ apply Hw | apply endswith_slash_component, Hw ].
  - destruct (IH Hws ltac:(discriminate)) as [E1 E2].
    change (join_with "/" (w :: w' :: ws'))
      with (w ++ "/" ++ join_with "/" (w' :: ws'))%string.
    split.
    + rewrite is_empty_app. destruct Hw as [-> _]. reflexivity.
    + rewrite endswith_slash_app by reflexivity.
      rewrite endswith_slash_app by exact E1. exact E2.
Qed.

Lemma all_slashes_repeat (n : nat) : all_slashes (repeat_string n "/") = true.
Proof. induction n as [| n IH]; [ reflexivity | exact IH ]. Qed.

(** What [normpath] returns is tidy. *)
Lemma normpath_tidy (path : string) : tidy (normpath path).
Proof.
  unfold normpath.
  destruct (is_empty path); [ split; [ reflexivity | left; reflexivity ] | ].
  cbv zeta.
  set (n := if startswith "/" path then _ else _).
  pose proof (normpath_fold_components n (split "/" path) []
                (split_no_slash path) ltac:(constructor)) as Hc.
  set (comps := fold_left _ _ _) in *.
  apply Forall_rev in Hc.
  destruct (rev comps) as [| c cs] eqn:Er.
  - cbn [join_with]. rewrite append_nil_r.
    destruct (is_empty (repeat_string (Z.to_nat n) "/")) eqn:E.
    + split; [ reflexivity | left; reflexivity ].
    + split; [ exact E | right; apply all_slashes_repeat ].
  - destruct (join_components (c :: cs) Hc ltac:(discriminate)) as [E1 E2].
    assert (E : is_empty (repeat_string (Z.to_nat n) "/"
                          ++ join_with "/" (c :: cs)) = false)
      by (rewrite is_empty_app, E1; apply andb_false_r).
    rewrite E. split; [ exact E | left ].
    rewrite endswith_slash_app by exact E1. exact E2.
Qed.

Lemma normpath_absolute (path : string) :
  startswith "/" path = true -> startswith "/" (normpath path) = true.
Proof.
  intros Hs. unfold normpath.
  destruct path as [| c path]; [ discriminate | ].
  cbn [is_empty]. cbv zeta. rewrite Hs.
  set (n := if _ && _ then 2 else 1).
  assert (Hn : exists k, Z.to_nat n = S k).
  { unfold n. destruct (_ && _); [ exists 1%nat | exists 0%nat ]; reflexivity. }
  destruct Hn as [k ->]. cbn [repeat_string].
  set (rest := join_with _ _).
  change (("/" ++ repeat_string k "/") ++ rest)%string
    with (String "/" (repeat_string k "/" ++ rest)%string).
  reflexivity.
Qed.

(** [os.path.abspath] returns an absolute path when the current
    directory is one. *)
Lemma abspath_absolute (cwd path : string) :
  startswith "/" cwd = true -> startswith "/" (abspath cwd path) = true.
Proof.
  intros Hc. unfold abspath. apply normpath_absolute.
  destruct (startswith "/" path) eqn:E; [ exact E | ].
  unfold path_join. rewrite E.
  destruct (_ || _); apply startswith_slash_app; exact Hc.
Qed.

Lemma abspath_tidy (cwd path : string) : tidy (abspath cwd path).
Proof. apply normpath_tidy. Qed.

(** ** [basename] and [dirname] of a joined path *)

Lemma rfind_from_app (c : ascii) (a b : string) (i found : Z) :
  rfind_from i found c (a ++ b)
  = rfind_from (i + Z.of_nat (String.length a)) (rfind_from i found c a) c b.
Proof.
  revert i found. induction a as [| x a IH]; intros i found.
  - cbn [rfind_from String.length]. change (EmptyString ++ b)%string with b.
    rewrite Z.add_0_r. reflexivity.
  - change (String x a ++ b)%string with (String x (a ++ b)%string).
    cbn [rfind_from String.length]. rewrite IH. f_equal. lia.
Qed.

Lemma rfind_from_absent (c : ascii) (s : string) (i found : Z) :
  string_forall (fun x => negb (Ascii.eqb x c)) s = true ->
  rfind_from i found c s = found.
Proof.
  revert i found. induction s as [| x s IH]; intros i found Hs;
    cbn [rfind_from]; [ reflexivity | ].
  cbn [string_forall] in Hs. apply andb_true_iff in Hs as [Hx Hs].
  apply negb_true_iff in Hx. rewrite Hx. apply IH. exact Hs.
Qed.

Lemma rfind_slash_last (a0 name : string) :
  no_slash name = true ->
  rfind "/" ((a0 ++ "/") ++ name) = Z.of_nat (String.length a0).
Proof.
  intros Hn. unfold rfind. rewrite rfind_from_app, rfind_from_app.
  rewrite (rfind_from_absent "/" name) by exact Hn.
  cbn [rfind_from]. reflexivity.
Qed.

Lemma substring_app_l (a b : string) :
  substring 0 (String.length a) (a ++ b) = a.
Proof.
  induction a as [| x a IH].
  - cbn [String.length]. destruct (EmptyString ++ b)%string; reflexivity.
  - change (String x a ++ b)%string with (String x (a ++ b)%string).
    cbn [String.length substring]. rewrite IH. reflexivity.
Qed.

Lemma substring_app_r (a b : string) :
  substring (String.length a) (String.length b) (a ++ b) = b.
Proof.
  induction a as [| x a IH].
  - cbn [String.length]. change (EmptyString ++ b)%string with b.
    apply substring_all.
  - change (String x a ++ b)%string with (String x (a ++ b)%string).
    cbn [String.length substring]. exact IH.
Qed.

(** A path that is a prefix ending in [/] followed by a name. *)
Lemma split_at_last_slash (a0 name : string) :
  no_slash name = true ->
  let p := ((a0 ++ "/") ++ name)%string in
  basename p = name /\ slice p 0 (rfind "/" p + 1) = (a0 ++ "/")%string.
Proof.
  intros Hn p. subst p.
  assert (Hk : Z.to_nat (rfind "/" ((a0 ++ "/") ++ name) + 1)
               = String.length (a0 ++ "/")).
  { rewrite (rfind_slash_last a0 name Hn), length_append. cbn [String.length]. lia. }
  split.
  - unfold basename, slice_from. rewrite Hk.
    replace (String.length ((a0 ++ "/") ++ name) - String.length (a0 ++ "/"))%nat
      with (String.length name) by (rewrite (length_append (a0 ++ "/")); lia).
    apply substring_app_r.
  - unfold slice. rewrite Z.sub_0_r, Hk. apply substring_app_l.
Qed.

Lemma string_exists_app (f : ascii -> bool) (a b : string) :
  string_exists f (a ++ b) = string_exists f a || string_exists f b.
Proof.
  induction a as [| x a IH]; [ reflexivity | ].
  change (String x a ++ b)%string with (String x (a ++ b)%string).
  cbn [string_exists]. rewrite IH. apply orb_assoc.
Qed.

Lemma all_slashes_no_other (s : string) :
  all_slashes s = true ->
  string_exists (fun c => negb (Ascii.eqb c "/")) s = false.
Proof.
  unfold all_slashes. induction s as [| x s IH]; cbn [string_forall string_exists];
    [ reflexivity | ].
  intros Hs. apply andb_true_iff in Hs as [-> Hs]. cbn [negb orb]. auto.
Qed.

(** A path that does not end in [/]: its last character. *)
Lemma last_character (d : string) :
  is_empty d = false -> endswith "/" d = false ->
  exists r x, d = (string_rev r ++ String x EmptyString)%string
              /\ Ascii.eqb x "/" = false.
Proof.
  unfold endswith. change (string_rev "/") with "/".
  intros He Hs. rewrite <- is_empty_rev in He.
  rewrite <- (string_rev_involutive d).
  destruct (string_rev d) as [| x r]; [ discriminate | ].
  cbn [startswith] in Hs. rewrite andb_true_r in Hs.
  exists r, x. split; [ reflexivity | ].
  rewrite Ascii.eqb_sym. exact Hs.
Qed.

Lemma rstrip_char_slash (d : string) :
  is_empty d = false -> endswith "/" d = false ->
  rstrip_char "/" (d ++ "/") = d.
Proof.
  intros He Hs. destruct (last_character d He Hs) as (r & x & -> & Hx).
  unfold rstrip_char. rewrite !string_rev_app. cbn [string_rev].
  change (EmptyString ++ "/")%string with "/".
  change (EmptyString ++ String x EmptyString)%string with (String x EmptyString).
  change ("/" ++ (String x EmptyString ++ string_rev (string_rev r)))%string
    with (String "/" (String x (string_rev (string_rev r)))).
  cbn [lstrip_char]. change (Ascii.eqb "/" "/") with true. cbn iota.
  rewrite Hx. cbn [string_rev]. rewrite !string_rev_involutive. reflexivity.
Qed.

(** [basename] and [dirname] undo [join] on a tidy directory. *)
Lemma join_round_trip (d name : string) :
  tidy d -> component name ->
  basename (path_join d name) = name /\ dirname (path_join d name) = d.
Proof.
  intros [He Hd] [Hne Hn].
  assert (Hs : startswith "/" name = false).
  { destruct name as [| c name]; [ reflexivity | ].
    unfold no_slash in Hn. cbn [string_forall] in Hn.
    apply andb_true_iff in Hn as [Hc _]. apply negb_true_iff in Hc.
    cbn [startswith]. rewrite Ascii.eqb_sym, Hc. reflexivity. }
  unfold path_join. rewrite Hs, He. cbn [orb].
  destruct (endswith "/" d) eqn:E.
  - destruct Hd as [Hd | Hd]; [ discriminate | ].
    destruct (endswith_slash_inv d E) as [a0 ->].
    destruct (split_at_last_slash a0 name Hn) as [Hb Hh].
    cbv zeta in Hb, Hh. split; [ exact Hb | ].
    unfold dirname. cbv zeta. rewrite Hh.
    rewrite (all_slashes_no_other _ Hd), andb_false_r. reflexivity.
  - destruct (split_at_last_slash d name Hn) as [Hb Hh].
    cbv zeta in Hb, Hh. rewrite append_assoc in Hb, Hh.
    split; [ exact Hb | ].
    unfold dirname. cbv zeta. rewrite Hh.
    destruct (last_character d He E) as (r & x & Hdx & Hx).
    assert (Hex : string_exists (fun c => negb (Ascii.eqb c "/")) (d ++ "/")
                  = true).
    { rewrite Hdx, !string_exists_app. cbn [string_exists]. rewrite Hx.
      cbn [negb orb]. rewrite orb_true_r. reflexivity. }
    rewrite Hex, is_empty_app, He. cbn [negb andb].
    apply rstrip_char_slash; assumption.
Qed.

Section ManifestPaths.
Context `{Pillow}.

(** X17.  In the manifest of a returning run, [tempDir] is the
    directory of both [mintPath] and [thumbnailPath]
    ([os.path.dirname] of either gives it back), their base names are
    [mintFilename] and [thumbnailFilename], and [originalFilename] is
    the base name of [originalPath].  When the current directory is an
    absolute path, so are [tempDir], [originalPath], [mintPath] and
    [thumbnailPath]. *)
Theorem manifest_paths_agree (env : Env) (args : Args) (w w' : World)
    (status : Z) :
  main env args w = (Ok status, w') ->
  exists j temp original mint thumb,
    stdout w' = (stdout w ++ [Dumps j])%list
    /\ json_path ["files"; "tempDir"] j = Some (JStr temp)
    /\ json_path ["files"; "originalPath"] j = Some (JStr original)
    /\ json_path ["files"; "mintPath"] j = Some (JStr mint)
    /\ json_path ["files"; "thumbnailPath"] j = Some (JStr thumb)
    /\ dirname mint = temp /\ dirname thumb = temp
    /\ json_path ["files"; "mintFilename"] j = Some (JStr (basename mint))
    /\ json_path ["files"; "thumbnailFilename"] j
       = Some (JStr (basename thumb))
    /\ json_path ["files"; "originalFilename"] j
       = Some (JStr (basename original))
    /\ (startswith "/" (cwd env) = true ->
        startswith "/" temp = true /\ startswith "/" original = true
        /\ startswith "/" mint = true /\ startswith "/" thumb = true).
Proof.
  intros Hm. main_returned Hm.
  exists (manifest env args mime ow oh ob md td).
  exists (out_dir_path env args), (input_path env args).
  exists (mint_path env args), (thumb_path env args).
  pose proof (abspath_tidy (cwd env) (out_dir args)) as Ht.
  fold (out_dir_path env args) in Ht.
  destruct (join_round_trip (out_dir_path env args) "mint.webp" Ht)
    as [Bm Dm]; [ split; reflexivity | ].
  destruct (join_round_trip (out_dir_path env args) "thumb.webp" Ht)
    as [Bt Dt]; [ split; reflexivity | ].
  fold (mint_path env args) in Bm, Dm. fold (thumb_path env args) in Bt, Dt.
  rewrite Bm, Bt.
  repeat (split; [ first [ exact Hout | exact Dm | exact Dt | reflexivity ] | ]).
  intros Hcwd.
  assert (Ho : startswith "/" (out_dir_path env args) = true)
    by (apply abspath_absolute; exact Hcwd).
  split; [ exact Ho | ].
  split; [ apply abspath_absolute; exact Hcwd | ].
  unfold mint_path, thumb_path, path_join. cbn [startswith andb].
  change (Ascii.eqb "/" "m") with false. change (Ascii.eqb "/" "t") with false.
  cbn iota.
  destruct (_ || _); split; apply startswith_slash_app; exact Ho.
Qed.

End ManifestPaths.

Lemma manifest_paths_agree_witness :
  exists j,
    stdout (snd (Toy.run_main "cat.jpg" Toy.cat_file)) = [Dumps j]
    /\ json_path ["files"; "tempDir"] j = Some (JStr "/home/art/out")
    /\ json_path ["files"; "mintPath"] j = Some (JStr "/home/art/out/mint.webp")
    /\ dirname "/home/art/out/mint.webp" = "/home/art/out"
    /\ json_path ["files"; "mintFilename"] j
       = Some (JStr (basename "/home/art/out/mint.webp")).
Proof.
  destruct (@manifest_paths_agree Toy.pillow Toy.env Cases.cat_args
              Cases.cat_world (snd (Toy.run_main "cat.jpg" Toy.cat_file)) 0)
    as (j & temp & original & mint & thumb & Hout & Jt & _ & Jm & _ & Dm & _
        & Jf & _).
  { vm_compute. reflexivity. }
  exists j. split; [ exact Hout | ].
  vm_compute in Hout. injection Hout as Ej. subst j.
  vm_compute in Jt. injection Jt as <-.
  vm_compute in Jm. injection Jm as <-.
  split; [ reflexivity | ]. split; [ reflexivity | ].
  split; [ exact Dm | exact Jf ].
Defined.

(** * The title *)

Lemma string_forall_substring (f : ascii -> bool) (s : string) (n m : nat) :
  string_forall f s = true -> string_forall f (substring n m s) = true.
Proof.
  revert n m. induction s as [| c s IH]; intros n m Hs.
  - destruct n, m; reflexivity.
  - cbn [string_forall] in Hs. apply andb_true_iff in Hs as [Hc Hs].
    destruct n as [| n]; cbn [substring].
    + destruct m as [| m]; [ reflexivity | ].
      cbn [string_forall]. rewrite Hc. apply IH. exact Hs.
    + apply IH. exact Hs.
Qed.

Lemma string_forall_lstrip_kept (f : ascii -> bool) (s : string) :
  string_forall f s = true -> string_forall f (lstrip s) = true.
Proof.
  induction s as [| c s IH]; intros Hs; cbn [lstrip]; [ reflexivity | ].
  destruct (isspace c); [ | exact Hs ].
  cbn [string_forall] in Hs. apply andb_true_iff in Hs as [_ Hs]. auto.
Qed.

Lemma string_forall_strip_kept (f : ascii -> bool) (s : string) :
  string_forall f s = true -> string_forall f (strip s) = true.
Proof.
  intros Hs. unfold strip, rstrip.
  rewrite string_forall_rev. apply string_forall_lstrip_kept.
  rewrite string_forall_rev. apply string_forall_lstrip_kept. exact Hs.
Qed.

(** After the last [c] of a string there is no [c]. *)
Lemma rfind_from_tail (c : ascii) (s : string) (i found : Z) :
  found < i ->
  let k := rfind_from i found c s in
  let absent := string_forall (fun x => negb (Ascii.eqb x c)) in
  (k < i -> k = found /\ absent s = true)
  /\ (i <= k ->
      absent (substring (Z.to_nat (k - i + 1))
                (String.length s - Z.to_nat (k - i + 1)) s) = true).
Proof.
  revert i found. induction s as [| a s IH]; intros i found Hf; cbv zeta.
  - cbn [rfind_from]. split; [ auto | lia ].
  - cbn [rfind_from].
    destruct (Ascii.eqb a c) eqn:E.
    + destruct (IH (i + 1) i ltac:(lia)) as [Hno Hyes]. cbv zeta in Hno, Hyes.
      set (k := rfind_from (i + 1) i c s) in *.
      split; [ intros Hk | intros Hk ].
      * destruct (Z_lt_le_dec k (i + 1)) as [Hlt | Hge].
        -- destruct (Hno Hlt) as [Ek _]. lia.
        -- lia.
      * destruct (Z_lt_le_dec k (i + 1)) as [Hlt | Hge].
        -- destruct (Hno Hlt) as [Ek Hs]. rewrite Ek.
           replace (i - i + 1) with 1 by lia.
           change (Z.to_nat 1) with 1%nat.
           cbn [String.length substring Nat.sub]. rewrite Nat.sub_0_r.
           rewrite substring_all. exact Hs.
        -- specialize (Hyes Hge).
           replace (Z.to_nat (k - i + 1)) with (S (Z.to_nat (k - (i + 1) + 1)))
             by lia.
           cbn [String.length substring Nat.sub]. exact Hyes.
    + destruct (IH (i + 1) found ltac:(lia)) as [Hno Hyes]. cbv zeta in Hno, Hyes.
      set (k := rfind_from (i + 1) found c s) in *.
      split; [ intros Hk | intros Hk ].
      * destruct (Hno ltac:(lia)) as [Ek Hs]. split; [ exact Ek | ].
        cbn [string_forall]. rewrite E, Hs. reflexivity.
      * destruct (Z_lt_le_dec k (i + 1)) as [Hlt | Hge].
        -- destruct (Hno Hlt) as [Ek _]. lia.
        -- specialize (Hyes Hge).
           replace (Z.to_nat (k - i + 1)) with (S (Z.to_nat (k - (i + 1) + 1)))
             by lia.
           cbn [String.length substring Nat.sub]. exact Hyes.
Qed.

Lemma basename_no_slash (p : string) : no_slash (basename p) = true.
Proof.
  unfold basename, slice_from, no_slash, rfind.
  destruct (rfind_from_tail "/" p 0 (-1) ltac:(lia)) as [Hno Hyes].
  cbv zeta in Hno, Hyes.
  pose proof (rfind_from_bound "/" p 0 (-1) ltac:(lia)) as Hb.
  set (k := rfind_from 0 (-1) "/" p) in *.
  destruct (Z_lt_le_dec k 0) as [Hlt | Hge].
  - destruct (Hno Hlt) as [Ek Hs]. rewrite Ek.
    apply string_forall_substring. exact Hs.
  - specialize (Hyes Hge). rewrite Z.sub_0_r in Hyes. exact Hyes.
Qed.

Lemma raw_stem_no_slash (p : string) : no_slash (raw_stem p) = true.
Proof.
  unfold raw_stem, splitext. cbv zeta.
  destruct (_ && _); cbn [fst].
  - unfold slice, no_slash. apply string_forall_substring, basename_no_slash.
  - apply basename_no_slash.
Qed.

Section Title.
Context `{Pillow}.

(** X18.  When the manifest of a returning run has a [title], the
    title is not empty, has no whitespace at its start or at its end
    (stripping it on either side changes nothing) and contains no
    [/]: it names no directory. *)
Theorem title_is_trimmed (env : Env) (args : Args) (w w' : World)
    (status : Z) :
  main env args w = (Ok status, w') ->
  exists j,
    stdout w' = (stdout w ++ [Dumps j])%list
    /\ forall t,
         json_path ["meta"; "title"] j = Some (JStr t) ->
         is_empty t = false /\ lstrip t = t /\ rstrip t = t
         /\ no_slash t = true.
Proof.
  intros Hm. main_returned Hm.
  exists (manifest env args mime ow oh ob md td).
  split; [ exact Hout | ].
  intros t. rewrite manifest_title. cbv zeta.
  destruct (is_empty (strip (raw_stem (input_path env args)))) eqn:E;
    [ discriminate | ].
  intros [= <-].
  destruct (strip_trimmed (raw_stem (input_path env args))) as [Hl Hr].
  repeat split; auto.
  apply string_forall_strip_kept, raw_stem_no_slash.
Qed.

End Title.

Lemma title_is_trimmed_witness :
  exists j,
    stdout (snd (Toy.run_main " my cat .png" Toy.blank_file)) = [Dumps j]
    /\ json_path ["meta"; "title"] j = Some (JStr "my cat")
    /\ lstrip "my cat" = "my cat" /\ rstrip "my cat" = "my cat".
Proof.
  destruct (@title_is_trimmed Toy.pillow Toy.env
              (parse_args (Toy.flags " my cat .png"))
              (Toy.world " my cat .png" Toy.blank_file)
              (snd (Toy.run_main " my cat .png" Toy.blank_file)) 0)
    as (j & Hout & Ht).
  { vm_compute. reflexivity. }
  exists j. split; [ exact Hout | ].
  vm_compute in Hout. injection Hout as Ej. subst j.
  split; [ reflexivity | ].
  destruct (Ht "my cat" eq_refl) as (_ & Hl & Hr & _). auto.
Defined.

(** * The sides of the renditions *)

Section Sides.
Context `{Pillow}.

(** X19.  In a run of [main] that returns, the side the manifest gives
    for each rendition ([maxSide], also its width and height) is from
    0 to [INT_MAX] and at most the maximum side asked for and at most
    the longer side of the source; so with the default options the
    mint rendition is at most 4096 and the thumbnail at most 512
    pixels wide and high, and the thumbnail is never larger than the
    mint rendition unless a larger maximum was asked for it. *)
Theorem rendition_sides_are_within_the_maximum (env : Env) (args : Args)
    (w w' : World) (status : Z) :
  main env args w = (Ok status, w') ->
  exists j data im m t,
    stdout w' = (stdout w ++ [Dumps j])%list
    /\ files w !! input_path env args = Some data
    /\ identify (input_path env args) data = Ok im
    /\ json_path ["meta"; "mint"; "maxSide"] j = Some (JInt m)
    /\ json_path ["meta"; "thumbnail"; "maxSide"] j = Some (JInt t)
    /\ 0 <= m <= INT_MAX /\ 0 <= t <= INT_MAX
    /\ m <= mint_max_side args /\ t <= thumb_max_side args
    /\ m <= Z.max (fst (im_size im)) (snd (im_size im))
    /\ t <= Z.max (fst (im_size im)) (snd (im_size im))
    /\ (thumb_max_side args <= mint_max_side args -> t <= m).
Proof.
  intros Hm. main_returned Hm.
  apply render_square_contain_side in Hrm, Hrt.
  apply validate_ok_inv in Hv as (Hsz & _).
  exists (manifest env args mime ow oh ob md td), data, im.
  exists (capped_side (mint_max_side args) ow oh).
  exists (capped_side (thumb_max_side args) ow oh).
  rewrite Hsz. cbn [fst snd].
  split; [ exact Hout | ]. split; [ exact Hdata | ]. split; [ exact Hid | ].
  split.
  { change ["meta"; "mint"; "maxSide"]
      with (["meta"; "mint"] ++ ["maxSide"])%list.
    rewrite (json_path_app _ _ _ _ (manifest_mint _ _ _ _ _ _ _ _)).
    reflexivity. }
  split.
  { change ["meta"; "thumbnail"; "maxSide"]
      with (["meta"; "thumbnail"] ++ ["maxSide"])%list.
    rewrite (json_path_app _ _ _ _ (manifest_thumbnail _ _ _ _ _ _ _ _)).
    reflexivity. }
  unfold capped_side in *. repeat split; lia.
Qed.

End Sides.

Lemma rendition_sides_are_within_the_maximum_witness :
  exists j m t,
    stdout (snd (Toy.run_main "cat.jpg" Toy.cat_file)) = [Dumps j]
    /\ json_path ["meta"; "mint"; "maxSide"] j = Some (JInt m)
    /\ json_path ["meta"; "thumbnail"; "maxSide"] j = Some (JInt t)
    /\ m <= 4096 /\ t <= 512 /\ t <= m.
Proof.
  destruct (@rendition_sides_are_within_the_maximum Toy.pillow Toy.env
              Cases.cat_args Cases.cat_world
              (snd (Toy.run_main "cat.jpg" Toy.cat_file)) 0)
    as (j & data & im & m & t & Hout & _ & _ & Jm & Jt & _ & _ & Bm & Bt & _ & _
        & Htm).
  { vm_compute. reflexivity. }
  exists j, m, t. split; [ exact Hout | ].
  split; [ exact Jm | ]. split; [ exact Jt | ].
  split; [ exact Bm | ]. split; [ exact Bt | ].
  apply Htm. vm_compute. discriminate.
Defined.

(** * The pixels of the canvas *)

Section Pixels.
Context `{Pillow}.

(** X20.  The image the resizer returns is in mode [RGBA] whatever the
    mode of the source, and inside the paste box each of its pixels is
    the pixel of the source, converted to [RGBA] and resampled to the
    inner dimensions, composited over transparent black under its own
    alpha (the resized image is its own paste mask). *)
Theorem canvas_shows_the_resized_image (src : Image) (side : Z)
    (canvas : Image) :
  render_square_contain src side = Ok canvas ->
  exists l spx px,
    contain_layout side (fst (im_size src)) (snd (im_size src)) = Ok l
    /\ im_load src = Ok spx
    /\ im_load canvas = Ok px
    /\ im_mode canvas = "RGBA"
    /\ forall x y,
         in_box (offset_x l, offset_y l) (out_w l, out_h l) x y = true ->
         px x y
         = composite transparent
             (lanczos (im_size src)
                (fun u v => convert_pixel (im_mode src) "RGBA" (spx u v))
                (out_w l, out_h l) (x - offset_x l) (y - offset_y l)).
Proof.
  intros Hr.
  destruct (render_square_contain_inv _ _ _ Hr)
    as (rgba & l & resized & blank & Hc & _ & _ & _ & Hl & Hrs & Hnew & Hp).
  unfold convert in Hc.
  destruct (im_load src) as [spx | e] eqn:Hload; [ | discriminate ].
  cbn [rbind] in Hc. injection Hc as <-.
  unfold resize in Hrs. cbn [im_load rbind fst snd im_mode im_size] in Hrs.
  destruct (c_int (out_w l)) as [xs | e]; [ | discriminate ].
  cbn [rbind] in Hrs.
  destruct (c_int (out_h l)) as [ys | e]; [ | discriminate ].
  cbn [rbind] in Hrs.
  destruct (_ || _); [ discriminate | ].
  destruct (LINE_MAX <? xs); [ discriminate | ].
  destruct (resize_raises _ _); [ discriminate | ]. injection Hrs as <-.
  unfold Image_new in Hnew. cbn [fst snd] in Hnew.
  destruct (_ || _); [ discriminate | ].
  destruct (c_int side) as [cs | e]; [ | discriminate ].
  cbn [rbind] in Hnew.
  destruct (LINE_MAX <? cs); [ discriminate | ].
  destruct (new_raises _); [ discriminate | ]. injection Hnew as <-.
  unfold paste in Hp. cbn [im_load rbind im_size im_mode im_format] in Hp.
  injection Hp as <-. cbn [im_load im_mode].
  eexists l, spx, _. split; [ exact Hl | ]. split; [ reflexivity | ].
  split; [ reflexivity | ]. split; [ reflexivity | ].
  intros x y Hin. cbv beta. cbn [fst snd]. rewrite Hin. reflexivity.
Qed.

End Pixels.

Lemma canvas_shows_the_resized_image_witness :
  exists canvas px,
    @render_square_contain Toy.pillow Toy.cat 512 = Ok canvas
    /\ im_load canvas = Ok px
    /\ im_mode canvas = "RGBA"
    /\ px 0 128 = (128, 128, 128, 255)
    /\ px 0 127 = (0, 0, 0, 0).
Proof.
  destruct (@render_square_contain Toy.pillow Toy.cat 512) as [canvas | e] eqn:E;
    [ | vm_compute in E; discriminate E ].
  destruct (@canvas_shows_the_resized_image Toy.pillow Toy.cat 512 canvas E)
    as (l & spx & px & Hl & Hs & Hpx & Hmode & Hin).
  cbn [Toy.cat Toy.image im_size fst snd] in Hl.
  vm_compute in Hl. injection Hl as <-.
  cbn in Hs. injection Hs as <-.
  exists canvas, px. split; [ reflexivity | ]. split; [ exact Hpx | ].
  split; [ exact Hmode | ]. split.
  - rewrite (Hin 0 128) by reflexivity. vm_compute. reflexivity.
  - vm_compute in E. injection E as <-. cbn in Hpx. injection Hpx as <-.
    vm_compute. reflexivity.
Defined.
